(** * Ordered aperture arrays: identifier decoding and catalog joins

    A shallow embedding of [create_ordered_AP_arrays.py]: the four
    decoding stages that turn the raw slit strings of the master target
    list into aperture keys, the single-source joins, the merged-record
    resolver and the driver that calls them in a fixed order.

    Conventions of the embedding.
    - A numpy array is a [list]; an array of byte strings of width [w]
      (dtype [|Sw]) is a [list string] whose cells went through [np_S w].
    - A Python exception aborts the run: every operation that can raise
      returns an [option], [None] standing for the exception.
    - Index assignment follows numpy 1.9 and later: a value array that
      cannot be broadcast to the index array raises [ValueError].
    - An index array that [np.array] builds from a comprehension without
      [dtype] is a float64 array when the comprehension selects nothing,
      and numpy refuses a float array as an index, empty or not, with
      [IndexError]. Built with [dtype=np.int32], or given as a Python
      list, an empty index selects nothing.
    - Measurement values are only ever copied, never computed with, so
      the joins are stated over an arbitrary value type.
    - The tables are taken as already read: their columns are the
      arguments of the driver.

    The last part embeds [get_filt_index] of [plot_nbia_mainseq.py],
    the selection of the sources of one filter. *)

From Stdlib Require Import String Ascii List Arith Lia Bool.
From stdpp Require Import base option list strings.

Open Scope string_scope.

(** ** Python strings *)

(** [s[:k]] and [s[a:b]] for non-negative bounds; slices never raise. *)
Definition slice (a b : nat) (s : string) : string := substring a (b - a) s.

(** [p in s] for strings: [p] occurs as a contiguous substring of [s]. *)
Fixpoint str_in (p s : string) : bool :=
  String.prefix p s ||
  match s with
  | EmptyString => false
  | String _ s' => str_in p s'
  end.

(** [s[k] == c] where the code has made sure that [k < len(s)]. *)
Definition char_is (c : ascii) (k : nat) (s : string) : bool :=
  match String.get k s with
  | Some d => Ascii.eqb c d
  | None => false
  end.

(** [s.split(sep)] for a one-character separator. *)
Fixpoint split (sep : ascii) (s : string) : list string :=
  match s with
  | EmptyString => [EmptyString]
  | String c s' =>
      if Ascii.eqb c sep then EmptyString :: split sep s'
      else match split sep s' with
           | [] => [String c EmptyString]
           | w :: ws => String c w :: ws
           end
  end.

(** ** numpy byte-string cells *)

Definition nul : ascii := Ascii.zero.

(** A cell of a byte-string array is padded with NUL bytes, so the
    trailing NULs of a stored value are not part of what is read back. *)
Fixpoint rstrip_nul (s : string) : string :=
  match s with
  | EmptyString => EmptyString
  | String c s' =>
      match rstrip_nul s' with
      | EmptyString => if Ascii.eqb c nul then EmptyString else String c EmptyString
      | r => String c r
      end
  end.

(** Storing [s] in a cell of dtype [|Sw] keeps its first [w] bytes:
    numpy truncates silently on assignment. *)
Definition np_S (w : nat) (s : string) : string := rstrip_nul (substring 0 w s).

Fixpoint nul_free (s : string) : bool :=
  match s with
  | EmptyString => true
  | String c s' => negb (Ascii.eqb c nul) && nul_free s'
  end.

(** ** numpy index arrays *)

(** [a[x]] inside a comprehension over [range(len(a))]. *)
Definition item (a : list string) (x : nat) : string := nth x a EmptyString.

(** [np.array([x for x in range(n) if P x], dtype=np.int32)], and the
    list [[x for x in range(n) if P x]] itself. *)
Definition index_where (n : nat) (P : nat -> bool) : list nat :=
  List.filter P (seq 0 n).

(** [np.array([x for x in range(n) if P x])] without [dtype], as the
    index array of the statements that follow it. When the comprehension
    selects nothing this is an empty float64 array, which numpy refuses
    as an index: the first statement that uses it raises [IndexError]. *)
Definition untyped_index_where (n : nat) (P : nat -> bool) : option (list nat) :=
  match index_where n P with
  | [] => None
  | idx => Some idx
  end.

(** [a[idx]] with an index array: [IndexError] when out of range. *)
Definition take {A} (a : list A) (idx : list nat) : option (list A) :=
  mapM (fun i => a !! i) idx.

(** The element-wise writes of an index assignment, in index order; a
    position written twice keeps the last value. *)
Definition put_pairs {A} (a : list A) (ps : list (nat * A)) : list A :=
  foldl (fun acc p => <[p.1 := p.2]> acc) a ps.

Definition in_range {A} (a : list A) (idx : list nat) : bool :=
  forallb (fun i => (i <? length a)%nat) idx.

(** [a[idx] = vals] with an index array and a value array (numpy 1.9 and
    later): the values are paired with the indices when there are as many
    of them, one value is broadcast to every index, and any other shape
    raises [ValueError]; an index out of range raises [IndexError]. *)
Definition put {A} (a : list A) (idx : list nat) (vals : list A) : option (list A) :=
  if in_range a idx then
    if (length vals =? length idx)%nat then Some (put_pairs a (zip idx vals))
    else match vals with
         | [v] => Some (put_pairs a (map (fun i => (i, v)) idx))
         | _ => None
         end
  else None.

(** [a[idx] = v] with a scalar [v]. *)
Definition put_scalar {A} (a : list A) (idx : list nat) (v : A) : option (list A) :=
  if in_range a idx then Some (put_pairs a (map (fun i => (i, v)) idx)) else None.

(** The same two assignments on an array of dtype [|Sw]. *)
Definition put_S (w : nat) (a : list string) (idx : list nat) (vals : list string)
  : option (list string) :=
  put a idx (map (np_S w) vals).

Definition put_scalar_S (w : nat) (a : list string) (idx : list nat) (v : string)
  : option (list string) :=
  put_scalar a idx (np_S w v).

(** [AP[idx] = slit_str0[idx]]. *)
Definition copy_at (w : nat) (AP : list string) (idx : list nat) (src : list string)
  : option (list string) :=
  vals ← take src idx; put_S w AP idx vals.

(** [AP[idx] = np.array([f x for x in AP[idx]])]. *)
Definition rewrite_at (w : nat) (AP : list string) (idx : list nat) (f : string -> string)
  : option (list string) :=
  vals ← take AP idx; put_S w AP idx (map f vals).

(** ** Stage 1: N/A and single MMT detections *)

(** The comprehension guard shared by the seven MMT prefixes. *)
Definition MMT_guard (p : string) (slit_str0 : list string) (x : nat) : bool :=
  (p =? slice 0 2 (item slit_str0 x)) && (String.length (item slit_str0 x) =? 6)%nat.

Definition make_AP_arr_MMT (slit_str0 : list string) : option (list string) :=
  let n := length slit_str0 in
  (* np.array(['x.xxx']*n) has dtype |S5 *)
  let AP := replicate n "x.xxx" in
  slit_NA_index ← untyped_index_where n (fun x => item slit_str0 x =? "N/A");
  AP ← copy_at 5 AP slit_NA_index slit_str0;
  let slit_S_index := index_where n (MMT_guard "S." slit_str0) in
  AP ← copy_at 5 AP slit_S_index slit_str0;
  let slit_A_index := index_where n (MMT_guard "A." slit_str0) in
  AP ← copy_at 5 AP slit_A_index slit_str0;
  let slit_D_index := index_where n (MMT_guard "D." slit_str0) in
  AP ← copy_at 5 AP slit_D_index slit_str0;
  let slit_1_index := index_where n (MMT_guard "1." slit_str0) in
  AP ← copy_at 5 AP slit_1_index slit_str0;
  let slit_2_index := index_where n (MMT_guard "2." slit_str0) in
  AP ← copy_at 5 AP slit_2_index slit_str0;
  let slit_3_index := index_where n (MMT_guard "3." slit_str0) in
  AP ← copy_at 5 AP slit_3_index slit_str0;
  let slit_4_index := index_where n (MMT_guard "4." slit_str0) in
  AP ← copy_at 5 AP slit_4_index slit_str0;
  bad_index ← untyped_index_where (length AP) (fun x => item AP x =? "x.xxx");
  let APgood := map (np_S 20) AP in
  put_scalar_S 20 APgood bad_index "not_MMT".

(** ** Stage 2: single and double DEIMOS (Keck) detections *)

(** From here on [AP] is the array returned by stage 1, of dtype [|S20];
    the stages update it in place and return it. *)
Definition make_AP_arr_DEIMOS (AP slit_str0 : list string) : option (list string) :=
  let n := length slit_str0 in
  let s := item slit_str0 in
  (* Keck, *)
  temp_index1 ← untyped_index_where n (fun x =>
        (String.length (s x) =? 7)%nat && negb (str_in "f" (s x))
        && negb ("08." =? slice 0 3 (s x)));
  AP ← copy_at 20 AP temp_index1 slit_str0;
  AP ← rewrite_at 20 AP temp_index1 (slice 0 6);
  temp_index2 ← untyped_index_where n (fun x =>
        (String.length (s x) =? 7)%nat && negb (str_in "f" (s x))
        && ("08." =? slice 0 3 (s x)));
  AP ← put_scalar_S 20 AP temp_index2 "INVALID_KECK";
  (* Keck,Keck, *)
  temp_index3 ← untyped_index_where n (fun x =>
        (String.length (s x) =? 14)%nat && negb (str_in "f" (s x))
        && ("08." =? slice 7 10 (s x)) && ("08." =? slice 0 3 (s x)));
  AP ← put_scalar_S 20 AP temp_index3 "INVALID_KECK";
  temp_index4 ← untyped_index_where n (fun x =>
        (String.length (s x) =? 14)%nat && negb (str_in "f" (s x))
        && ("08." =? slice 0 3 (s x)) && negb ("08." =? slice 7 10 (s x)));
  AP ← copy_at 20 AP temp_index4 slit_str0;
  rewrite_at 20 AP temp_index4 (slice 7 13).

(** ** Stage 3: merged MMT+Keck detections *)

Definition make_AP_arr_merged (AP slit_str0 : list string) : option (list string) :=
  let n := length slit_str0 in
  let s := item slit_str0 in
  (* merged, *)
  temp_index1 ← untyped_index_where n (fun x =>
        (String.length (s x) =? 13)%nat && char_is "," 5 (s x)
        && negb (str_in "f" (s x)) && negb ("08." =? slice 6 9 (s x)));
  AP ← copy_at 20 AP temp_index1 slit_str0;
  AP ← rewrite_at 20 AP temp_index1 (slice 0 12);
  (* MMT,Keck, means MMT, *)
  temp_index2 ← untyped_index_where n (fun x =>
        (String.length (s x) =? 13)%nat && char_is "," 5 (s x)
        && negb (str_in "f" (s x)) && ("08." =? slice 6 9 (s x)));
  AP ← copy_at 20 AP temp_index2 slit_str0;
  AP ← rewrite_at 20 AP temp_index2 (slice 0 5);
  (* merged,FOCAS, *)
  let temp_index3 := index_where n (fun x =>
        (13 <? String.length (s x))%nat && char_is "f" 13 (s x)
        && negb (str_in "08." (slice 0 13 (s x)))) in
  AP ← copy_at 20 AP temp_index3 slit_str0;
  rewrite_at 20 AP temp_index3 (slice 0 12).

(** ** Stage 4: FOCAS detections *)

(** A comprehension whose guard can raise: the first guard of stage 4
    reads [slit_str0[x][0]] before it looks at the length, which is an
    [IndexError] on an empty string. *)
Fixpoint filter_exc (P : nat -> option bool) (l : list nat) : option (list nat) :=
  match l with
  | [] => Some []
  | x :: l' => b ← P x; r ← filter_exc P l'; Some (if b : bool then x :: r else r)
  end.

Definition make_AP_arr_FOCAS (AP slit_str0 : list string) : option (list string) :=
  let n := length slit_str0 in
  let s := item slit_str0 in
  (* FOCAS, *)
  temp_index1 ← filter_exc (fun x =>
        c ← String.get 0 (s x);
        Some (Ascii.eqb "f" c && (String.length (s x) =? 7)%nat)) (seq 0 n);
  AP ← put_scalar_S 20 AP temp_index1 "FOCAS";
  (* FOCAS,FOCAS,FOCAS, *)
  temp_index2 ← untyped_index_where n (fun x =>
        (String.length (s x) =? 21)%nat && char_is "f" 0 (s x)
        && char_is "f" 7 (s x) && char_is "f" 14 (s x));
  AP ← put_scalar_S 20 AP temp_index2 "FOCAS";
  (* FOCAS,FOCAS, *)
  temp_index3 ← untyped_index_where n (fun x =>
        (String.length (s x) =? 14)%nat && char_is "f" 0 (s x)
        && char_is "f" 7 (s x));
  AP ← put_scalar_S 20 AP temp_index3 "FOCAS";
  (* MMT,FOCAS, *)
  temp_index4 ← untyped_index_where n (fun x =>
        (String.length (s x) =? 13)%nat && char_is "f" 6 (s x));
  AP ← copy_at 20 AP temp_index4 slit_str0;
  AP ← rewrite_at 20 AP temp_index4 (slice 0 5);
  (* Keck,FOCAS, *)
  temp_index5 ← untyped_index_where n (fun x =>
        (String.length (s x) =? 14)%nat && char_is "f" 7 (s x)
        && negb (str_in "f" (slice 0 6 (s x))));
  AP ← copy_at 20 AP temp_index5 slit_str0;
  AP ← rewrite_at 20 AP temp_index5 (slice 0 6);
  (* Keck,Keck,FOCAS, *)
  temp_index6 ← untyped_index_where n (fun x =>
        (String.length (s x) =? 21)%nat && char_is "f" 14 (s x)
        && negb (str_in "f" (slice 0 13 (s x))) && ("08." =? slice 0 3 (s x)));
  AP ← copy_at 20 AP temp_index6 slit_str0;
  AP ← rewrite_at 20 AP temp_index6 (slice 7 13);
  (* Keck,FOCAS,FOCAS, *)
  temp_index7 ← untyped_index_where n (fun x =>
        (String.length (s x) =? 21)%nat && negb (str_in "f" (slice 0 6 (s x)))
        && char_is "f" 7 (s x) && char_is "f" 14 (s x));
  AP ← copy_at 20 AP temp_index7 slit_str0;
  rewrite_at 20 AP temp_index7 (slice 0 6).

(** The four stages in the driver's order (lines 433-436). *)
Definition ordered_AP (slit_str0 : list string) : option (list string) :=
  AP0 ← make_AP_arr_MMT slit_str0;
  AP1 ← make_AP_arr_DEIMOS AP0 slit_str0;
  AP2 ← make_AP_arr_merged AP1 slit_str0;
  make_AP_arr_FOCAS AP2 slit_str0.

(** One raw string of every shape that the stages look for; without
    one of them an untyped index array is empty and the run stops. *)
Example stages_ex :
  ordered_AP ["N/A"; "S.1234"; "S.123,"; "12.345,"; "08.345,"; "08.345,08.111,";
              "08.345,12.111,"; "S.123,12.345,"; "S.123,08.345,"; "S.123,12.345,f12345,";
              "f12345,"; "f12345,f11111,"; "f12345,f11111,f22222,"; "S.123,f12345,";
              "12.345,f12345,"; "08.345,12.111,f12345,"; "12.345,f12345,f11111,";
              "abc"]
  = Some ["N/A"; "S.123"; "S.123"; "12.345"; "INVALID_KECK"; "INVALID_KECK";
          "12.111"; "S.123,12.345"; "S.123"; "S.123,12.345";
          "FOCAS"; "FOCAS"; "FOCAS"; "S.123";
          "12.345"; "12.111"; "12.345"; "not_MMT"]
  /\ ordered_AP ["N/A"; "S.123,"; "12.345,"] = None.
Proof. split; reflexivity. Qed.

(** A master list for the examples: one target of every shape that the
    stages look for, one of them flagged as merged, and one whose raw
    string no stage knows. *)
Definition demo_slit_str0 : list string :=
  ["S.123,"; "12.345,"; "S.555,12.999,"; "N/A"; "S.555,"; "13.000,";
   "08.345,"; "08.345,08.111,"; "08.345,12.111,"; "A.777,08.345,";
   "f12345,f11111,f22222,"; "f12345,f11111,"; "S.888,f12345,"; "14.345,f12345,";
   "08.345,15.111,f12345,"; "16.345,f12345,f11111,"; "abc"].

Definition demo_inst_str0 : list string :=
  ["MMT,"; "Keck,"; "merged,"; "N/A"; "MMT,"; "Keck,";
   "Keck,"; "Keck,Keck,"; "Keck,Keck,"; "MMT,Keck,";
   "FOCAS,FOCAS,FOCAS,"; "FOCAS,FOCAS,"; "MMT,FOCAS,"; "Keck,FOCAS,";
   "Keck,Keck,FOCAS,"; "Keck,FOCAS,FOCAS,"; "N/A"].

Definition demo_AP : list string :=
  ["S.123"; "12.345"; "S.555,12.999"; "N/A"; "S.555"; "13.000";
   "INVALID_KECK"; "INVALID_KECK"; "12.111"; "A.777";
   "FOCAS"; "FOCAS"; "S.888"; "14.345"; "15.111"; "16.345"; "not_MMT"].

Lemma demo_keys : ordered_AP demo_slit_str0 = Some demo_AP.
Proof. reflexivity. Defined.

(** ** Single-source joins *)

(** [k in all_AP] for an array of strings: some cell equals [k]. *)
Definition np_contains (all_AP : list string) (k : string) : bool :=
  existsb (String.eqb k) all_AP.

(** [np.where(all_AP == k)[0]]. *)
Definition np_where_eq (all_AP : list string) (k : string) : list nat :=
  index_where (length all_AP) (fun p => item all_AP p =? k).

(** Rows of the catalog whose key is a key of the master list. *)
Definition join_index1 (all_AP detect_AP : list string) : list nat :=
  index_where (length detect_AP) (fun x => np_contains all_AP (item detect_AP x)).

(** Positions of the master list, catalog row after catalog row: the
    loop that appends [np.where(all_AP == detect_AP[mm])[0]]. *)
Definition join_index2 (all_AP detect_AP : list string) : list nat :=
  foldl (fun index2 mm => (index2 ++ np_where_eq all_AP (item detect_AP mm))%list)
        [] (seq 0 (length detect_AP)).

Section Joins.
Context {V : Type}.

(** [all_X[index2] = detect_X[index1]]. *)
Definition gather_put (all_X : list V) (index2 : list nat)
           (detect_X : list V) (index1 : list nat) : option (list V) :=
  vals ← take detect_X index1; put all_X index2 vals.

Definition get_LMIN0_LMAX0 (all_AP detect_AP : list string)
           (all_MMT_LMIN0 detect_MMT_LMIN0 all_MMT_LMAX0 detect_MMT_LMAX0
            all_KECK_LMIN0 detect_KECK_LMIN0 all_KECK_LMAX0 detect_KECK_LMAX0 : list V)
  : option (list V * list V * list V * list V) :=
  let index1 := join_index1 all_AP detect_AP in
  let index2 := join_index2 all_AP detect_AP in
  all_MMT_LMIN0 ← gather_put all_MMT_LMIN0 index2 detect_MMT_LMIN0 index1;
  all_MMT_LMAX0 ← gather_put all_MMT_LMAX0 index2 detect_MMT_LMAX0 index1;
  all_KECK_LMIN0 ← gather_put all_KECK_LMIN0 index2 detect_KECK_LMIN0 index1;
  all_KECK_LMAX0 ← gather_put all_KECK_LMAX0 index2 detect_KECK_LMAX0 index1;
  Some (all_MMT_LMIN0, all_MMT_LMAX0, all_KECK_LMIN0, all_KECK_LMAX0).

Definition get_SNRs_FLUXs (all_AP detect_AP : list string)
           (all_NIIASNR_FLUX all_NIIBSNR_FLUX detect_NIIASNR_FLUX detect_NIIBSNR_FLUX
            all_HASNR_FLUX detect_HASNR_FLUX all_HBSNR_FLUX detect_HBSNR_FLUX
            all_HGSNR_FLUX detect_HGSNR_FLUX : list V)
  : option (list V * list V * list V * list V * list V) :=
  let index1 := join_index1 all_AP detect_AP in
  let index2 := join_index2 all_AP detect_AP in
  all_NIIASNR_FLUX ← gather_put all_NIIASNR_FLUX index2 detect_NIIASNR_FLUX index1;
  all_NIIBSNR_FLUX ← gather_put all_NIIBSNR_FLUX index2 detect_NIIBSNR_FLUX index1;
  all_HASNR_FLUX ← gather_put all_HASNR_FLUX index2 detect_HASNR_FLUX index1;
  all_HBSNR_FLUX ← gather_put all_HBSNR_FLUX index2 detect_HBSNR_FLUX index1;
  all_HGSNR_FLUX ← gather_put all_HGSNR_FLUX index2 detect_HGSNR_FLUX index1;
  Some (all_NIIASNR_FLUX, all_NIIBSNR_FLUX, all_HASNR_FLUX, all_HBSNR_FLUX,
        all_HGSNR_FLUX).

(** ** Merged-record resolver *)

(** One side of one merged key: the primary catalog when it has a row
    for [code], else the secondary one when it has, else nothing. *)
Definition resolve_side (code : string) (jj : list nat)
           (all_LMIN0 all_LMAX0 : list V)
           (AP1 : list string) (LMIN0_1 LMAX0_1 : list V)
           (AP2 : list string) (LMIN0_2 LMAX0_2 : list V)
  : option (list V * list V) :=
  let i1 := index_where (length AP1) (fun x => code =? item AP1 x) in
  let i2 := index_where (length AP2) (fun x => code =? item AP2 x) in
  if (0 <? length i1)%nat then
    all_LMIN0 ← gather_put all_LMIN0 jj LMIN0_1 i1;
    all_LMAX0 ← gather_put all_LMAX0 jj LMAX0_1 i1;
    Some (all_LMIN0, all_LMAX0)
  else if (0 <? length i2)%nat then
    all_LMIN0 ← gather_put all_LMIN0 jj LMIN0_2 i2;
    all_LMAX0 ← gather_put all_LMAX0 jj LMAX0_2 i2;
    Some (all_LMIN0, all_LMAX0)
  else Some (all_LMIN0, all_LMAX0).

(** The positions the resolver writes to for an instrument-1 code. *)
Definition merged_targets (all_AP : list string) (mmt : string) : list nat :=
  index_where (length all_AP) (fun x => mmt =? slice 0 5 (item all_AP x)).

(** The body of the loop over [mergedAP], for the key [bothap]. *)
Definition merged_step (all_AP : list string)
           (MMTallAP : list string) (MMTallLMIN0 MMTallLMAX0 : list V)
           (MMTsingleAP : list string) (MMTsingleLMIN0 MMTsingleLMAX0 : list V)
           (DEIMOSAP : list string) (DEIMOSLMIN0 DEIMOSLMAX0 : list V)
           (DEIMOS00AP : list string) (DEIMOS00LMIN0 DEIMOS00LMAX0 : list V)
           (st : list V * list V * list V * list V) (bothap : string)
  : option (list V * list V * list V * list V) :=
  let '(all_MMT_LMIN0, all_MMT_LMAX0, all_KECK_LMIN0, all_KECK_LMAX0) := st in
  mmt ← split "," bothap !! 0%nat;
  keck ← split "," bothap !! 1%nat;
  let jj := merged_targets all_AP mmt in
  '(all_MMT_LMIN0, all_MMT_LMAX0) ←
    resolve_side mmt jj all_MMT_LMIN0 all_MMT_LMAX0
                 MMTallAP MMTallLMIN0 MMTallLMAX0
                 MMTsingleAP MMTsingleLMIN0 MMTsingleLMAX0;
  '(all_KECK_LMIN0, all_KECK_LMAX0) ←
    resolve_side keck jj all_KECK_LMIN0 all_KECK_LMAX0
                 DEIMOSAP DEIMOSLMIN0 DEIMOSLMAX0
                 DEIMOS00AP DEIMOS00LMIN0 DEIMOS00LMAX0;
  Some (all_MMT_LMIN0, all_MMT_LMAX0, all_KECK_LMIN0, all_KECK_LMAX0).

(** A [for] loop whose body can raise. *)
Fixpoint for_each {S X} (body : S -> X -> option S) (st : S) (l : list X) : option S :=
  match l with
  | [] => Some st
  | x :: l' => st' ← body st x; for_each body st' l'
  end.

Definition get_LMIN0_LMAX0_merged (all_AP mergedAP : list string)
           (all_MMT_LMIN0 all_MMT_LMAX0 all_KECK_LMIN0 all_KECK_LMAX0 : list V)
           (MMTallAP : list string) (MMTallLMIN0 MMTallLMAX0 : list V)
           (MMTsingleAP : list string) (MMTsingleLMIN0 MMTsingleLMAX0 : list V)
           (DEIMOSAP : list string) (DEIMOSLMIN0 DEIMOSLMAX0 : list V)
           (DEIMOS00AP : list string) (DEIMOS00LMIN0 DEIMOS00LMAX0 : list V)
  : option (list V * list V * list V * list V) :=
  for_each (merged_step all_AP MMTallAP MMTallLMIN0 MMTallLMAX0
                        MMTsingleAP MMTsingleLMIN0 MMTsingleLMAX0
                        DEIMOSAP DEIMOSLMIN0 DEIMOSLMAX0
                        DEIMOS00AP DEIMOS00LMIN0 DEIMOS00LMAX0)
           (all_MMT_LMIN0, all_MMT_LMAX0, all_KECK_LMIN0, all_KECK_LMAX0)
           mergedAP.

End Joins.

(** ** The driver *)

(** The columns the driver reads from a single-instrument line-fit table
    ([MMTS_all], [MMT_single], [DEIMOS_single], [DEIMOS_00_all]). *)
Record line_fit (V : Type) := {
  cat_AP : list string;
  cat_LMIN0 : list V; cat_LMAX0 : list V;
  cat_NIIA_SNR : list V; cat_NIIB_SNR : list V; cat_HA_SNR : list V;
  cat_HB_SNR : list V; cat_HG_SNR : list V;
  cat_NIIA_FLUX : list V; cat_NIIB_FLUX : list V; cat_HA_FLUX : list V;
  cat_HB_FLUX : list V; cat_HG_FLUX : list V
}.

(** The columns of the merged table that the joins use; its four
    wavelength columns are read by the driver and never used. *)
Record merged_fit (V : Type) := {
  mer_AP : list string;
  mer_NIIA_SNR : list V; mer_NIIB_SNR : list V; mer_HA_SNR : list V;
  mer_HB_SNR : list V; mer_HG_SNR : list V;
  mer_NIIA_FLUX : list V; mer_NIIB_FLUX : list V; mer_HA_FLUX : list V;
  mer_HB_FLUX : list V; mer_HG_FLUX : list V
}.

(** The returned dictionary, one field per key. *)
Record ordered (V : Type) := {
  o_AP : list string;
  o_MMT_LMIN0 : list V; o_MMT_LMAX0 : list V;
  o_KECK_LMIN0 : list V; o_KECK_LMAX0 : list V;
  o_NIIA_SNR : list V; o_NIIB_SNR : list V; o_HA_SNR : list V;
  o_HB_SNR : list V; o_HG_SNR : list V;
  o_NIIA_FLUX : list V; o_NIIB_FLUX : list V; o_HA_FLUX : list V;
  o_HB_FLUX : list V; o_HG_FLUX : list V
}.

Inductive result (V : Type) :=
| AP_dict (AP : list string)          (* {'AP': AP}, when AP_only *)
| full_dict (o : ordered V).

Arguments cat_AP {V}.
Arguments cat_LMIN0 {V}.
Arguments cat_LMAX0 {V}.
Arguments cat_NIIA_SNR {V}.
Arguments cat_NIIB_SNR {V}.
Arguments cat_HA_SNR {V}.
Arguments cat_HB_SNR {V}.
Arguments cat_HG_SNR {V}.
Arguments cat_NIIA_FLUX {V}.
Arguments cat_NIIB_FLUX {V}.
Arguments cat_HA_FLUX {V}.
Arguments cat_HB_FLUX {V}.
Arguments cat_HG_FLUX {V}.
Arguments mer_AP {V}.
Arguments mer_NIIA_SNR {V}.
Arguments mer_NIIB_SNR {V}.
Arguments mer_HA_SNR {V}.
Arguments mer_HB_SNR {V}.
Arguments mer_HG_SNR {V}.
Arguments mer_NIIA_FLUX {V}.
Arguments mer_NIIB_FLUX {V}.
Arguments mer_HA_FLUX {V}.
Arguments mer_HB_FLUX {V}.
Arguments mer_HG_FLUX {V}.
Arguments AP_dict {V}.
Arguments full_dict {V}.
Arguments o_AP {V}.
Arguments o_MMT_LMIN0 {V}.
Arguments o_MMT_LMAX0 {V}.
Arguments o_KECK_LMIN0 {V}.
Arguments o_KECK_LMAX0 {V}.
Arguments o_NIIA_SNR {V}.
Arguments o_NIIB_SNR {V}.
Arguments o_HA_SNR {V}.
Arguments o_HB_SNR {V}.
Arguments o_HG_SNR {V}.
Arguments o_NIIA_FLUX {V}.
Arguments o_NIIB_FLUX {V}.
Arguments o_HA_FLUX {V}.
Arguments o_HB_FLUX {V}.
Arguments o_HG_FLUX {V}.

Section Driver.
Context {V : Type}.
(** The value [-99.99999] that fills every output array at first. *)
Variable sentinel : V.
Variables MMTall MMTsingle DEIMOS DEIMOS00 : line_fit V.
Variable merged : merged_fit V.

(** Lines 453-464: the four single-source wavelength joins. Each call
    passes one catalog column as both the MMT and the KECK source. *)
Definition single_LMIN0_LMAX0 (AP : list string)
  : option (list V * list V * list V * list V) :=
  let MMT_LMIN0 := replicate (length AP) sentinel in
  let MMT_LMAX0 := replicate (length AP) sentinel in
  let KECK_LMIN0 := replicate (length AP) sentinel in
  let KECK_LMAX0 := replicate (length AP) sentinel in
  '(MMT_LMIN0, MMT_LMAX0, KECK_LMIN0, KECK_LMAX0) ←
    get_LMIN0_LMAX0 AP (cat_AP MMTall) MMT_LMIN0 (cat_LMIN0 MMTall)
      MMT_LMAX0 (cat_LMAX0 MMTall) KECK_LMIN0 (cat_LMIN0 MMTall)
      KECK_LMAX0 (cat_LMAX0 MMTall);
  '(MMT_LMIN0, MMT_LMAX0, KECK_LMIN0, KECK_LMAX0) ←
    get_LMIN0_LMAX0 AP (cat_AP MMTsingle) MMT_LMIN0 (cat_LMIN0 MMTsingle)
      MMT_LMAX0 (cat_LMAX0 MMTsingle) KECK_LMIN0 (cat_LMIN0 MMTsingle)
      KECK_LMAX0 (cat_LMAX0 MMTsingle);
  '(MMT_LMIN0, MMT_LMAX0, KECK_LMIN0, KECK_LMAX0) ←
    get_LMIN0_LMAX0 AP (cat_AP DEIMOS) MMT_LMIN0 (cat_LMIN0 DEIMOS)
      MMT_LMAX0 (cat_LMAX0 DEIMOS) KECK_LMIN0 (cat_LMIN0 DEIMOS)
      KECK_LMAX0 (cat_LMAX0 DEIMOS);
  get_LMIN0_LMAX0 AP (cat_AP DEIMOS00) MMT_LMIN0 (cat_LMIN0 DEIMOS00)
    MMT_LMAX0 (cat_LMAX0 DEIMOS00) KECK_LMIN0 (cat_LMIN0 DEIMOS00)
    KECK_LMAX0 (cat_LMAX0 DEIMOS00).

(** Lines 472-486: the five signal-to-noise joins. *)
Definition ordered_SNR (AP : list string)
  : option (list V * list V * list V * list V * list V) :=
  let NIIA_SNR := replicate (length AP) sentinel in
  let NIIB_SNR := replicate (length AP) sentinel in
  let HA_SNR := replicate (length AP) sentinel in
  let HB_SNR := replicate (length AP) sentinel in
  let HG_SNR := replicate (length AP) sentinel in
  '(NIIA_SNR, NIIB_SNR, HA_SNR, HB_SNR, HG_SNR) ←
    get_SNRs_FLUXs AP (cat_AP MMTall) NIIA_SNR NIIB_SNR
      (cat_NIIA_SNR MMTall) (cat_NIIB_SNR MMTall) HA_SNR (cat_HA_SNR MMTall)
      HB_SNR (cat_HB_SNR MMTall) HG_SNR (cat_HG_SNR MMTall);
  '(NIIA_SNR, NIIB_SNR, HA_SNR, HB_SNR, HG_SNR) ←
    get_SNRs_FLUXs AP (cat_AP MMTsingle) NIIA_SNR NIIB_SNR
      (cat_NIIA_SNR MMTsingle) (cat_NIIB_SNR MMTsingle) HA_SNR (cat_HA_SNR MMTsingle)
      HB_SNR (cat_HB_SNR MMTsingle) HG_SNR (cat_HG_SNR MMTsingle);
  '(NIIA_SNR, NIIB_SNR, HA_SNR, HB_SNR, HG_SNR) ←
    get_SNRs_FLUXs AP (cat_AP DEIMOS) NIIA_SNR NIIB_SNR
      (cat_NIIA_SNR DEIMOS) (cat_NIIB_SNR DEIMOS) HA_SNR (cat_HA_SNR DEIMOS)
      HB_SNR (cat_HB_SNR DEIMOS) HG_SNR (cat_HG_SNR DEIMOS);
  '(NIIA_SNR, NIIB_SNR, HA_SNR, HB_SNR, HG_SNR) ←
    get_SNRs_FLUXs AP (cat_AP DEIMOS00) NIIA_SNR NIIB_SNR
      (cat_NIIA_SNR DEIMOS00) (cat_NIIB_SNR DEIMOS00) HA_SNR (cat_HA_SNR DEIMOS00)
      HB_SNR (cat_HB_SNR DEIMOS00) HG_SNR (cat_HG_SNR DEIMOS00);
  get_SNRs_FLUXs AP (mer_AP merged) NIIA_SNR NIIB_SNR
    (mer_NIIA_SNR merged) (mer_NIIB_SNR merged) HA_SNR (mer_HA_SNR merged)
    HB_SNR (mer_HB_SNR merged) HG_SNR (mer_HG_SNR merged).

(** Lines 490-504: the five flux joins. *)
Definition ordered_FLUX (AP : list string)
  : option (list V * list V * list V * list V * list V) :=
  let NIIA_FLUX := replicate (length AP) sentinel in
  let NIIB_FLUX := replicate (length AP) sentinel in
  let HA_FLUX := replicate (length AP) sentinel in
  let HB_FLUX := replicate (length AP) sentinel in
  let HG_FLUX := replicate (length AP) sentinel in
  '(NIIA_FLUX, NIIB_FLUX, HA_FLUX, HB_FLUX, HG_FLUX) ←
    get_SNRs_FLUXs AP (cat_AP MMTall) NIIA_FLUX NIIB_FLUX
      (cat_NIIA_FLUX MMTall) (cat_NIIB_FLUX MMTall) HA_FLUX (cat_HA_FLUX MMTall)
      HB_FLUX (cat_HB_FLUX MMTall) HG_FLUX (cat_HG_FLUX MMTall);
  '(NIIA_FLUX, NIIB_FLUX, HA_FLUX, HB_FLUX, HG_FLUX) ←
    get_SNRs_FLUXs AP (cat_AP MMTsingle) NIIA_FLUX NIIB_FLUX
      (cat_NIIA_FLUX MMTsingle) (cat_NIIB_FLUX MMTsingle) HA_FLUX (cat_HA_FLUX MMTsingle)
      HB_FLUX (cat_HB_FLUX MMTsingle) HG_FLUX (cat_HG_FLUX MMTsingle);
  '(NIIA_FLUX, NIIB_FLUX, HA_FLUX, HB_FLUX, HG_FLUX) ←
    get_SNRs_FLUXs AP (cat_AP DEIMOS) NIIA_FLUX NIIB_FLUX
      (cat_NIIA_FLUX DEIMOS) (cat_NIIB_FLUX DEIMOS) HA_FLUX (cat_HA_FLUX DEIMOS)
      HB_FLUX (cat_HB_FLUX DEIMOS) HG_FLUX (cat_HG_FLUX DEIMOS);
  '(NIIA_FLUX, NIIB_FLUX, HA_FLUX, HB_FLUX, HG_FLUX) ←
    get_SNRs_FLUXs AP (cat_AP DEIMOS00) NIIA_FLUX NIIB_FLUX
      (cat_NIIA_FLUX DEIMOS00) (cat_NIIB_FLUX DEIMOS00) HA_FLUX (cat_HA_FLUX DEIMOS00)
      HB_FLUX (cat_HB_FLUX DEIMOS00) HG_FLUX (cat_HG_FLUX DEIMOS00);
  get_SNRs_FLUXs AP (mer_AP merged) NIIA_FLUX NIIB_FLUX
    (mer_NIIA_FLUX merged) (mer_NIIB_FLUX merged) HA_FLUX (mer_HA_FLUX merged)
    HB_FLUX (mer_HB_FLUX merged) HG_FLUX (mer_HG_FLUX merged).

Definition create_ordered_AP_arrays (slit_str0 inst_str0 : list string)
           (AP_only : bool) : option (result V) :=
  AP ← ordered_AP slit_str0;
  merged_iis ← untyped_index_where (length inst_str0)
                 (fun x => str_in "merged" (item inst_str0 x));
  AP_merged ← take AP merged_iis;
  if AP_only then Some (AP_dict AP)
  else
    '(MMT_LMIN0, MMT_LMAX0, KECK_LMIN0, KECK_LMAX0) ← single_LMIN0_LMAX0 AP;
    '(MMT_LMIN0, MMT_LMAX0, KECK_LMIN0, KECK_LMAX0) ←
      get_LMIN0_LMAX0_merged AP AP_merged MMT_LMIN0 MMT_LMAX0 KECK_LMIN0 KECK_LMAX0
        (cat_AP MMTall) (cat_LMIN0 MMTall) (cat_LMAX0 MMTall)
        (cat_AP MMTsingle) (cat_LMIN0 MMTsingle) (cat_LMAX0 MMTsingle)
        (cat_AP DEIMOS) (cat_LMIN0 DEIMOS) (cat_LMAX0 DEIMOS)
        (cat_AP DEIMOS00) (cat_LMIN0 DEIMOS00) (cat_LMAX0 DEIMOS00);
    '(NIIA_SNR, NIIB_SNR, HA_SNR, HB_SNR, HG_SNR) ← ordered_SNR AP;
    '(NIIA_FLUX, NIIB_FLUX, HA_FLUX, HB_FLUX, HG_FLUX) ← ordered_FLUX AP;
    Some (full_dict
            {| o_AP := AP;
               o_MMT_LMIN0 := MMT_LMIN0; o_MMT_LMAX0 := MMT_LMAX0;
               o_KECK_LMIN0 := KECK_LMIN0; o_KECK_LMAX0 := KECK_LMAX0;
               o_NIIA_SNR := NIIA_SNR; o_NIIB_SNR := NIIB_SNR; o_HA_SNR := HA_SNR;
               o_HB_SNR := HB_SNR; o_HG_SNR := HG_SNR;
               o_NIIA_FLUX := NIIA_FLUX; o_NIIB_FLUX := NIIB_FLUX;
               o_HA_FLUX := HA_FLUX; o_HB_FLUX := HB_FLUX; o_HG_FLUX := HG_FLUX |}).

End Driver.


(** * Properties *)

(** ** Facts about strings and byte-string cells *)

Lemma rstrip_nul_cons (c : ascii) (s : string) :
  c <> nul -> rstrip_nul (String c s) = String c (rstrip_nul s).
Proof.
  intros Hc. simpl. apply Ascii.eqb_neq in Hc. rewrite Hc.
  destruct (rstrip_nul s); reflexivity.
Qed.

Lemma rstrip_nul_free (s : string) : nul_free s = true -> rstrip_nul s = s.
Proof.
  induction s as [|c s IH]; simpl; [reflexivity|].
  intros [Hc Hs]%andb_prop. rewrite (IH Hs).
  apply negb_true_iff in Hc. rewrite Hc. destruct s; reflexivity.
Qed.

Lemma nul_free_substring (n m : nat) (s : string) :
  nul_free s = true -> nul_free (substring n m s) = true.
Proof.
  revert n m. induction s as [|c s IH]; intros n m H.
  - destruct n, m; reflexivity.
  - simpl in H. apply andb_prop in H as [Hc Hs].
    destruct n as [|n].
    + destruct m as [|m]; simpl; [reflexivity|]. now rewrite Hc, IH.
    + simpl. now apply IH.
Qed.

Lemma substring_all (w : nat) (s : string) :
  (String.length s <= w)%nat -> substring 0 w s = s.
Proof.
  revert w. induction s as [|c s IH]; intros w H.
  - destruct w; reflexivity.
  - destruct w as [|w]; simpl in *; [lia|]. f_equal. apply IH. lia.
Qed.

Lemma length_substring_le (n m : nat) (s : string) :
  (String.length (substring n m s) <= m)%nat.
Proof.
  revert n m. induction s as [|c s IH]; intros n m.
  - destruct n, m; simpl; lia.
  - destruct n as [|n].
    + destruct m as [|m]; simpl; [lia|]. specialize (IH 0%nat m). lia.
    + simpl. apply IH.
Qed.

Lemma substring_prefix_substring (a b w : nat) (s : string) :
  (a + b <= w)%nat -> substring a b (substring 0 w s) = substring a b s.
Proof.
  revert a b w. induction s as [|c s IH]; intros a b w H.
  - destruct w; reflexivity.
  - destruct w as [|w].
    + assert (a = 0%nat) by lia. assert (b = 0%nat) by lia. subst. reflexivity.
    + destruct a as [|a].
      * destruct b as [|b]; [reflexivity|]. simpl. f_equal. apply IH. lia.
      * simpl. apply IH. lia.
Qed.

(** Storing a NUL-free string that fits the cell and reading it back
    gives the string itself. *)
Lemma np_S_fits (w : nat) (s : string) :
  nul_free s = true -> (String.length s <= w)%nat -> np_S w s = s.
Proof.
  intros Hn Hl. unfold np_S. rewrite substring_all by exact Hl.
  now apply rstrip_nul_free.
Qed.

Lemma np_S_nul_free (w : nat) (s : string) :
  nul_free s = true -> np_S w s = substring 0 w s.
Proof.
  intros Hn. unfold np_S. apply rstrip_nul_free. now apply nul_free_substring.
Qed.

Lemma slice_np_S (a b w : nat) (s : string) :
  nul_free s = true -> (a <= b)%nat -> (b <= w)%nat ->
  slice a b (np_S w s) = slice a b s.
Proof.
  intros Hn Hab Hb. rewrite np_S_nul_free by exact Hn.
  unfold slice. apply substring_prefix_substring. lia.
Qed.

Lemma nul_free_slice (a b : nat) (s : string) :
  nul_free s = true -> nul_free (slice a b s) = true.
Proof. apply nul_free_substring. Qed.

Lemma length_slice_le (a b : nat) (s : string) :
  (String.length (slice a b s) <= b - a)%nat.
Proof. apply length_substring_le. Qed.

(** ** Facts about index arrays *)

Lemma elem_of_index_where (n : nat) (P : nat -> bool) (i : nat) :
  i ∈ index_where n P <-> (i < n)%nat /\ P i = true.
Proof.
  unfold index_where. rewrite list_elem_of_In, filter_In, in_seq. intuition lia.
Qed.

Lemma in_range_spec {A} (a : list A) (idx : list nat) :
  in_range a idx = true <-> forall i, i ∈ idx -> (i < length a)%nat.
Proof.
  unfold in_range. rewrite forallb_forall. split; intros H i Hi.
  - apply Nat.ltb_lt, H. now apply list_elem_of_In.
  - apply Nat.ltb_lt, H. now apply list_elem_of_In.
Qed.

Lemma in_range_index_where {A} (a : list A) (n : nat) (P : nat -> bool) :
  (n <= length a)%nat -> in_range a (index_where n P) = true.
Proof.
  intros Hn. apply in_range_spec. intros i [Hi _]%elem_of_index_where. lia.
Qed.

(** An index array without [dtype] over the cells of [l] can be used
    exactly when some cell satisfies the guard. *)
Lemma untyped_index_where_existsb (l : list string) (g : string -> bool) :
  untyped_index_where (length l) (fun x => g (item l x))
  = if existsb g l then Some (index_where (length l) (fun x => g (item l x)))
    else None.
Proof.
  unfold untyped_index_where.
  destruct (index_where (length l) (fun x => g (item l x))) as [|i idx] eqn:E.
  - destruct (existsb g l) eqn:Ex; [|reflexivity]. exfalso.
    apply existsb_exists in Ex as (raw & Hin & Hg).
    apply list_elem_of_In, list_elem_of_lookup in Hin as [x Hx].
    assert (Hi : x ∈ index_where (length l) (fun x => g (item l x))).
    { apply elem_of_index_where. split; [now apply lookup_lt_Some in Hx|].
      unfold item. now rewrite (nth_lookup_Some _ _ EmptyString _ Hx). }
    rewrite E in Hi. inversion Hi.
  - assert (Hi : i ∈ index_where (length l) (fun x => g (item l x)))
      by (rewrite E; left).
    apply elem_of_index_where in Hi as [Hlt Hg].
    destruct (lookup_lt_is_Some_2 l i Hlt) as [raw Hraw].
    unfold item in Hg. rewrite (nth_lookup_Some _ _ EmptyString _ Hraw) in Hg.
    assert (Ex : existsb g l = true).
    { apply existsb_exists. exists raw. split; [|exact Hg].
      apply list_elem_of_In. now apply list_elem_of_lookup_2 in Hraw. }
    now rewrite Ex.
Qed.

Lemma untyped_index_where_Some (n : nat) (P : nat -> bool) (idx : list nat) :
  untyped_index_where n P = Some idx -> idx = index_where n P /\ idx <> [].
Proof.
  unfold untyped_index_where. destruct (index_where n P); [discriminate|].
  intros [= <-]. split; [reflexivity|discriminate].
Qed.

(** Rewrites the first untyped index array whose guard is [g] on the
    cells of [l]. *)
Ltac untyped l g :=
  match goal with
  | |- context [untyped_index_where (length l) ?P] =>
      let H := fresh in
      assert (H : untyped_index_where (length l) P
                  = if existsb g l then Some (index_where (length l) P) else None)
        by exact (untyped_index_where_existsb l g);
      rewrite H; clear H
  end.

Lemma lookup_nth {A} (d : A) (a : list A) (i : nat) :
  (i < length a)%nat -> a !! i = Some (nth i a d).
Proof.
  intros Hi. destruct (lookup_lt_is_Some_2 a i Hi) as [x Hx].
  now rewrite (nth_lookup_Some _ _ d _ Hx).
Qed.

Lemma take_in_range {A} (d : A) (a : list A) (idx : list nat) :
  in_range a idx = true -> take a idx = Some (map (fun i => nth i a d) idx).
Proof.
  intros H. apply mapM_Some_2.
  rewrite in_range_spec in H.
  induction idx as [|j idx IH]; simpl; constructor.
  - apply lookup_nth. apply H. left.
  - apply IH. intros i Hi. apply H. now right.
Qed.

Lemma take_Some_in_range {A} (a : list A) (idx : list nat) (vals : list A) :
  take a idx = Some vals -> in_range a idx = true.
Proof.
  intros H%mapM_Some_1. apply in_range_spec.
  induction H as [|j v idx vals Hj _ IH]; intros i Hi.
  - inversion Hi.
  - apply elem_of_cons in Hi as [->|Hi]; [|now apply IH].
    now apply lookup_lt_Some in Hj.
Qed.

Lemma take_length {A} (a : list A) (idx : list nat) (vals : list A) :
  take a idx = Some vals -> length vals = length idx.
Proof. intros H. symmetry. exact (length_mapM _ _ _ H). Qed.

Lemma put_pairs_cons {A} (p : nat * A) (ps : list (nat * A)) (a : list A) :
  put_pairs a (p :: ps) = put_pairs (<[p.1 := p.2]> a) ps.
Proof. reflexivity. Qed.

Lemma length_put_pairs {A} (ps : list (nat * A)) (a : list A) :
  length (put_pairs a ps) = length a.
Proof.
  revert a. induction ps as [|p ps IH]; intros a; [reflexivity|].
  rewrite put_pairs_cons, IH. apply length_insert.
Qed.

Lemma put_pairs_not_written {A} (ps : list (nat * A)) (a : list A) (i : nat) :
  i ∉ map fst ps -> put_pairs a ps !! i = a !! i.
Proof.
  revert a. induction ps as [|[j v] ps IH]; intros a Hi; [reflexivity|].
  rewrite put_pairs_cons. simpl in *.
  apply not_elem_of_cons in Hi as [Hij Hi].
  rewrite IH by exact Hi. apply list_lookup_insert_ne. congruence.
Qed.

(** When the value written at an index is a function of the index, the
    order and the repetitions of the writes do not matter. *)
Lemma put_pairs_fun_lookup {A} (f : nat -> A) (idx : list nat) (a : list A) (i : nat) :
  put_pairs a (map (fun j => (j, f j)) idx) !! i
  = if decide (i ∈ idx) then (fun _ => f i) <$> a !! i else a !! i.
Proof.
  revert a. induction idx as [|j idx IH]; intros a.
  - simpl. destruct (decide (i ∈ [])) as [H|H]; [inversion H|reflexivity].
  - simpl map. rewrite put_pairs_cons, IH. simpl.
    destruct (decide (i = j)) as [->|Hij].
    + rewrite (decide_True (P := j ∈ j :: idx)) by left.
      destruct (decide (j < length a)%nat) as [Hlt|Hge].
      * rewrite list_lookup_insert_eq by exact Hlt.
        destruct (lookup_lt_is_Some_2 a j Hlt) as [x ->].
        destruct (decide (j ∈ idx)); reflexivity.
      * rewrite list_insert_ge by lia.
        rewrite (lookup_ge_None_2 a j) by lia.
        destruct (decide (j ∈ idx)); reflexivity.
    + rewrite list_lookup_insert_ne by congruence.
      destruct (decide (i ∈ idx)) as [H1|H1];
        destruct (decide (i ∈ j :: idx)) as [H2|H2]; try reflexivity.
      * exfalso. apply H2. now right.
      * exfalso. apply elem_of_cons in H2 as [?|?]; [congruence|contradiction].
Qed.

Lemma zip_map_self {A} (f : nat -> A) (idx : list nat) :
  zip idx (map f idx) = map (fun j => (j, f j)) idx.
Proof. induction idx as [|j idx IH]; simpl; [reflexivity|now rewrite IH]. Qed.

(** An assignment through a comprehension's index array is a masked
    update of the array. *)
Lemma put_mask {A} (a : list A) (n : nat) (P : nat -> bool) (f : nat -> A) :
  length a = n ->
  put a (index_where n P) (map f (index_where n P))
  = Some (imap (fun i x => if P i then f i else x) a).
Proof.
  intros Hn. unfold put.
  rewrite in_range_index_where by lia.
  rewrite length_map, Nat.eqb_refl. f_equal.
  rewrite zip_map_self. apply list_eq. intros i.
  rewrite put_pairs_fun_lookup, list_lookup_imap.
  destruct (decide (i ∈ index_where n P)) as [Hi|Hi].
  - apply elem_of_index_where in Hi as [_ ->]. reflexivity.
  - destruct (a !! i) as [x|] eqn:Hx; [|reflexivity]. simpl.
    destruct (P i) eqn:HP; [|reflexivity].
    exfalso. apply Hi, elem_of_index_where. split; [|exact HP].
    apply lookup_lt_Some in Hx. lia.
Qed.

Lemma put_scalar_mask {A} (a : list A) (n : nat) (P : nat -> bool) (v : A) :
  length a = n ->
  put_scalar a (index_where n P) v
  = Some (imap (fun i x => if P i then v else x) a).
Proof.
  intros Hn. unfold put_scalar.
  rewrite in_range_index_where by lia. f_equal.
  apply list_eq. intros i.
  rewrite (put_pairs_fun_lookup (fun _ => v)), list_lookup_imap.
  destruct (decide (i ∈ index_where n P)) as [Hi|Hi].
  - apply elem_of_index_where in Hi as [_ ->]. reflexivity.
  - destruct (a !! i) as [x|] eqn:Hx; [|reflexivity]. simpl.
    destruct (P i) eqn:HP; [|reflexivity].
    exfalso. apply Hi, elem_of_index_where. split; [|exact HP].
    apply lookup_lt_Some in Hx. lia.
Qed.

Lemma put_scalar_S_mask (w : nat) (AP : list string) (n : nat) (P : nat -> bool)
      (v : string) :
  length AP = n ->
  put_scalar_S w AP (index_where n P) v
  = Some (imap (fun i x => if P i then np_S w v else x) AP).
Proof. intros Hn. unfold put_scalar_S. now apply put_scalar_mask. Qed.

Lemma copy_at_mask (w : nat) (AP src : list string) (n : nat) (P : nat -> bool) :
  length AP = n -> length src = n ->
  copy_at w AP (index_where n P) src
  = Some (imap (fun i x => if P i then np_S w (item src i) else x) AP).
Proof.
  intros HAP Hsrc. unfold copy_at.
  rewrite (take_in_range EmptyString) by (apply in_range_index_where; lia).
  simpl. unfold put_S. rewrite map_map.
  rewrite (put_mask AP n P (fun i => np_S w (nth i src EmptyString))) by exact HAP.
  reflexivity.
Qed.

Lemma rewrite_at_mask (w : nat) (AP : list string) (n : nat) (P : nat -> bool)
      (f : string -> string) :
  length AP = n ->
  rewrite_at w AP (index_where n P) f
  = Some (imap (fun i x => if P i then np_S w (f x) else x) AP).
Proof.
  intros HAP. unfold rewrite_at.
  rewrite (take_in_range EmptyString) by (apply in_range_index_where; lia).
  simpl. unfold put_S. rewrite !map_map.
  rewrite (put_mask AP n P (fun i => np_S w (f (nth i AP EmptyString)))) by exact HAP.
  f_equal. apply list_eq. intros i. rewrite !list_lookup_imap.
  destruct (AP !! i) as [x|] eqn:Hx; [|reflexivity]. simpl.
  now rewrite (nth_lookup_Some _ _ _ _ Hx).
Qed.

Lemma imap_imap {A B C} (f : nat -> B -> C) (g : nat -> A -> B) (l : list A) :
  imap f (imap g l) = imap (fun i x => f i (g i x)) l.
Proof.
  apply list_eq. intros i. rewrite !list_lookup_imap.
  destruct (l !! i); reflexivity.
Qed.

Lemma bind_Some {A B} (x : A) (f : A -> option B) : (Some x ≫= f) = f x.
Proof. reflexivity. Qed.

Lemma item_lookup (a : list string) (i : nat) (x : string) :
  a !! i = Some x -> item a i = x.
Proof. intros H. unfold item. now apply nth_lookup_Some. Qed.

(** ** Stage 1, slot by slot *)

Definition MMT_prefixes : list string := ["S."; "A."; "D."; "1."; "2."; "3."; "4."].

(** The raw strings stage 1 takes for a single MMT detection. *)
Definition MMT_pattern (raw : string) : bool :=
  (String.length raw =? 6)%nat && existsb (fun p => p =? slice 0 2 raw) MMT_prefixes.

(** What stage 1 leaves in a slot whose raw string is [raw]. *)
Definition decode_MMT (raw : string) : string :=
  if raw =? "N/A" then "N/A"
  else if MMT_pattern raw then np_S 5 raw
  else "not_MMT".

Lemma MMT_pattern_not_placeholder (raw : string) :
  MMT_pattern raw = true -> (np_S 5 raw =? "x.xxx") = false.
Proof.
  unfold MMT_pattern. intros [_ H]%andb_prop.
  apply existsb_exists in H as (p & Hp & Heq).
  apply String.eqb_eq in Heq. apply String.eqb_neq.
  destruct raw as [|c0 [|c1 raw]];
    [simpl in Hp; subst p; intuition discriminate ..|].
  unfold slice in Heq. simpl in Heq. subst p.
  assert (Hc : c0 <> nul /\ c0 <> "x"%char).
  { simpl in Hp.
    repeat (destruct Hp as [Hp|Hp]; [inversion Hp; subst; split; discriminate|]).
    destruct Hp. }
  destruct Hc as [Hn Hx]. unfold np_S.
  change (substring 0 5 (String c0 (String c1 raw)))
    with (String c0 (substring 0 4 (String c1 raw))).
  rewrite rstrip_nul_cons by exact Hn. intros E. inversion E. contradiction.
Qed.

Lemma rstrip_nul_idem (s : string) : rstrip_nul (rstrip_nul s) = rstrip_nul s.
Proof.
  induction s as [|c s IH]; [reflexivity|].
  simpl. destruct (rstrip_nul s) as [|d r] eqn:Hr.
  - destruct (Ascii.eqb c nul) eqn:Hc; [reflexivity|]. simpl. now rewrite Hc.
  - change (rstrip_nul (String c (String d r)))
      with (match rstrip_nul (String d r) with
            | EmptyString => if Ascii.eqb c nul then EmptyString else String c EmptyString
            | r' => String c r'
            end).
    now rewrite IH.
Qed.

Lemma rstrip_nul_length (s : string) :
  (String.length (rstrip_nul s) <= String.length s)%nat.
Proof.
  induction s as [|c s IH]; simpl; [lia|].
  destruct (rstrip_nul s); [destruct (Ascii.eqb c nul)|]; simpl in *; lia.
Qed.

Lemma np_S_length (w : nat) (s : string) : (String.length (np_S w s) <= w)%nat.
Proof.
  unfold np_S. etransitivity; [apply rstrip_nul_length|apply length_substring_le].
Qed.

(** Copying a cell into a wider cell does not change what is read. *)
Lemma np_S_widen (w1 w2 : nat) (s : string) :
  (w1 <= w2)%nat -> np_S w2 (np_S w1 s) = np_S w1 s.
Proof.
  intros H. unfold np_S at 1.
  rewrite substring_all by (pose proof (np_S_length w1 s); lia).
  unfold np_S. apply rstrip_nul_idem.
Qed.

Lemma list_lookup_map {A B} (f : A -> B) (l : list A) (i : nat) :
  map f l !! i = f <$> l !! i.
Proof.
  revert i. induction l as [|x l IH]; intros [|i]; simpl; try reflexivity. apply IH.
Qed.

(** What the cell of the five-character array holds after the eight
    copies of stage 1. *)
Definition cell_MMT (raw : string) : string :=
  if raw =? "N/A" then np_S 5 raw
  else if MMT_pattern raw then np_S 5 raw
  else "x.xxx".

(** The two index arrays of stage 1 that are built without [dtype]
    select something: some raw string is ["N/A"], and some raw string is
    neither ["N/A"] nor a single MMT detection. *)
Definition MMT_populated (slit_str0 : list string) : bool :=
  existsb (fun raw => raw =? "N/A") slit_str0
  && existsb (fun raw => negb (raw =? "N/A") && negb (MMT_pattern raw)) slit_str0.

Lemma cell_MMT_placeholder (raw : string) :
  (cell_MMT raw =? "x.xxx") = negb (raw =? "N/A") && negb (MMT_pattern raw).
Proof.
  unfold cell_MMT. destruct (String.eqb_spec raw "N/A") as [->|_]; [reflexivity|].
  destruct (MMT_pattern raw) eqn:E; [|reflexivity].
  now apply MMT_pattern_not_placeholder.
Qed.

(** Stage 1 leaves a cell untouched somewhere exactly when some raw
    string is neither ["N/A"] nor an MMT detection. *)
Lemma untouched_cell_exists (slit_str0 : list string) :
  existsb (fun c : string => c =? "x.xxx") (map cell_MMT slit_str0)
  = existsb (fun raw => negb (raw =? "N/A") && negb (MMT_pattern raw)) slit_str0.
Proof.
  induction slit_str0 as [|raw l IH]; cbn [existsb map]; [reflexivity|].
  now rewrite cell_MMT_placeholder, IH.
Qed.

Lemma decode_MMT_cell (raw : string) :
  (if cell_MMT raw =? "x.xxx" then np_S 20 "not_MMT" else np_S 20 (cell_MMT raw))
  = decode_MMT raw.
Proof.
  rewrite cell_MMT_placeholder. unfold cell_MMT, decode_MMT.
  destruct (String.eqb_spec raw "N/A") as [->|_]; [reflexivity|].
  destruct (MMT_pattern raw); [|reflexivity].
  cbn [negb andb]. apply np_S_widen. lia.
Qed.

Lemma MMT_copies (slit_str0 : list string) :
  imap (fun i x =>
          if MMT_guard "4." slit_str0 i then np_S 5 (item slit_str0 i)
          else if MMT_guard "3." slit_str0 i then np_S 5 (item slit_str0 i)
          else if MMT_guard "2." slit_str0 i then np_S 5 (item slit_str0 i)
          else if MMT_guard "1." slit_str0 i then np_S 5 (item slit_str0 i)
          else if MMT_guard "D." slit_str0 i then np_S 5 (item slit_str0 i)
          else if MMT_guard "A." slit_str0 i then np_S 5 (item slit_str0 i)
          else if MMT_guard "S." slit_str0 i then np_S 5 (item slit_str0 i)
          else if item slit_str0 i =? "N/A" then np_S 5 (item slit_str0 i)
          else x)
       (replicate (length slit_str0) "x.xxx")
  = map cell_MMT slit_str0.
Proof.
  apply list_eq. intros i. rewrite list_lookup_imap, list_lookup_map.
  destruct (slit_str0 !! i) as [raw|] eqn:Hraw.
  - assert (Hi : (i < length slit_str0)%nat) by (eapply lookup_lt_Some; eauto).
    rewrite lookup_replicate_2 by exact Hi.
    cbn [fmap option_fmap option_map]. f_equal.
    unfold MMT_guard. rewrite (item_lookup _ _ _ Hraw).
    unfold cell_MMT, MMT_pattern, MMT_prefixes. cbn [existsb].
    destruct (String.eqb_spec raw "N/A") as [->|Hna]; [reflexivity|].
    destruct (String.length raw =? 6)%nat; cbn [andb];
      [|repeat rewrite andb_false_r; reflexivity].
    rewrite !andb_true_r.
    destruct ("S." =? slice 0 2 raw); destruct ("A." =? slice 0 2 raw);
      destruct ("D." =? slice 0 2 raw); destruct ("1." =? slice 0 2 raw);
      destruct ("2." =? slice 0 2 raw); destruct ("3." =? slice 0 2 raw);
      destruct ("4." =? slice 0 2 raw); reflexivity.
  - apply lookup_ge_None in Hraw.
    rewrite (proj1 (lookup_replicate_None _ _ _) Hraw). reflexivity.
Qed.

(** Stage 1 as a whole: it returns when its two untyped index arrays
    select something, and raises otherwise. *)
Lemma make_AP_arr_MMT_run (slit_str0 : list string) :
  make_AP_arr_MMT slit_str0
  = if MMT_populated slit_str0 then Some (map decode_MMT slit_str0) else None.
Proof.
  unfold make_AP_arr_MMT, MMT_populated. cbv zeta.
  untyped slit_str0 (fun raw : string => raw =? "N/A").
  destruct (existsb (fun raw => raw =? "N/A") slit_str0); [|reflexivity].
  rewrite bind_Some. cbn [andb].
  repeat (rewrite copy_at_mask
            by (rewrite ?length_imap, ?length_replicate; reflexivity);
          rewrite bind_Some).
  rewrite !imap_imap, MMT_copies.
  untyped (map cell_MMT slit_str0) (fun c : string => c =? "x.xxx").
  rewrite untouched_cell_exists.
  destruct (existsb _ slit_str0); [|reflexivity].
  rewrite bind_Some, put_scalar_S_mask by (now rewrite !length_map).
  f_equal. apply list_eq. intros i.
  rewrite list_lookup_imap, !list_lookup_map.
  destruct (slit_str0 !! i) as [raw|] eqn:Hraw; [|reflexivity].
  cbn [fmap option_fmap option_map]. f_equal.
  assert (Hc : map cell_MMT slit_str0 !! i = Some (cell_MMT raw))
    by (now rewrite list_lookup_map, Hraw).
  rewrite (item_lookup _ _ _ Hc). apply decode_MMT_cell.
Qed.

Lemma make_AP_arr_MMT_Some (slit_str0 AP : list string) :
  make_AP_arr_MMT slit_str0 = Some AP ->
  MMT_populated slit_str0 = true /\ AP = map decode_MMT slit_str0.
Proof.
  rewrite make_AP_arr_MMT_run. destruct (MMT_populated slit_str0); [|discriminate].
  intros [= <-]. auto.
Qed.

(** ** Stages 2 to 4, slot by slot *)

(** The guards of the comprehensions, as predicates on one raw string,
    named after the comments of the source. *)
Definition is_Keck (s : string) : bool :=
  (String.length s =? 7)%nat && negb (str_in "f" s) && negb ("08." =? slice 0 3 s).
Definition is_Keck_invalid (s : string) : bool :=
  (String.length s =? 7)%nat && negb (str_in "f" s) && ("08." =? slice 0 3 s).
Definition is_KeckKeck_invalid (s : string) : bool :=
  (String.length s =? 14)%nat && negb (str_in "f" s)
  && ("08." =? slice 7 10 s) && ("08." =? slice 0 3 s).
Definition is_KeckKeck_second (s : string) : bool :=
  (String.length s =? 14)%nat && negb (str_in "f" s)
  && ("08." =? slice 0 3 s) && negb ("08." =? slice 7 10 s).

Definition is_merged (s : string) : bool :=
  (String.length s =? 13)%nat && char_is "," 5 s
  && negb (str_in "f" s) && negb ("08." =? slice 6 9 s).
Definition is_MMT_Keck_invalid (s : string) : bool :=
  (String.length s =? 13)%nat && char_is "," 5 s
  && negb (str_in "f" s) && ("08." =? slice 6 9 s).
Definition is_merged_FOCAS (s : string) : bool :=
  (13 <? String.length s)%nat && char_is "f" 13 s
  && negb (str_in "08." (slice 0 13 s)).

Definition is_FOCAS (s : string) : bool :=
  char_is "f" 0 s && (String.length s =? 7)%nat.
Definition is_FOCAS3 (s : string) : bool :=
  (String.length s =? 21)%nat && char_is "f" 0 s && char_is "f" 7 s && char_is "f" 14 s.
Definition is_FOCAS2 (s : string) : bool :=
  (String.length s =? 14)%nat && char_is "f" 0 s && char_is "f" 7 s.
Definition is_MMT_FOCAS (s : string) : bool :=
  (String.length s =? 13)%nat && char_is "f" 6 s.
Definition is_Keck_FOCAS (s : string) : bool :=
  (String.length s =? 14)%nat && char_is "f" 7 s && negb (str_in "f" (slice 0 6 s)).
Definition is_KeckKeck_FOCAS (s : string) : bool :=
  (String.length s =? 21)%nat && char_is "f" 14 s
  && negb (str_in "f" (slice 0 13 s)) && ("08." =? slice 0 3 s).
Definition is_Keck_FOCAS2 (s : string) : bool :=
  (String.length s =? 21)%nat && negb (str_in "f" (slice 0 6 s))
  && char_is "f" 7 s && char_is "f" 14 s.

(** What each stage leaves in a slot that held [x] and whose raw string
    is [raw]: the assignments of the stage, in order. *)
Definition decode_DEIMOS (raw x : string) : string :=
  let x := if is_Keck raw then np_S 20 raw else x in
  let x := if is_Keck raw then np_S 20 (slice 0 6 x) else x in
  let x := if is_Keck_invalid raw then np_S 20 "INVALID_KECK" else x in
  let x := if is_KeckKeck_invalid raw then np_S 20 "INVALID_KECK" else x in
  let x := if is_KeckKeck_second raw then np_S 20 raw else x in
  if is_KeckKeck_second raw then np_S 20 (slice 7 13 x) else x.

Definition decode_merged (raw x : string) : string :=
  let x := if is_merged raw then np_S 20 raw else x in
  let x := if is_merged raw then np_S 20 (slice 0 12 x) else x in
  let x := if is_MMT_Keck_invalid raw then np_S 20 raw else x in
  let x := if is_MMT_Keck_invalid raw then np_S 20 (slice 0 5 x) else x in
  let x := if is_merged_FOCAS raw then np_S 20 raw else x in
  if is_merged_FOCAS raw then np_S 20 (slice 0 12 x) else x.

Definition decode_FOCAS (raw x : string) : string :=
  let x := if is_FOCAS raw then np_S 20 "FOCAS" else x in
  let x := if is_FOCAS3 raw then np_S 20 "FOCAS" else x in
  let x := if is_FOCAS2 raw then np_S 20 "FOCAS" else x in
  let x := if is_MMT_FOCAS raw then np_S 20 raw else x in
  let x := if is_MMT_FOCAS raw then np_S 20 (slice 0 5 x) else x in
  let x := if is_Keck_FOCAS raw then np_S 20 raw else x in
  let x := if is_Keck_FOCAS raw then np_S 20 (slice 0 6 x) else x in
  let x := if is_KeckKeck_FOCAS raw then np_S 20 raw else x in
  let x := if is_KeckKeck_FOCAS raw then np_S 20 (slice 7 13 x) else x in
  let x := if is_Keck_FOCAS2 raw then np_S 20 raw else x in
  if is_Keck_FOCAS2 raw then np_S 20 (slice 0 6 x) else x.

Ltac masks :=
  repeat (first [ rewrite copy_at_mask by (rewrite ?length_imap; assumption)
                | rewrite rewrite_at_mask by (rewrite ?length_imap; assumption)
                | rewrite put_scalar_S_mask by (rewrite ?length_imap; assumption) ];
          rewrite ?bind_Some).

(** The index arrays of a stage that are built without [dtype] all
    select something. *)
Definition DEIMOS_populated (slit_str0 : list string) : bool :=
  existsb is_Keck slit_str0 && existsb is_Keck_invalid slit_str0
  && existsb is_KeckKeck_invalid slit_str0 && existsb is_KeckKeck_second slit_str0.

Definition merged_populated (slit_str0 : list string) : bool :=
  existsb is_merged slit_str0 && existsb is_MMT_Keck_invalid slit_str0.

Definition FOCAS_populated (slit_str0 : list string) : bool :=
  existsb is_FOCAS3 slit_str0 && existsb is_FOCAS2 slit_str0
  && existsb is_MMT_FOCAS slit_str0 && existsb is_Keck_FOCAS slit_str0
  && existsb is_KeckKeck_FOCAS slit_str0 && existsb is_Keck_FOCAS2 slit_str0.

(** One untyped index array of a stage: the stage raises when it is
    empty and goes on with the assignments that use it otherwise. *)
Ltac stage_step l g :=
  untyped l g;
  destruct (existsb g l); [rewrite bind_Some; cbn [andb]; masks|reflexivity].

(** Stage 2 as a whole. *)
Lemma make_AP_arr_DEIMOS_run (AP slit_str0 : list string) :
  length AP = length slit_str0 ->
  make_AP_arr_DEIMOS AP slit_str0
  = if DEIMOS_populated slit_str0
    then Some (imap (fun i x => decode_DEIMOS (item slit_str0 i) x) AP)
    else None.
Proof.
  intros Hlen. unfold make_AP_arr_DEIMOS, DEIMOS_populated. cbv zeta.
  assert (Hs : length slit_str0 = length slit_str0) by reflexivity.
  stage_step slit_str0 is_Keck.
  stage_step slit_str0 is_Keck_invalid.
  stage_step slit_str0 is_KeckKeck_invalid.
  stage_step slit_str0 is_KeckKeck_second.
  rewrite !imap_imap. reflexivity.
Qed.

(** Stage 3 as a whole. *)
Lemma make_AP_arr_merged_run (AP slit_str0 : list string) :
  length AP = length slit_str0 ->
  make_AP_arr_merged AP slit_str0
  = if merged_populated slit_str0
    then Some (imap (fun i x => decode_merged (item slit_str0 i) x) AP)
    else None.
Proof.
  intros Hlen. unfold make_AP_arr_merged, merged_populated. cbv zeta.
  assert (Hs : length slit_str0 = length slit_str0) by reflexivity.
  stage_step slit_str0 is_merged.
  stage_step slit_str0 is_MMT_Keck_invalid.
  rewrite !imap_imap. reflexivity.
Qed.

Lemma make_AP_arr_DEIMOS_Some (AP slit_str0 AP' : list string) :
  length AP = length slit_str0 ->
  make_AP_arr_DEIMOS AP slit_str0 = Some AP' ->
  DEIMOS_populated slit_str0 = true
  /\ AP' = imap (fun i x => decode_DEIMOS (item slit_str0 i) x) AP.
Proof.
  intros Hlen. rewrite make_AP_arr_DEIMOS_run by exact Hlen.
  destruct (DEIMOS_populated slit_str0); [|discriminate]. intros [= <-]. auto.
Qed.

Lemma make_AP_arr_merged_Some (AP slit_str0 AP' : list string) :
  length AP = length slit_str0 ->
  make_AP_arr_merged AP slit_str0 = Some AP' ->
  merged_populated slit_str0 = true
  /\ AP' = imap (fun i x => decode_merged (item slit_str0 i) x) AP.
Proof.
  intros Hlen. rewrite make_AP_arr_merged_run by exact Hlen.
  destruct (merged_populated slit_str0); [|discriminate]. intros [= <-]. auto.
Qed.

Lemma filter_exc_total (P : nat -> option bool) (Q : nat -> bool) (l : list nat) :
  (forall x, x ∈ l -> P x = Some (Q x)) -> filter_exc P l = Some (List.filter Q l).
Proof.
  induction l as [|x l IH]; intros H; [reflexivity|].
  simpl. rewrite (H x) by left. rewrite bind_Some.
  rewrite IH by (intros y Hy; apply H; now right).
  rewrite bind_Some. reflexivity.
Qed.

Lemma filter_exc_raises (P : nat -> option bool) (l : list nat) (x : nat) :
  x ∈ l -> P x = None -> filter_exc P l = None.
Proof.
  induction l as [|y l IH]; intros Hx HP; [inversion Hx|].
  simpl. apply elem_of_cons in Hx as [->|Hx].
  - now rewrite HP.
  - destruct (P y); [|reflexivity]. rewrite bind_Some.
    now rewrite IH.
Qed.

(** Stage 4 as a whole, on an array without an empty raw string. *)
Lemma make_AP_arr_FOCAS_run (AP slit_str0 : list string) :
  length AP = length slit_str0 ->
  Forall (fun raw => raw <> EmptyString) slit_str0 ->
  make_AP_arr_FOCAS AP slit_str0
  = if FOCAS_populated slit_str0
    then Some (imap (fun i x => decode_FOCAS (item slit_str0 i) x) AP)
    else None.
Proof.
  intros Hlen Hne. unfold make_AP_arr_FOCAS, FOCAS_populated. cbv zeta.
  rewrite (filter_exc_total _ (fun x => is_FOCAS (item slit_str0 x))).
  - rewrite bind_Some. fold (index_where (length slit_str0)
                               (fun x => is_FOCAS (item slit_str0 x))).
    assert (Hs : length slit_str0 = length slit_str0) by reflexivity.
    masks.
    stage_step slit_str0 is_FOCAS3.
    stage_step slit_str0 is_FOCAS2.
    stage_step slit_str0 is_MMT_FOCAS.
    stage_step slit_str0 is_Keck_FOCAS.
    stage_step slit_str0 is_KeckKeck_FOCAS.
    stage_step slit_str0 is_Keck_FOCAS2.
    rewrite !imap_imap. reflexivity.
  - intros x Hx. apply list_elem_of_In, in_seq in Hx.
    assert (Hraw : slit_str0 !! x = Some (item slit_str0 x))
      by (apply lookup_nth; lia).
    rewrite Forall_lookup in Hne. specialize (Hne _ _ Hraw).
    unfold is_FOCAS, char_is.
    destruct (item slit_str0 x) as [|c r]; [contradiction|reflexivity].
Qed.

(** An empty raw string anywhere in the array makes stage 4 raise. *)
Lemma make_AP_arr_FOCAS_raises (AP slit_str0 : list string) :
  EmptyString ∈ slit_str0 -> make_AP_arr_FOCAS AP slit_str0 = None.
Proof.
  intros [i Hi]%list_elem_of_lookup. unfold make_AP_arr_FOCAS. cbv zeta.
  rewrite (filter_exc_raises _ _ i); [reflexivity| |].
  - apply list_elem_of_In, in_seq. apply lookup_lt_Some in Hi. lia.
  - now rewrite (item_lookup _ _ _ Hi).
Qed.

Lemma make_AP_arr_FOCAS_Some (AP slit_str0 AP' : list string) :
  length AP = length slit_str0 ->
  make_AP_arr_FOCAS AP slit_str0 = Some AP' ->
  Forall (fun raw => raw <> EmptyString) slit_str0
  /\ FOCAS_populated slit_str0 = true
  /\ AP' = imap (fun i x => decode_FOCAS (item slit_str0 i) x) AP.
Proof.
  intros Hlen H.
  assert (Hne : Forall (fun raw => raw <> EmptyString) slit_str0).
  { apply Forall_forall. intros raw Hin ->.
    rewrite make_AP_arr_FOCAS_raises in H by exact Hin. discriminate. }
  split; [exact Hne|].
  rewrite make_AP_arr_FOCAS_run in H by assumption.
  destruct (FOCAS_populated slit_str0); [|discriminate].
  injection H as <-. auto.
Qed.

(** The four stages together, slot by slot. *)
Definition decode (raw : string) : string :=
  decode_FOCAS raw (decode_merged raw (decode_DEIMOS raw (decode_MMT raw))).

(** Every index array of the four stages that is built without [dtype]
    selects something: the master list holds a raw string of each of the
    fourteen shapes that these arrays look for. *)
Definition populated (slit_str0 : list string) : bool :=
  MMT_populated slit_str0 && DEIMOS_populated slit_str0
  && merged_populated slit_str0 && FOCAS_populated slit_str0.

Lemma decoded_slots (slit_str0 : list string) :
  imap (fun i x => decode_FOCAS (item slit_str0 i) x)
    (imap (fun i x => decode_merged (item slit_str0 i) x)
       (imap (fun i x => decode_DEIMOS (item slit_str0 i) x)
          (map decode_MMT slit_str0)))
  = map decode slit_str0.
Proof.
  rewrite !imap_imap. apply list_eq. intros i.
  rewrite list_lookup_imap, !list_lookup_map.
  destruct (slit_str0 !! i) as [raw|] eqn:Hraw; [|reflexivity].
  cbn [fmap option_fmap option_map]. now rewrite (item_lookup _ _ _ Hraw).
Qed.

(** The key builder as a whole, on an array without an empty raw
    string. *)
Lemma ordered_AP_run (slit_str0 : list string) :
  Forall (fun raw => raw <> EmptyString) slit_str0 ->
  ordered_AP slit_str0
  = if populated slit_str0 then Some (map decode slit_str0) else None.
Proof.
  intros Hne. unfold ordered_AP, populated.
  rewrite make_AP_arr_MMT_run.
  destruct (MMT_populated slit_str0); [|reflexivity].
  rewrite bind_Some, make_AP_arr_DEIMOS_run by apply length_map.
  destruct (DEIMOS_populated slit_str0); [|reflexivity].
  rewrite bind_Some, make_AP_arr_merged_run
    by (now rewrite length_imap, length_map).
  destruct (merged_populated slit_str0); [|reflexivity].
  rewrite bind_Some, make_AP_arr_FOCAS_run
    by (rewrite ?length_imap, ?length_map; auto).
  destruct (FOCAS_populated slit_str0); [|reflexivity].
  cbn [andb]. f_equal. apply decoded_slots.
Qed.

Lemma ordered_AP_raises (slit_str0 : list string) :
  EmptyString ∈ slit_str0 -> ordered_AP slit_str0 = None.
Proof.
  intros He. unfold ordered_AP.
  destruct (make_AP_arr_MMT slit_str0) as [AP0|]; [|reflexivity].
  rewrite bind_Some.
  destruct (make_AP_arr_DEIMOS AP0 slit_str0) as [AP1|]; [|reflexivity].
  rewrite bind_Some.
  destruct (make_AP_arr_merged AP1 slit_str0) as [AP2|]; [|reflexivity].
  rewrite bind_Some. now apply make_AP_arr_FOCAS_raises.
Qed.

Lemma ordered_AP_Some (slit_str0 AP : list string) :
  ordered_AP slit_str0 = Some AP ->
  Forall (fun raw => raw <> EmptyString) slit_str0 /\ AP = map decode slit_str0.
Proof.
  intros H.
  assert (Hne : Forall (fun raw => raw <> EmptyString) slit_str0).
  { apply Forall_forall. intros raw Hin ->.
    rewrite ordered_AP_raises in H by exact Hin. discriminate. }
  split; [exact Hne|]. rewrite ordered_AP_run in H by exact Hne.
  destruct (populated slit_str0); [|discriminate]. congruence.
Qed.

Lemma ordered_AP_populated (slit_str0 AP : list string) :
  ordered_AP slit_str0 = Some AP -> populated slit_str0 = true.
Proof.
  intros H. pose proof (ordered_AP_Some _ _ H) as [Hne _].
  rewrite ordered_AP_run in H by exact Hne.
  now destruct (populated slit_str0).
Qed.

Lemma eqb_ne (s t : string) : t <> s -> (s =? t) = false.
Proof. intros H. apply String.eqb_neq. congruence. Qed.

Lemma eqb_same (s t : string) : t = s -> (s =? t) = true.
Proof. intros ->. apply String.eqb_refl. Qed.

(** Reading back a slice that was cut out of a stored raw string. *)
Lemma stored_slice (a b : nat) (raw : string) :
  nul_free raw = true -> (a <= b)%nat -> (b <= 20)%nat ->
  np_S 20 (slice a b (np_S 20 raw)) = slice a b raw.
Proof.
  intros Hn Hab Hb. rewrite slice_np_S by assumption.
  apply np_S_fits; [now apply nul_free_slice|].
  pose proof (length_slice_le a b raw). lia.
Qed.

Ltac guards :=
  unfold decode_DEIMOS, decode_merged, decode_FOCAS,
    is_Keck, is_Keck_invalid, is_KeckKeck_invalid, is_KeckKeck_second,
    is_merged, is_MMT_Keck_invalid, is_merged_FOCAS,
    is_FOCAS, is_FOCAS3, is_FOCAS2, is_MMT_FOCAS, is_Keck_FOCAS,
    is_KeckKeck_FOCAS, is_Keck_FOCAS2.

Ltac settle :=
  cbn [Nat.eqb Nat.ltb Nat.leb andb negb orb];
  rewrite ?andb_false_r; cbn [andb negb orb];
  first [ reflexivity
        | f_equal; rewrite stored_slice by (first [assumption | lia]); reflexivity ].

(** * The claims *)

(** C1, as stated, fails: the array that stage 1 fills is created with
    five-character cells, so a six-character MMT string loses its last
    character. In a master list on which stage 1 returns, the raw string
    ["S.1234"] gives the key ["S.123"]. *)
Lemma make_AP_arr_MMT_not_verbatim :
  make_AP_arr_MMT ["N/A"; "S.1234"; "f12345,"] = Some ["N/A"; "S.123"; "not_MMT"]
  /\ ["N/A"; "S.123"; "not_MMT"] !! 1%nat <> Some "S.1234".
Proof. split; [reflexivity|discriminate]. Qed.

(** C1 (amended). Whenever stage 1 returns, the array it returns has
    the length of the raw-string array; a slot whose raw string is
    ["N/A"] holds it verbatim; a slot whose raw string has six
    characters and starts with one of [S. A. D. 1. 2. 3. 4.] holds its
    first five characters; every other slot holds ["not_MMT"]. *)
Theorem make_AP_arr_MMT_decodes (slit_str0 AP : list string) :
  make_AP_arr_MMT slit_str0 = Some AP ->
  length AP = length slit_str0
  /\ forall i raw,
       slit_str0 !! i = Some raw -> nul_free raw = true ->
       AP !! i = Some (if raw =? "N/A" then raw
                       else if MMT_pattern raw then slice 0 5 raw
                       else "not_MMT").
Proof.
  intros [_ ->]%make_AP_arr_MMT_Some. split; [apply length_map|].
  intros i raw Hraw Hn. rewrite list_lookup_map, Hraw.
  cbn [fmap option_fmap option_map]. f_equal. unfold decode_MMT.
  destruct (String.eqb_spec raw "N/A") as [->|_]; [reflexivity|].
  destruct (MMT_pattern raw); [|reflexivity].
  now apply np_S_nul_free.
Qed.

Lemma make_AP_arr_MMT_decodes_witness :
  ["N/A"; "S.123"; "not_MMT"] !! 0%nat = Some "N/A"
  /\ ["N/A"; "S.123"; "not_MMT"] !! 1%nat = Some "S.123"
  /\ ["N/A"; "S.123"; "not_MMT"] !! 2%nat = Some "not_MMT".
Proof.
  destruct (make_AP_arr_MMT_decodes ["N/A"; "S.1234"; "f12345,"]
              ["N/A"; "S.123"; "not_MMT"] eq_refl) as (_ & Hslot).
  split; [exact (Hslot 0%nat "N/A" eq_refl eq_refl)|].
  split; [exact (Hslot 1%nat "S.1234" eq_refl eq_refl)|].
  exact (Hslot 2%nat "f12345," eq_refl eq_refl).
Defined.




Lemma char_is_get (c : ascii) (k : nat) (s : string) :
  String.get k s = Some c -> char_is c k s = true.
Proof. intros H. unfold char_is. rewrite H. apply Ascii.eqb_refl. Qed.

Lemma prefix_empty (s : string) : String.prefix EmptyString s = true.
Proof. destruct s; reflexivity. Qed.

Lemma get_str_in_prefix (c : ascii) (k b : nat) (s : string) :
  String.get k s = Some c -> (k < b)%nat ->
  str_in (String c EmptyString) (slice 0 b s) = true.
Proof.
  unfold slice. rewrite Nat.sub_0_r. revert k b.
  induction s as [|d s IH]; intros k b Hget Hk; [destruct k; discriminate|].
  destruct b as [|b]; [lia|].
  change (substring 0 (S b) (String d s)) with (String d (substring 0 b s)).
  destruct k as [|k].
  - simpl in Hget. injection Hget as ->. simpl.
    destruct (ascii_dec c c); [|contradiction].
    now rewrite prefix_empty.
  - simpl in Hget. cbn [str_in]. rewrite (IH k b Hget) by lia.
    apply orb_true_r.
Qed.

Lemma no_char_in_prefix (c : ascii) (k b : nat) (s : string) :
  str_in (String c EmptyString) (slice 0 b s) = false -> (k < b)%nat ->
  char_is c k s = false.
Proof.
  intros Hno Hk. unfold char_is.
  destruct (String.get k s) as [d|] eqn:Hget; [|reflexivity].
  destruct (Ascii.eqb_spec c d) as [->|]; [|reflexivity].
  rewrite (get_str_in_prefix d k b s Hget Hk) in Hno. discriminate.
Qed.

(** C7. Stage 3, whenever it returns: thirteen characters with [","]
    at index 5 and no marker ["f"] give the first twelve characters when
    the instrument-2 part does not start with ["08."], and the first
    five when it does; more than thirteen characters with ["f"] at index
    13 and no ["08."] in the first thirteen give the first twelve
    characters. *)
Theorem make_AP_arr_merged_decodes (AP slit_str0 AP' : list string) :
  length AP = length slit_str0 ->
  make_AP_arr_merged AP slit_str0 = Some AP' ->
  length AP' = length slit_str0
  /\ forall i raw,
       slit_str0 !! i = Some raw -> nul_free raw = true ->
       (String.length raw = 13%nat -> String.get 5 raw = Some ","%char ->
        str_in "f" raw = false -> slice 6 9 raw <> "08." ->
        AP' !! i = Some (slice 0 12 raw))
       /\ (String.length raw = 13%nat -> String.get 5 raw = Some ","%char ->
           str_in "f" raw = false -> slice 6 9 raw = "08." ->
           AP' !! i = Some (slice 0 5 raw))
       /\ ((13 < String.length raw)%nat -> String.get 13 raw = Some "f"%char ->
           str_in "08." (slice 0 13 raw) = false ->
           AP' !! i = Some (slice 0 12 raw)).
Proof.
  intros Hlen H. apply make_AP_arr_merged_Some in H as [_ ->]; [|exact Hlen].
  split; [now rewrite length_imap|].
  intros i raw Hraw Hn.
  destruct (lookup_lt_is_Some_2 AP i) as [x Hx];
    [apply lookup_lt_Some in Hraw; lia|].
  rewrite list_lookup_imap, Hx. cbn [fmap option_fmap option_map].
  rewrite (item_lookup _ _ _ Hraw). guards.
  repeat split.
  - intros Hl Hc%char_is_get Hf H6%eqb_ne. rewrite Hl, Hc, Hf, H6. settle.
  - intros Hl Hc%char_is_get Hf H6%eqb_same. rewrite Hl, Hc, Hf, H6. settle.
  - intros Hl Hc%char_is_get H08.
    assert (H13 : (String.length raw =? 13)%nat = false) by (apply Nat.eqb_neq; lia).
    assert (Hlt : (13 <? String.length raw)%nat = true) by (now apply Nat.ltb_lt).
    rewrite H13, Hlt, Hc, H08. settle.
Qed.

Lemma make_AP_arr_merged_decodes_witness :
  ["S.123,12.345"; "S.123"; "S.123,12.345"] !! 0%nat = Some "S.123,12.345"
  /\ ["S.123,12.345"; "S.123"; "S.123,12.345"] !! 1%nat = Some "S.123"
  /\ ["S.123,12.345"; "S.123"; "S.123,12.345"] !! 2%nat = Some "S.123,12.345".
Proof.
  destruct (make_AP_arr_merged_decodes
              ["not_MMT"; "not_MMT"; "not_MMT"]
              ["S.123,12.345,"; "S.123,08.345,"; "S.123,12.345,f12345,"]
              ["S.123,12.345"; "S.123"; "S.123,12.345"] eq_refl eq_refl)
    as (_ & Hslot).
  destruct (Hslot 0%nat "S.123,12.345," eq_refl eq_refl) as (H0 & _).
  destruct (Hslot 1%nat "S.123,08.345," eq_refl eq_refl) as (_ & H1 & _).
  destruct (Hslot 2%nat "S.123,12.345,f12345," eq_refl eq_refl) as (_ & _ & H2).
  split; [apply H0; [reflexivity|reflexivity|reflexivity|discriminate]|].
  split; [apply H1; reflexivity|].
  apply H2; [simpl; lia|reflexivity|reflexivity].
Defined.

(** C8. Stage 4, whenever it returns: a raw string made of one, two or
    three low-confidence detections (length 7, 14 or 21 with ["f"] at
    offsets 0, 7 and 14 as far as they exist) gives ["FOCAS"]; a
    composite string keeps the code of the instrument detection: the
    first five characters (length 13, ["f"] at index 6), the first six
    (length 14, ["f"] at index 7 and not before; length 21, ["f"] at 7
    and 14 and not before), or the characters 7 to 12 (length 21, ["f"]
    at 14 and not before, first code starting with ["08."]). *)
Theorem make_AP_arr_FOCAS_decodes (AP slit_str0 AP' : list string) :
  length AP = length slit_str0 ->
  make_AP_arr_FOCAS AP slit_str0 = Some AP' ->
  length AP' = length slit_str0
  /\ forall i raw,
      slit_str0 !! i = Some raw -> nul_free raw = true ->
      (String.length raw = 7%nat -> String.get 0 raw = Some "f"%char ->
       AP' !! i = Some "FOCAS")
      /\ (String.length raw = 14%nat -> String.get 0 raw = Some "f"%char ->
          String.get 7 raw = Some "f"%char -> AP' !! i = Some "FOCAS")
      /\ (String.length raw = 21%nat -> String.get 0 raw = Some "f"%char ->
          String.get 7 raw = Some "f"%char -> String.get 14 raw = Some "f"%char ->
          AP' !! i = Some "FOCAS")
      /\ (String.length raw = 13%nat -> String.get 6 raw = Some "f"%char ->
          AP' !! i = Some (slice 0 5 raw))
      /\ (String.length raw = 14%nat -> String.get 7 raw = Some "f"%char ->
          str_in "f" (slice 0 6 raw) = false ->
          AP' !! i = Some (slice 0 6 raw))
      /\ (String.length raw = 21%nat -> String.get 14 raw = Some "f"%char ->
          str_in "f" (slice 0 13 raw) = false -> slice 0 3 raw = "08." ->
          AP' !! i = Some (slice 7 13 raw))
      /\ (String.length raw = 21%nat -> str_in "f" (slice 0 6 raw) = false ->
          String.get 7 raw = Some "f"%char -> String.get 14 raw = Some "f"%char ->
          AP' !! i = Some (slice 0 6 raw)).
Proof.
  intros Hlen H. apply make_AP_arr_FOCAS_Some in H as (_ & _ & ->); [|exact Hlen].
  split; [now rewrite length_imap|].
  intros i raw Hraw Hn.
  destruct (lookup_lt_is_Some_2 AP i) as [x Hx];
    [apply lookup_lt_Some in Hraw; lia|].
  rewrite list_lookup_imap, Hx. cbn [fmap option_fmap option_map].
  rewrite (item_lookup _ _ _ Hraw). guards.
  repeat split.
  - intros Hl H0%char_is_get. rewrite Hl, H0. settle.
  - intros Hl H0 H7%char_is_get.
    pose proof (get_str_in_prefix _ 0 6 raw H0 ltac:(lia)) as H6.
    apply char_is_get in H0. rewrite Hl, H0, H7, H6. settle.
  - intros Hl H0 H7%char_is_get H14%char_is_get.
    pose proof (get_str_in_prefix _ 0 6 raw H0 ltac:(lia)) as H6.
    pose proof (get_str_in_prefix _ 0 13 raw H0 ltac:(lia)) as H13.
    apply char_is_get in H0. rewrite Hl, H0, H7, H14, H6, H13. settle.
  - intros Hl H6%char_is_get. rewrite Hl, H6. settle.
  - intros Hl H7%char_is_get H6.
    pose proof (no_char_in_prefix _ 0 6 raw H6 ltac:(lia)) as H0.
    rewrite Hl, H0, H7, H6. settle.
  - intros Hl H14%char_is_get H13 H08%eqb_same.
    pose proof (no_char_in_prefix _ 0 13 raw H13 ltac:(lia)) as H0.
    pose proof (no_char_in_prefix _ 7 13 raw H13 ltac:(lia)) as H7.
    rewrite Hl, H0, H7, H14, H13, H08. settle.
  - intros Hl H6 H7 H14%char_is_get.
    pose proof (no_char_in_prefix _ 0 6 raw H6 ltac:(lia)) as H0.
    pose proof (get_str_in_prefix _ 7 13 raw H7 ltac:(lia)) as H13.
    apply char_is_get in H7. rewrite Hl, H0, H7, H14, H6, H13. settle.
Qed.

Lemma make_AP_arr_FOCAS_decodes_witness :
  ["FOCAS"; "FOCAS"; "FOCAS"; "S.123"; "12.345"; "12.111"; "12.345"] !! 0%nat
  = Some "FOCAS"
  /\ ["FOCAS"; "FOCAS"; "FOCAS"; "S.123"; "12.345"; "12.111"; "12.345"] !! 3%nat
     = Some "S.123"
  /\ ["FOCAS"; "FOCAS"; "FOCAS"; "S.123"; "12.345"; "12.111"; "12.345"] !! 5%nat
     = Some "12.111".
Proof.
  destruct (make_AP_arr_FOCAS_decodes
      ["not_MMT"; "not_MMT"; "not_MMT"; "not_MMT"; "not_MMT"; "not_MMT"; "not_MMT"]
      ["f12345,"; "f12345,f11111,"; "f12345,f11111,f22222,"; "S.123,f12345,";
       "12.345,f12345,"; "08.345,12.111,f12345,"; "12.345,f12345,f11111,"]
      ["FOCAS"; "FOCAS"; "FOCAS"; "S.123"; "12.345"; "12.111"; "12.345"]
      eq_refl eq_refl)
    as (_ & Hslot).
  destruct (Hslot 0%nat "f12345," eq_refl eq_refl) as (H0 & _).
  destruct (Hslot 3%nat "S.123,f12345," eq_refl eq_refl) as (_ & _ & _ & H3 & _).
  destruct (Hslot 5%nat "08.345,12.111,f12345," eq_refl eq_refl)
    as (_ & _ & _ & _ & _ & H5 & _).
  split; [apply H0; reflexivity|].
  split; [apply H3; reflexivity|].
  apply H5; reflexivity.
Defined.

(** ** The placeholder in the returned array *)

(** Some guard of some stage accepts the raw string. *)
Definition matches_rule (raw : string) : bool :=
  (raw =? "N/A") || MMT_pattern raw
  || is_Keck raw || is_Keck_invalid raw || is_KeckKeck_invalid raw
  || is_KeckKeck_second raw
  || is_merged raw || is_MMT_Keck_invalid raw || is_merged_FOCAS raw
  || is_FOCAS raw || is_FOCAS3 raw || is_FOCAS2 raw || is_MMT_FOCAS raw
  || is_Keck_FOCAS raw || is_KeckKeck_FOCAS raw || is_Keck_FOCAS2 raw.

(** [result['AP']]. *)
Definition result_AP {V} (r : result V) : list string :=
  match r with
  | AP_dict AP => AP
  | full_dict o => o_AP o
  end.

(** A table without rows. *)
Definition no_rows {V} : line_fit V :=
  {| cat_AP := []; cat_LMIN0 := []; cat_LMAX0 := [];
     cat_NIIA_SNR := []; cat_NIIB_SNR := []; cat_HA_SNR := [];
     cat_HB_SNR := []; cat_HG_SNR := [];
     cat_NIIA_FLUX := []; cat_NIIB_FLUX := []; cat_HA_FLUX := [];
     cat_HB_FLUX := []; cat_HG_FLUX := [] |}.

Definition no_merged_rows {V} : merged_fit V :=
  {| mer_AP := [];
     mer_NIIA_SNR := []; mer_NIIB_SNR := []; mer_HA_SNR := [];
     mer_HB_SNR := []; mer_HG_SNR := [];
     mer_NIIA_FLUX := []; mer_NIIB_FLUX := []; mer_HA_FLUX := [];
     mer_HB_FLUX := []; mer_HG_FLUX := [] |}.

Lemma decode_no_rule (raw : string) :
  matches_rule raw = false -> decode raw = "not_MMT".
Proof.
  unfold matches_rule. intros H.
  repeat (apply orb_false_elim in H as [H ?]).
  unfold decode, decode_FOCAS, decode_merged, decode_DEIMOS, decode_MMT.
  repeat match goal with E : _ = false |- _ => rewrite E; clear E end.
  reflexivity.
Qed.

Lemma create_ordered_AP_arrays_AP {V} (sentinel : V)
      (MMTall MMTsingle DEIMOS DEIMOS00 : line_fit V) (merged : merged_fit V)
      (slit_str0 inst_str0 : list string) (AP_only : bool) (r : result V) :
  create_ordered_AP_arrays sentinel MMTall MMTsingle DEIMOS DEIMOS00 merged
                           slit_str0 inst_str0 AP_only = Some r ->
  ordered_AP slit_str0 = Some (result_AP r).
Proof.
  unfold create_ordered_AP_arrays. intros H.
  destruct (ordered_AP slit_str0) as [AP|]; [|discriminate].
  rewrite bind_Some in H.
  destruct (untyped_index_where _ _) as [merged_iis|]; [|discriminate].
  rewrite bind_Some in H.
  destruct (take AP _) as [AP_merged|]; [|discriminate].
  rewrite bind_Some in H.
  destruct AP_only; [injection H as <-; reflexivity|].
  destruct (single_LMIN0_LMAX0 _ _ _ _ _ _) as [[[[? ?] ?] ?]|]; [|discriminate].
  rewrite bind_Some in H.
  destruct (get_LMIN0_LMAX0_merged _ _ _ _ _ _ _ _ _ _ _ _ _ _ _ _ _ _)
    as [[[[? ?] ?] ?]|]; [|discriminate].
  rewrite bind_Some in H.
  destruct (ordered_SNR _ _ _ _ _ _ _) as [[[[[? ?] ?] ?] ?]|]; [|discriminate].
  rewrite bind_Some in H.
  destruct (ordered_FLUX _ _ _ _ _ _ _) as [[[[[? ?] ?] ?] ?]|]; [|discriminate].
  rewrite bind_Some in H.
  injection H as <-. reflexivity.
Qed.

(** C4, as stated, fails: no stage and no line of the driver looks for a
    surviving placeholder. The raw string ["abc"] of the last target
    matches no rule, and both kinds of run return with ["not_MMT"] as
    its key. *)
Lemma placeholder_survives_run :
  create_ordered_AP_arrays (-99)%Z no_rows no_rows no_rows no_rows no_merged_rows
                           demo_slit_str0 demo_inst_str0 true
  = Some (AP_dict demo_AP)
  /\ result_AP <$> create_ordered_AP_arrays (-99)%Z no_rows no_rows no_rows no_rows
                     no_merged_rows demo_slit_str0 demo_inst_str0 false
     = Some demo_AP
  /\ demo_slit_str0 !! 16%nat = Some "abc"
  /\ demo_AP !! 16%nat = Some "not_MMT".
Proof. repeat split. Qed.

(** C4 (amended). Placeholder survival is not an error: in every
    result that a run returns, with or without the value arrays, a slot
    whose raw string matches no rule of any stage holds ["not_MMT"]. *)
Theorem placeholder_is_returned {V} (sentinel : V)
        (MMTall MMTsingle DEIMOS DEIMOS00 : line_fit V) (merged : merged_fit V)
        (slit_str0 inst_str0 : list string) (AP_only : bool) (r : result V) :
  create_ordered_AP_arrays sentinel MMTall MMTsingle DEIMOS DEIMOS00 merged
                           slit_str0 inst_str0 AP_only = Some r ->
  forall i raw,
    slit_str0 !! i = Some raw -> matches_rule raw = false ->
    result_AP r !! i = Some "not_MMT".
Proof.
  intros Hr i raw Hraw Hno.
  apply create_ordered_AP_arrays_AP, ordered_AP_Some in Hr as [_ ->].
  rewrite list_lookup_map, Hraw. cbn [fmap option_fmap option_map].
  now rewrite decode_no_rule.
Qed.

Lemma placeholder_is_returned_witness :
  result_AP (AP_dict (V:=Z) demo_AP) !! 16%nat = Some "not_MMT".
Proof.
  exact (placeholder_is_returned (-99)%Z no_rows no_rows no_rows no_rows
           no_merged_rows demo_slit_str0 demo_inst_str0 true (AP_dict demo_AP)
           eq_refl 16%nat "abc" eq_refl eq_refl).
Defined.

(** ** The single-source join as a table operation *)

(** The join as the specification words it: row after row of the
    catalog, the value of the row is written at every position of the
    master list that holds the key of the row. *)
Definition spec_join {V} (all_AP : list string) (rows : list (string * V))
           (all_X : list V) : list V :=
  foldl (fun acc r => imap (fun p x => if item all_AP p =? r.1 then r.2 else x) acc)
        all_X rows.

(** The value of the last row with key [k], if there is one. *)
Fixpoint last_row {V} (k : string) (rows : list (string * V)) : option V :=
  match rows with
  | [] => None
  | r :: rows' =>
      match last_row k rows' with
      | Some v => Some v
      | None => if r.1 =? k then Some r.2 else None
      end
  end.

(** Positions that hold the key of a row, and whether there are any. *)
Definition where_row {V} (all_AP : list string) (r : string * V) : list nat :=
  np_where_eq all_AP r.1.

Definition matched_row {V} (all_AP : list string) (r : string * V) : bool :=
  np_contains all_AP r.1.

(** The writes the specification asks for, in catalog order. *)
Definition spec_pairs {V} (all_AP : list string) (rows : list (string * V))
  : list (nat * V) :=
  flat_map (fun r => map (fun p => (p, r.2)) (where_row all_AP r)) rows.

Lemma foldl_app_flat_map {A B} (f : A -> list B) (l : list A) (init : list B) :
  foldl (fun acc x => (acc ++ f x)%list) init l = (init ++ flat_map f l)%list.
Proof.
  revert init. induction l as [|x l IH]; intros init; simpl.
  - now rewrite app_nil_r.
  - rewrite IH. now rewrite <- app_assoc.
Qed.

Lemma filter_map_comm {A B} (P : B -> bool) (f : A -> B) (l : list A) :
  List.filter P (map f l) = map f (List.filter (fun x => P (f x)) l).
Proof.
  induction l as [|x l IH]; simpl; [reflexivity|].
  destruct (P (f x)); simpl; now rewrite IH.
Qed.

Lemma filter_none {A} (P : A -> bool) (l : list A) :
  (forall x, In x l -> P x = false) -> List.filter P l = [].
Proof.
  induction l as [|x l IH]; intros H; simpl; [reflexivity|].
  rewrite (H x) by now left. apply IH. intros y Hy. apply H. now right.
Qed.

Lemma flat_map_item_seq {B} (f : string -> list B) (det : list string) :
  flat_map (fun mm => f (item det mm)) (seq 0 (length det)) = flat_map f det.
Proof.
  induction det as [|k det IH]; [reflexivity|].
  simpl. f_equal. rewrite <- seq_shift, flat_map_concat_map, map_map.
  rewrite <- IH, flat_map_concat_map. reflexivity.
Qed.

Lemma join_index2_rows (all_AP detect_AP : list string) :
  join_index2 all_AP detect_AP = flat_map (np_where_eq all_AP) detect_AP.
Proof.
  unfold join_index2. rewrite foldl_app_flat_map. simpl.
  apply (flat_map_item_seq (np_where_eq all_AP)).
Qed.

Lemma join_index1_values {V} (d : V) (all_AP detect_AP : list string)
      (detect_X : list V) :
  length detect_X = length detect_AP ->
  map (fun i => nth i detect_X d) (join_index1 all_AP detect_AP)
  = map snd (List.filter (fun r => np_contains all_AP r.1) (zip detect_AP detect_X)).
Proof.
  unfold join_index1, index_where. revert detect_X.
  induction detect_AP as [|k det IH]; intros [|v vals] Hlen;
    try discriminate; [reflexivity|].
  simpl in Hlen. injection Hlen as Hlen.
  cbn [length seq]. rewrite <- seq_shift. cbn [List.filter zip zip_with].
  rewrite filter_map_comm.
  change (item (k :: det) 0) with k. cbn [fst].
  assert (Hrest :
    map (fun i => nth i (v :: vals) d)
        (map S (List.filter (fun x => np_contains all_AP (item (k :: det) (S x)))
                            (seq 0 (length det))))
    = map snd (List.filter (fun r => np_contains all_AP r.1) (zip det vals))).
  { rewrite map_map. rewrite <- (IH vals Hlen). reflexivity. }
  destruct (np_contains all_AP k); cbn [map snd]; now rewrite Hrest.
Qed.

Lemma zip_fst_rows {V} (detect_AP : list string) (detect_X : list V) :
  length detect_X = length detect_AP ->
  map fst (zip detect_AP detect_X) = detect_AP.
Proof.
  revert detect_X. induction detect_AP as [|k det IH]; intros [|v vals] Hlen;
    try discriminate; [reflexivity|].
  simpl in *. f_equal. apply IH. lia.
Qed.

Lemma np_where_eq_spec (all_AP : list string) (k : string) (p : nat) :
  p ∈ np_where_eq all_AP k <-> all_AP !! p = Some k.
Proof.
  unfold np_where_eq. rewrite elem_of_index_where. split.
  - intros [Hp Heq]. apply String.eqb_eq in Heq. subst k.
    now apply lookup_nth.
  - intros Hp. split; [now apply lookup_lt_Some in Hp|].
    rewrite (item_lookup _ _ _ Hp). apply String.eqb_refl.
Qed.

Lemma np_contains_spec (all_AP : list string) (k : string) :
  np_contains all_AP k = true <-> k ∈ all_AP.
Proof.
  unfold np_contains. rewrite existsb_exists, list_elem_of_In. split.
  - intros (x & Hx & Heq). apply String.eqb_eq in Heq. now subst.
  - intros Hk. exists k. split; [exact Hk|apply String.eqb_refl].
Qed.

Lemma np_where_eq_nil (all_AP : list string) (k : string) :
  np_contains all_AP k = false -> np_where_eq all_AP k = [].
Proof.
  intros Hno. apply filter_none. intros p Hp.
  destruct (item all_AP p =? k) eqn:Heq; [|reflexivity].
  assert (Hin : p ∈ np_where_eq all_AP k).
  { apply elem_of_index_where. apply in_seq in Hp. split; [lia|exact Heq]. }
  apply np_where_eq_spec, list_elem_of_lookup_2, np_contains_spec in Hin.
  congruence.
Qed.

Lemma np_where_eq_cons (all_AP : list string) (k : string) :
  np_contains all_AP k = true -> (1 <= length (np_where_eq all_AP k))%nat.
Proof.
  intros [p Hp]%np_contains_spec%list_elem_of_lookup_1.
  apply np_where_eq_spec in Hp.
  destruct (np_where_eq all_AP k); [inversion Hp|simpl; lia].
Qed.

Section JoinRefinement.
Context {V : Type}.
Variable all_AP : list string.
Abbreviation W := (where_row (V:=V) all_AP).
Abbreviation M := (matched_row (V:=V) all_AP).

Lemma where_row_nil (r : string * V) : M r = false -> W r = [].
Proof. apply np_where_eq_nil. Qed.

Lemma where_row_cons (r : string * V) : M r = true -> (1 <= length (W r))%nat.
Proof. apply np_where_eq_cons. Qed.

Lemma matched_le_positions (rows : list (string * V)) :
  (length (List.filter M rows) <= length (flat_map W rows))%nat.
Proof.
  induction rows as [|r rows IH]; cbn [List.filter flat_map]; [simpl; lia|].
  rewrite length_app. destruct (M r) eqn:Hr; cbn [length]; [|lia].
  pose proof (where_row_cons r Hr). lia.
Qed.

(** As many positions as matched rows: no matched key occurs twice in
    the master list. *)
Lemma same_count_unique (rows : list (string * V)) :
  length (flat_map W rows) = length (List.filter M rows) ->
  Forall (fun r => (length (W r) <= 1)%nat) rows.
Proof.
  induction rows as [|r rows IH]; cbn [List.filter flat_map]; intros H;
    [constructor|].
  rewrite length_app in H. pose proof (matched_le_positions rows).
  destruct (M r) eqn:Hr; cbn [length] in H.
  - pose proof (where_row_cons r Hr). constructor; [cbv beta; lia|apply IH; lia].
  - pose proof (where_row_nil r Hr) as Hnil. rewrite Hnil in H.
    cbn [length] in H.
    constructor; [cbv beta; rewrite Hnil; cbn [length]; lia|apply IH; lia].
Qed.

Lemma paired_writes (rows : list (string * V)) :
  Forall (fun r => (length (W r) <= 1)%nat) rows ->
  zip (flat_map W rows) (map snd (List.filter M rows)) = spec_pairs all_AP rows.
Proof.
  unfold spec_pairs.
  induction 1 as [|r rows Hr _ IH]; [reflexivity|].
  cbn [List.filter flat_map]. destruct (M r) eqn:HM.
  - pose proof (where_row_cons r HM) as Hge.
    destruct (W r) as [|p [|q l]]; cbn [length] in *; try lia.
    cbn [map app zip zip_with]. now rewrite <- IH.
  - rewrite (where_row_nil r HM). cbn [map app]. exact IH.
Qed.

Lemma paired_length (rows : list (string * V)) :
  Forall (fun r => (length (W r) <= 1)%nat) rows ->
  length (map snd (List.filter M rows)) = length (flat_map W rows).
Proof.
  induction 1 as [|r rows Hr _ IH]; [reflexivity|].
  cbn [List.filter flat_map]. rewrite length_app. destruct (M r) eqn:HM.
  - pose proof (where_row_cons r HM). cbn [map length]. lia.
  - rewrite (where_row_nil r HM). cbn [length]. lia.
Qed.

Lemma unmatched_rows_write_nothing (rows : list (string * V)) :
  List.filter M rows = [] ->
  flat_map W rows = [] /\ spec_pairs all_AP rows = [].
Proof.
  unfold spec_pairs.
  induction rows as [|r rows IH]; cbn [List.filter flat_map]; intros H;
    [split; reflexivity|].
  destruct (M r) eqn:HM; [discriminate|].
  rewrite (where_row_nil r HM). cbn [map app]. now apply IH.
Qed.

Lemma broadcast_writes (rows : list (string * V)) (v : V) :
  map snd (List.filter M rows) = [v] ->
  map (fun p => (p, v)) (flat_map W rows) = spec_pairs all_AP rows.
Proof.
  unfold spec_pairs.
  induction rows as [|r rows IH]; cbn [List.filter flat_map]; intros H;
    [discriminate|].
  destruct (M r) eqn:HM.
  - cbn [map] in H. injection H as Hv Hrest.
    apply map_eq_nil in Hrest.
    destruct (unmatched_rows_write_nothing rows Hrest) as [-> Hnone].
    unfold spec_pairs in Hnone. rewrite Hnone, !app_nil_r. now subst v.
  - rewrite (where_row_nil r HM). cbn [map app]. now apply IH.
Qed.

Lemma put_pairs_app (a : list V) (ps qs : list (nat * V)) :
  put_pairs a (ps ++ qs) = put_pairs (put_pairs a ps) qs.
Proof. unfold put_pairs. apply foldl_app. Qed.

Lemma spec_pairs_join (rows : list (string * V)) (all_X : list V) :
  length all_X = length all_AP ->
  put_pairs all_X (spec_pairs all_AP rows) = spec_join all_AP rows all_X.
Proof.
  revert all_X. unfold spec_pairs, spec_join.
  induction rows as [|r rows IH]; intros all_X Hlen; [reflexivity|].
  cbn [flat_map foldl]. rewrite put_pairs_app.
  assert (Hrow : put_pairs all_X (map (fun p => (p, r.2)) (W r))
                 = imap (fun p x => if item all_AP p =? r.1 then r.2 else x) all_X).
  { pose proof (put_scalar_mask all_X (length all_AP)
                  (fun p => item all_AP p =? r.1) r.2 Hlen) as Hm.
    unfold put_scalar in Hm. rewrite in_range_index_where in Hm by lia.
    now injection Hm. }
  rewrite Hrow. apply IH. now rewrite length_imap.
Qed.

Lemma join_index2_where (detect_AP : list string) (detect_X : list V) :
  length detect_X = length detect_AP ->
  join_index2 all_AP detect_AP = flat_map W (zip detect_AP detect_X).
Proof.
  intros Hdet. rewrite join_index2_rows.
  rewrite <- (zip_fst_rows detect_AP detect_X Hdet) at 1.
  rewrite !flat_map_concat_map, map_map. reflexivity.
Qed.

Lemma join_index1_take (detect_AP : list string) (detect_X : list V) :
  length detect_X = length detect_AP ->
  take detect_X (join_index1 all_AP detect_AP)
  = Some (map snd (List.filter M (zip detect_AP detect_X))).
Proof.
  intros Hdet. destruct detect_X as [|d0 detect_X'] eqn:HdX.
  - destruct detect_AP; [reflexivity|discriminate].
  - rewrite <- HdX in *.
    rewrite (take_in_range d0)
      by (unfold join_index1; apply in_range_index_where; lia).
    f_equal. now apply join_index1_values.
Qed.

Lemma join_index2_in_range (detect_AP : list string) (all_X : list V) :
  length all_X = length all_AP ->
  in_range all_X (join_index2 all_AP detect_AP) = true.
Proof.
  intros HX. apply in_range_spec. intros p Hp.
  rewrite join_index2_rows in Hp.
  apply list_elem_of_In, in_flat_map in Hp as (k & _ & Hp).
  apply list_elem_of_In, elem_of_index_where in Hp. lia.
Qed.

(** Whenever the assignment of the join goes through, it does what the
    specification says. *)
Lemma gather_put_refines (detect_AP : list string) (all_X detect_X res : list V) :
  length all_X = length all_AP ->
  length detect_X = length detect_AP ->
  gather_put all_X (join_index2 all_AP detect_AP)
             detect_X (join_index1 all_AP detect_AP) = Some res ->
  res = spec_join all_AP (zip detect_AP detect_X) all_X.
Proof.
  intros HX Hdet. unfold gather_put.
  rewrite (join_index1_take _ _ Hdet), bind_Some.
  unfold put. rewrite (join_index2_in_range _ _ HX).
  rewrite (join_index2_where _ _ Hdet).
  set (rows := zip detect_AP detect_X).
  destruct (length (map snd (List.filter M rows)) =? length (flat_map W rows))%nat
    eqn:Hn.
  - apply Nat.eqb_eq in Hn. intros [= <-].
    rewrite length_map in Hn. symmetry in Hn.
    rewrite (paired_writes _ (same_count_unique _ Hn)).
    now apply spec_pairs_join.
  - destruct (map snd (List.filter M rows)) as [|v [|? ?]] eqn:Hv;
      try discriminate.
    intros [= <-]. rewrite (broadcast_writes _ v Hv).
    now apply spec_pairs_join.
Qed.

(** The join goes through when no catalog key occurs twice in the master
    list. *)
Lemma gather_put_unique (detect_AP : list string) (all_X detect_X : list V) :
  length all_X = length all_AP ->
  length detect_X = length detect_AP ->
  (forall k, k ∈ detect_AP -> (length (np_where_eq all_AP k) <= 1)%nat) ->
  gather_put all_X (join_index2 all_AP detect_AP)
             detect_X (join_index1 all_AP detect_AP)
  = Some (spec_join all_AP (zip detect_AP detect_X) all_X).
Proof.
  intros HX Hdet Huniq. unfold gather_put.
  rewrite (join_index1_take _ _ Hdet), bind_Some.
  unfold put. rewrite (join_index2_in_range _ _ HX).
  rewrite (join_index2_where _ _ Hdet).
  set (rows := zip detect_AP detect_X).
  assert (HF : Forall (fun r => (length (W r) <= 1)%nat) rows).
  { apply Forall_forall. intros r Hr. apply Huniq.
    rewrite <- (zip_fst_rows detect_AP detect_X Hdet).
    apply list_elem_of_In, in_map, list_elem_of_In, Hr. }
  rewrite (paired_length _ HF), Nat.eqb_refl.
  rewrite (paired_writes _ HF). f_equal. now apply spec_pairs_join.
Qed.

(** What the specified join leaves at a position that holds key [k]. *)
Lemma spec_join_lookup (rows : list (string * V)) (all_X : list V)
      (p : nat) (k : string) :
  all_AP !! p = Some k ->
  spec_join all_AP rows all_X !! p
  = match last_row k rows with
    | Some v => (fun _ => v) <$> all_X !! p
    | None => all_X !! p
    end.
Proof.
  intros Hk. unfold spec_join. revert all_X.
  induction rows as [|r rows IH]; intros all_X; [reflexivity|].
  cbn [foldl last_row]. rewrite IH, list_lookup_imap.
  rewrite (item_lookup _ _ _ Hk), String.eqb_sym.
  destruct (last_row k rows) as [v|].
  - destruct (all_X !! p); reflexivity.
  - destruct (r.1 =? k); destruct (all_X !! p); reflexivity.
Qed.

Lemma spec_join_length (rows : list (string * V)) (all_X : list V) :
  length (spec_join all_AP rows all_X) = length all_X.
Proof.
  unfold spec_join. revert all_X.
  induction rows as [|r rows IH]; intros all_X; [reflexivity|].
  cbn [foldl]. rewrite IH. apply length_imap.
Qed.

End JoinRefinement.

(** ** The joins of the driver *)

Lemma get_SNRs_FLUXs_Some {V} (all_AP detect_AP : list string)
      (a1 a2 d1 d2 a3 d3 a4 d4 a5 d5 r1 r2 r3 r4 r5 : list V) :
  get_SNRs_FLUXs all_AP detect_AP a1 a2 d1 d2 a3 d3 a4 d4 a5 d5
  = Some (r1, r2, r3, r4, r5) ->
  let index1 := join_index1 all_AP detect_AP in
  let index2 := join_index2 all_AP detect_AP in
  gather_put a1 index2 d1 index1 = Some r1
  /\ gather_put a2 index2 d2 index1 = Some r2
  /\ gather_put a3 index2 d3 index1 = Some r3
  /\ gather_put a4 index2 d4 index1 = Some r4
  /\ gather_put a5 index2 d5 index1 = Some r5.
Proof.
  unfold get_SNRs_FLUXs. cbv zeta. intros H.
  repeat match type of H with
         | (?g ≫= _) = Some _ =>
             destruct g eqn:?; [rewrite bind_Some in H|discriminate]
         end.
  injection H as <- <- <- <- <-. repeat split; reflexivity.
Qed.

Lemma get_LMIN0_LMAX0_Some {V} (all_AP detect_AP : list string)
      (a1 d1 a2 d2 a3 d3 a4 d4 r1 r2 r3 r4 : list V) :
  get_LMIN0_LMAX0 all_AP detect_AP a1 d1 a2 d2 a3 d3 a4 d4
  = Some (r1, r2, r3, r4) ->
  let index1 := join_index1 all_AP detect_AP in
  let index2 := join_index2 all_AP detect_AP in
  gather_put a1 index2 d1 index1 = Some r1
  /\ gather_put a2 index2 d2 index1 = Some r2
  /\ gather_put a3 index2 d3 index1 = Some r3
  /\ gather_put a4 index2 d4 index1 = Some r4.
Proof.
  unfold get_LMIN0_LMAX0. cbv zeta. intros H.
  repeat match type of H with
         | (?g ≫= _) = Some _ =>
             destruct g eqn:?; [rewrite bind_Some in H|discriminate]
         end.
  injection H as <- <- <- <-. repeat split; reflexivity.
Qed.

(** What one output column holds at position [p], whose key is [k],
    after the join of a catalog column: the value of the last row of the
    catalog with that key, or what it held before. *)
Definition joined {V} (k : string) (detect_AP : list string) (detect_X all_X : list V)
           (p : nat) : option V :=
  match last_row k (zip detect_AP detect_X) with
  | Some v => Some v
  | None => all_X !! p
  end.

Lemma gather_put_joined {V} (all_AP detect_AP : list string)
      (all_X detect_X res : list V) (p : nat) (k : string) :
  length all_X = length all_AP ->
  length detect_X = length detect_AP ->
  gather_put all_X (join_index2 all_AP detect_AP)
             detect_X (join_index1 all_AP detect_AP) = Some res ->
  all_AP !! p = Some k ->
  res !! p = joined k detect_AP detect_X all_X p.
Proof.
  intros HX Hdet Hres Hk.
  rewrite (gather_put_refines all_AP detect_AP all_X detect_X res HX Hdet Hres).
  rewrite (spec_join_lookup all_AP _ _ p k Hk). unfold joined.
  destruct (lookup_lt_is_Some_2 all_X p) as [x ->];
    [apply lookup_lt_Some in Hk; lia|].
  destruct (last_row k _); reflexivity.
Qed.

Lemma gather_put_length {V} (all_AP detect_AP : list string)
      (all_X detect_X res : list V) :
  length all_X = length all_AP ->
  length detect_X = length detect_AP ->
  gather_put all_X (join_index2 all_AP detect_AP)
             detect_X (join_index1 all_AP detect_AP) = Some res ->
  length res = length all_AP.
Proof.
  intros HX Hdet Hres.
  rewrite (gather_put_refines all_AP detect_AP all_X detect_X res HX Hdet Hres).
  now rewrite spec_join_length.
Qed.

Lemma last_row_None {V} (k : string) (keys : list string) (vals : list V) :
  k ∉ keys -> last_row k (zip keys vals) = None.
Proof.
  revert vals. induction keys as [|k' keys IH]; intros vals Hk; [reflexivity|].
  destruct vals as [|v vals]; [reflexivity|].
  apply not_elem_of_cons in Hk as [Hne Hk].
  cbn [zip zip_with last_row]. rewrite (IH vals Hk).
  cbn [fst]. now rewrite (eqb_ne k' k).
Qed.

(** The join of five columns does what the specification says whenever
    no key of the catalog occurs twice in the master list. *)
Lemma get_SNRs_FLUXs_unique {V} (all_AP detect_AP : list string)
      (a1 a2 d1 d2 a3 d3 a4 d4 a5 d5 : list V) :
  Forall (fun c => length c = length all_AP) [a1; a2; a3; a4; a5] ->
  Forall (fun c => length c = length detect_AP) [d1; d2; d3; d4; d5] ->
  (forall k, k ∈ detect_AP -> (length (np_where_eq all_AP k) <= 1)%nat) ->
  get_SNRs_FLUXs all_AP detect_AP a1 a2 d1 d2 a3 d3 a4 d4 a5 d5
  = Some (spec_join all_AP (zip detect_AP d1) a1,
          spec_join all_AP (zip detect_AP d2) a2,
          spec_join all_AP (zip detect_AP d3) a3,
          spec_join all_AP (zip detect_AP d4) a4,
          spec_join all_AP (zip detect_AP d5) a5).
Proof.
  intros Ha Hd Hu.
  repeat match goal with
         | H : Forall _ (_ :: _) |- _ =>
             apply Forall_cons in H; let E := fresh "E" in destruct H as [E H]
         end.
  unfold get_SNRs_FLUXs. cbv zeta.
  rewrite (gather_put_unique all_AP detect_AP a1 d1), bind_Some by assumption.
  rewrite (gather_put_unique all_AP detect_AP a2 d2), bind_Some by assumption.
  rewrite (gather_put_unique all_AP detect_AP a3 d3), bind_Some by assumption.
  rewrite (gather_put_unique all_AP detect_AP a4 d4), bind_Some by assumption.
  rewrite (gather_put_unique all_AP detect_AP a5 d5), bind_Some by assumption.
  reflexivity.
Qed.

(** And whenever it returns at all, it returns that. *)
Lemma get_SNRs_FLUXs_refines {V} (all_AP detect_AP : list string)
      (a1 a2 d1 d2 a3 d3 a4 d4 a5 d5 r1 r2 r3 r4 r5 : list V) :
  Forall (fun c => length c = length all_AP) [a1; a2; a3; a4; a5] ->
  Forall (fun c => length c = length detect_AP) [d1; d2; d3; d4; d5] ->
  get_SNRs_FLUXs all_AP detect_AP a1 a2 d1 d2 a3 d3 a4 d4 a5 d5
  = Some (r1, r2, r3, r4, r5) ->
  r1 = spec_join all_AP (zip detect_AP d1) a1
  /\ r2 = spec_join all_AP (zip detect_AP d2) a2
  /\ r3 = spec_join all_AP (zip detect_AP d3) a3
  /\ r4 = spec_join all_AP (zip detect_AP d4) a4
  /\ r5 = spec_join all_AP (zip detect_AP d5) a5.
Proof.
  intros Ha Hd H.
  repeat match goal with
         | H : Forall _ (_ :: _) |- _ =>
             apply Forall_cons in H; let E := fresh "E" in destruct H as [E H]
         end.
  apply get_SNRs_FLUXs_Some in H. cbv zeta in H.
  destruct H as (G1 & G2 & G3 & G4 & G5).
  repeat split; eapply gather_put_refines; eauto.
Qed.

(** C2. The join is written to do what the claim says, and does it
    whenever its assignments go through ([get_SNRs_FLUXs_refines],
    [get_SNRs_FLUXs_unique]). But a key at two positions of the master list
    together with a second matched catalog row makes the two index
    arrays of the assignment differ in length, and the run stops with
    numpy's shape error, where the claim has both positions receive the
    row's value. *)
Theorem join_duplicate_key_raises :
  get_SNRs_FLUXs ["S.123"; "S.123"; "A.001"] ["S.123"; "A.001"]
    [0; 0; 0]%Z [0; 0; 0]%Z [1; 2]%Z [1; 2]%Z [0; 0; 0]%Z [1; 2]%Z
    [0; 0; 0]%Z [1; 2]%Z [0; 0; 0]%Z [1; 2]%Z = None
  /\ get_LMIN0_LMAX0 ["S.123"; "S.123"; "A.001"] ["S.123"; "A.001"]
       [0; 0; 0]%Z [1; 2]%Z [0; 0; 0]%Z [1; 2]%Z [0; 0; 0]%Z [1; 2]%Z
       [0; 0; 0]%Z [1; 2]%Z = None
  /\ join_index1 ["S.123"; "S.123"; "A.001"] ["S.123"; "A.001"] = [0; 1]%nat
  /\ join_index2 ["S.123"; "S.123"; "A.001"] ["S.123"; "A.001"] = [0; 1; 2]%nat
  /\ spec_join ["S.123"; "S.123"; "A.001"] (zip ["S.123"; "A.001"] [1; 2]%Z)
       [0; 0; 0]%Z = [1; 1; 2]%Z.
Proof. repeat split. Qed.

(** C3, as stated, fails: a join writes at every matched position,
    whatever the position holds. With the key ["S.123"] in both MMT
    tables, the second join of the driver replaces the value of the
    first. *)
Lemma later_join_replaces_earlier :
  get_SNRs_FLUXs ["S.123"] ["S.123"] [0]%Z [0]%Z [1]%Z [1]%Z [0]%Z [1]%Z
                 [0]%Z [1]%Z [0]%Z [1]%Z
  = Some ([1], [1], [1], [1], [1])%Z
  /\ get_SNRs_FLUXs ["S.123"] ["S.123"] [1]%Z [1]%Z [2]%Z [2]%Z [1]%Z [2]%Z
                    [1]%Z [2]%Z [1]%Z [2]%Z
     = Some ([2], [2], [2], [2], [2])%Z.
Proof. split; reflexivity. Qed.

Lemma last_row_is_Some {V} (k : string) (keys : list string) (vals : list V) :
  length vals = length keys -> k ∈ keys -> is_Some (last_row k (zip keys vals)).
Proof.
  revert vals. induction keys as [|k' keys IH]; intros [|v vals] Hlen Hk;
    try discriminate; [inversion Hk|].
  injection Hlen as Hlen. cbn [zip zip_with last_row fst snd].
  destruct (decide (k ∈ keys)) as [Hin|Hnin].
  - destruct (IH vals Hlen Hin) as [w ->]. now exists w.
  - rewrite (last_row_None k keys vals Hnin).
    apply elem_of_cons in Hk as [->|Hk]; [|contradiction].
    rewrite String.eqb_refl. now exists v.
Qed.

Lemma last_row_elem {V} (k : string) (rows : list (string * V)) (v : V) :
  last_row k rows = Some v -> (k, v) ∈ rows.
Proof.
  induction rows as [|[k' v'] rows IH]; [discriminate|].
  cbn [last_row fst snd]. destruct (last_row k rows) as [w|].
  - intros [= ->]. right. now apply IH.
  - destruct (String.eqb_spec k' k) as [->|]; [|discriminate].
    intros [= ->]. left.
Qed.

(** One output column under one join, at a position holding key [k]. *)
Lemma join_column_cases {V} (all_AP detect_AP : list string)
      (all_X detect_X res : list V) (p : nat) (k : string) :
  length all_X = length all_AP ->
  length detect_X = length detect_AP ->
  gather_put all_X (join_index2 all_AP detect_AP)
             detect_X (join_index1 all_AP detect_AP) = Some res ->
  all_AP !! p = Some k ->
  (k ∉ detect_AP -> res !! p = all_X !! p)
  /\ (k ∈ detect_AP ->
      is_Some (res !! p) /\ res !! p = last_row k (zip detect_AP detect_X)).
Proof.
  intros HX Hdet Hres Hk.
  rewrite (gather_put_joined all_AP detect_AP all_X detect_X res p k HX Hdet Hres Hk).
  unfold joined. split.
  - intros Hnin. now rewrite last_row_None.
  - intros Hin. destruct (last_row_is_Some k detect_AP detect_X Hdet Hin) as [v ->].
    split; [now exists v|reflexivity].
Qed.

(** C3 (amended). Joining catalog A and then catalog B: at a position
    whose key has no row in B, every output column keeps what the join
    of A left; at a position whose key has a row in B, every output
    column takes the value of the last such row of B, whatever the join
    of A had set. The later join wins. *)
Theorem later_join_overwrites {V} (all_AP keysA keysB : list string)
        (s1 s2 s3 s4 s5 A1 A2 A3 A4 A5 B1 B2 B3 B4 B5 : list V)
        (a1 a2 a3 a4 a5 r1 r2 r3 r4 r5 : list V) :
  Forall (fun c => length c = length all_AP) [s1; s2; s3; s4; s5] ->
  Forall (fun c => length c = length keysA) [A1; A2; A3; A4; A5] ->
  Forall (fun c => length c = length keysB) [B1; B2; B3; B4; B5] ->
  get_SNRs_FLUXs all_AP keysA s1 s2 A1 A2 s3 A3 s4 A4 s5 A5
  = Some (a1, a2, a3, a4, a5) ->
  get_SNRs_FLUXs all_AP keysB a1 a2 B1 B2 a3 B3 a4 B4 a5 B5
  = Some (r1, r2, r3, r4, r5) ->
  forall p k,
    all_AP !! p = Some k ->
    (k ∉ keysB ->
     r1 !! p = a1 !! p /\ r2 !! p = a2 !! p /\ r3 !! p = a3 !! p
     /\ r4 !! p = a4 !! p /\ r5 !! p = a5 !! p)
    /\ (k ∈ keysB ->
        is_Some (r1 !! p)
        /\ r1 !! p = last_row k (zip keysB B1)
        /\ r2 !! p = last_row k (zip keysB B2)
        /\ r3 !! p = last_row k (zip keysB B3)
        /\ r4 !! p = last_row k (zip keysB B4)
        /\ r5 !! p = last_row k (zip keysB B5)).
Proof.
  intros Hs HA HB HjA HjB p k Hk.
  repeat match goal with
         | H : Forall _ (_ :: _) |- _ =>
             apply Forall_cons in H; let E := fresh "E" in destruct H as [E H]
         end.
  apply get_SNRs_FLUXs_Some in HjA. cbv zeta in HjA.
  destruct HjA as (G1 & G2 & G3 & G4 & G5).
  apply get_SNRs_FLUXs_Some in HjB. cbv zeta in HjB.
  destruct HjB as (J1 & J2 & J3 & J4 & J5).
  assert (L1 : length a1 = length all_AP)
    by (eapply gather_put_length; [| |exact G1]; assumption).
  assert (L2 : length a2 = length all_AP)
    by (eapply gather_put_length; [| |exact G2]; assumption).
  assert (L3 : length a3 = length all_AP)
    by (eapply gather_put_length; [| |exact G3]; assumption).
  assert (L4 : length a4 = length all_AP)
    by (eapply gather_put_length; [| |exact G4]; assumption).
  assert (L5 : length a5 = length all_AP)
    by (eapply gather_put_length; [| |exact G5]; assumption).
  destruct (join_column_cases all_AP keysB a1 B1 r1 p k L1 ltac:(assumption) J1 Hk)
    as [N1 Y1].
  destruct (join_column_cases all_AP keysB a2 B2 r2 p k L2 ltac:(assumption) J2 Hk)
    as [N2 Y2].
  destruct (join_column_cases all_AP keysB a3 B3 r3 p k L3 ltac:(assumption) J3 Hk)
    as [N3 Y3].
  destruct (join_column_cases all_AP keysB a4 B4 r4 p k L4 ltac:(assumption) J4 Hk)
    as [N4 Y4].
  destruct (join_column_cases all_AP keysB a5 B5 r5 p k L5 ltac:(assumption) J5 Hk)
    as [N5 Y5].
  split.
  - intros Hnin. repeat split; auto.
  - intros Hin. split; [apply Y1, Hin|].
    repeat split; [apply Y1|apply Y2|apply Y3|apply Y4|apply Y5]; exact Hin.
Qed.

Lemma later_join_overwrites_witness :
  ([7; 2]%Z : list Z) !! 0%nat = last_row "S.123" (zip ["S.123"] [7]%Z)
  /\ ([7; 2]%Z : list Z) !! 1%nat = ([1; 2]%Z : list Z) !! 1%nat.
Proof.
  pose proof (later_join_overwrites
                ["S.123"; "A.001"] ["S.123"; "A.001"] ["S.123"]
                [0; 0]%Z [0; 0]%Z [0; 0]%Z [0; 0]%Z [0; 0]%Z
                [1; 2]%Z [1; 2]%Z [1; 2]%Z [1; 2]%Z [1; 2]%Z
                [7]%Z [7]%Z [7]%Z [7]%Z [7]%Z
                [1; 2]%Z [1; 2]%Z [1; 2]%Z [1; 2]%Z [1; 2]%Z
                [7; 2]%Z [7; 2]%Z [7; 2]%Z [7; 2]%Z [7; 2]%Z
                ltac:(repeat constructor) ltac:(repeat constructor)
                ltac:(repeat constructor) eq_refl eq_refl) as H.
  destruct (H 0%nat "S.123" eq_refl) as [_ Y].
  destruct (H 1%nat "A.001" eq_refl) as [N _].
  split.
  - apply Y. left.
  - apply N. intros Hin. apply elem_of_cons in Hin as [Hin|Hin]; [discriminate|inversion Hin].
Defined.

(** ** The wavelength columns after the single-source joins *)

Lemma get_LMIN0_LMAX0_same {V} (all_AP detect_AP : list string)
      (a d1 b d2 r1 r2 r3 r4 : list V) :
  get_LMIN0_LMAX0 all_AP detect_AP a d1 b d2 a d1 b d2 = Some (r1, r2, r3, r4) ->
  r1 = r3 /\ r2 = r4.
Proof.
  intros H. apply get_LMIN0_LMAX0_Some in H. cbv zeta in H.
  destruct H as (G1 & G2 & G3 & G4). split; congruence.
Qed.

(** C9. After the four single-source wavelength joins of the driver, and
    before the merged resolver runs, the MMT and the KECK arrays are
    equal: each call passes one catalog column as both sources. *)
Theorem single_joins_MMT_eq_KECK {V} (sentinel : V)
        (MMTall MMTsingle DEIMOS DEIMOS00 : line_fit V) (AP : list string)
        (MMT_LMIN0 MMT_LMAX0 KECK_LMIN0 KECK_LMAX0 : list V) :
  single_LMIN0_LMAX0 sentinel MMTall MMTsingle DEIMOS DEIMOS00 AP
  = Some (MMT_LMIN0, MMT_LMAX0, KECK_LMIN0, KECK_LMAX0) ->
  MMT_LMIN0 = KECK_LMIN0 /\ MMT_LMAX0 = KECK_LMAX0.
Proof.
  unfold single_LMIN0_LMAX0. cbv zeta. intros H.
  destruct (get_LMIN0_LMAX0 AP (cat_AP MMTall) _ _ _ _ _ _ _ _)
    as [[[[a1 b1] c1] d1]|] eqn:H1; [|discriminate].
  apply get_LMIN0_LMAX0_same in H1 as [-> ->]. rewrite bind_Some in H.
  destruct (get_LMIN0_LMAX0 AP (cat_AP MMTsingle) _ _ _ _ _ _ _ _)
    as [[[[a2 b2] c2] d2]|] eqn:H2; [|discriminate].
  apply get_LMIN0_LMAX0_same in H2 as [-> ->]. rewrite bind_Some in H.
  destruct (get_LMIN0_LMAX0 AP (cat_AP DEIMOS) _ _ _ _ _ _ _ _)
    as [[[[a3 b3] c3] d3]|] eqn:H3; [|discriminate].
  apply get_LMIN0_LMAX0_same in H3 as [-> ->]. rewrite bind_Some in H.
  now apply get_LMIN0_LMAX0_same in H.
Qed.

(** A table for examples: one value column for the five signal-to-noise
    columns and one for the five flux columns. *)
Definition table {V} (keys : list string) (lmin lmax snr flux : list V) : line_fit V :=
  {| cat_AP := keys; cat_LMIN0 := lmin; cat_LMAX0 := lmax;
     cat_NIIA_SNR := snr; cat_NIIB_SNR := snr; cat_HA_SNR := snr;
     cat_HB_SNR := snr; cat_HG_SNR := snr;
     cat_NIIA_FLUX := flux; cat_NIIB_FLUX := flux; cat_HA_FLUX := flux;
     cat_HB_FLUX := flux; cat_HG_FLUX := flux |}.

Definition merged_table {V} (keys : list string) (snr flux : list V) : merged_fit V :=
  {| mer_AP := keys;
     mer_NIIA_SNR := snr; mer_NIIB_SNR := snr; mer_HA_SNR := snr;
     mer_HB_SNR := snr; mer_HG_SNR := snr;
     mer_NIIA_FLUX := flux; mer_NIIB_FLUX := flux; mer_HA_FLUX := flux;
     mer_HB_FLUX := flux; mer_HG_FLUX := flux |}.

Lemma single_joins_MMT_eq_KECK_witness :
  single_LMIN0_LMAX0 (-99)%Z
    (table ["S.123"; "A.001"] [1; 2] [3; 4] [] [])%Z
    (table ["S.555"] [5] [6] [] [])%Z
    (table ["12.345"] [7] [8] [] [])%Z
    (table ["12.999"; "13.000"] [9; 10] [11; 12] [] [])%Z
    ["S.123"; "12.345"; "S.555,12.999"; "N/A"; "S.555"; "13.000"]
  = Some ([1; 7; -99; -99; 5; 10], [3; 8; -99; -99; 6; 12],
          [1; 7; -99; -99; 5; 10], [3; 8; -99; -99; 6; 12])%Z
  /\ ([1; 7; -99; -99; 5; 10]%Z = [1; 7; -99; -99; 5; 10]%Z
      /\ [3; 8; -99; -99; 6; 12]%Z = [3; 8; -99; -99; 6; 12]%Z).
Proof.
  split; [reflexivity|].
  exact (single_joins_MMT_eq_KECK (-99)%Z
           (table ["S.123"; "A.001"] [1; 2] [3; 4] [] [])%Z
           (table ["S.555"] [5] [6] [] [])%Z
           (table ["12.345"] [7] [8] [] [])%Z
           (table ["12.999"; "13.000"] [9; 10] [11; 12] [] [])%Z
           ["S.123"; "12.345"; "S.555,12.999"; "N/A"; "S.555"; "13.000"]
           _ _ _ _ eq_refl).
Defined.

(** ** Which value an index assignment leaves where *)

(** The place of the last occurrence of [p] in an index array. *)
Fixpoint last_pos (p : nat) (idx : list nat) : option nat :=
  match idx with
  | [] => None
  | i :: idx' =>
      match last_pos p idx' with
      | Some t => Some (S t)
      | None => if (i =? p)%nat then Some 0%nat else None
      end
  end.

(** The place, in a value array of length [n], of the value that
    [a[idx] = vals] leaves at position [p]: its partner in the pairing,
    or the one value that is broadcast. *)
Definition source (idx : list nat) (n : nat) (p : nat) : option nat :=
  match last_pos p idx with
  | Some t => Some (if (n =? length idx)%nat then t else 0%nat)
  | None => None
  end.

Lemma last_pos_None (p : nat) (idx : list nat) :
  last_pos p idx = None <-> p ∉ idx.
Proof.
  induction idx as [|i idx IH]; simpl.
  - split; [intros _ H; inversion H|reflexivity].
  - rewrite not_elem_of_cons. destruct (last_pos p idx) as [t|].
    + split; [discriminate|]. intros [_ H]. now apply IH in H.
    + destruct (Nat.eqb_spec i p) as [->|Hne].
      * split; [discriminate|]. intros [H _]. contradiction.
      * split; [|reflexivity]. intros _. split; [congruence|]. now apply IH.
Qed.

Lemma last_pos_lt (p : nat) (idx : list nat) (t : nat) :
  last_pos p idx = Some t -> (t < length idx)%nat /\ idx !! t = Some p.
Proof.
  revert t. induction idx as [|i idx IH]; intros t; simpl; [discriminate|].
  destruct (last_pos p idx) as [u|].
  - intros [= <-]. destruct (IH u eq_refl). split; [lia|assumption].
  - destruct (Nat.eqb_spec i p) as [->|]; [|discriminate].
    intros [= <-]. split; [lia|reflexivity].
Qed.

Lemma put_pairs_zip_lookup {A} (idx : list nat) (vals a : list A) (p : nat) :
  length vals = length idx -> (p < length a)%nat ->
  put_pairs a (zip idx vals) !! p
  = match last_pos p idx with
    | Some t => vals !! t
    | None => a !! p
    end.
Proof.
  revert vals a. induction idx as [|i idx IH]; intros vals a Hlen Hp.
  - reflexivity.
  - destruct vals as [|v vals]; [discriminate|]. injection Hlen as Hlen.
    cbn [zip zip_with]. rewrite put_pairs_cons. cbn [fst snd last_pos].
    rewrite IH by (rewrite ?length_insert; assumption).
    destruct (last_pos p idx) as [t|]; [reflexivity|].
    destruct (Nat.eqb_spec i p) as [->|Hne].
    + now apply list_lookup_insert_eq.
    + now apply list_lookup_insert_ne.
Qed.

Lemma put_source {A} (a idx_vals r : list A) (idx : list nat) (p : nat) :
  put a idx idx_vals = Some r -> (p < length a)%nat ->
  r !! p = match source idx (length idx_vals) p with
           | Some t => idx_vals !! t
           | None => a !! p
           end
  /\ forall t, source idx (length idx_vals) p = Some t -> (t < length idx_vals)%nat.
Proof.
  unfold put, source. intros H Hp.
  destruct (in_range a idx); [|discriminate].
  destruct (Nat.eqb_spec (length idx_vals) (length idx)) as [Hlen|Hlen].
  - injection H as <-. split.
    + rewrite put_pairs_zip_lookup by assumption.
      destruct (last_pos p idx); reflexivity.
    + intros t Ht. destruct (last_pos p idx) as [u|] eqn:Hu; [|discriminate].
      injection Ht as <-. apply last_pos_lt in Hu. lia.
  - destruct idx_vals as [|v [|? ?]]; try discriminate. injection H as <-.
    rewrite (put_pairs_fun_lookup (fun _ => v)). split.
    + destruct (last_pos p idx) as [u|] eqn:Hu.
      * rewrite decide_True.
        -- destruct (lookup_lt_is_Some_2 a p Hp) as [x ->]. reflexivity.
        -- intros. apply last_pos_lt in Hu as [_ Hu].
           now apply list_elem_of_lookup_2 in Hu.
      * rewrite decide_False; [reflexivity|]. now apply last_pos_None.
    + intros t Ht. destruct (last_pos p idx); [|discriminate].
      injection Ht as <-. simpl. lia.
Qed.

Lemma put_Some_in_range {A} (a vals r : list A) (idx : list nat) :
  put a idx vals = Some r -> in_range a idx = true /\ length r = length a.
Proof.
  unfold put. destruct (in_range a idx); [|discriminate]. intros H.
  split; [reflexivity|].
  destruct (length vals =? length idx)%nat.
  - injection H as <-. apply length_put_pairs.
  - destruct vals as [|v [|? ?]]; try discriminate. injection H as <-.
    apply length_put_pairs.
Qed.

Lemma take_lookup {A} (a vals : list A) (idx : list nat) (t : nat) (v : A) :
  take a idx = Some vals -> vals !! t = Some v ->
  exists x, idx !! t = Some x /\ a !! x = Some v.
Proof.
  intros H%mapM_Some_1 Hv.
  destruct (Forall2_lookup_r _ _ _ _ _ H Hv) as (x & Hx & Hax).
  now exists x.
Qed.

(** Two columns written through the same index arrays take, at each
    written position, the values of one and the same source row. *)
Lemma gather_put_pair {V} (L0 L1 min max L0' L1' : list V) (jj i : list nat) :
  gather_put L0 jj min i = Some L0' ->
  gather_put L1 jj max i = Some L1' ->
  (forall p, p ∈ jj ->
     exists x v w, x ∈ i /\ min !! x = Some v /\ max !! x = Some w
                   /\ L0' !! p = Some v /\ L1' !! p = Some w)
  /\ (forall p, p ∉ jj -> L0' !! p = L0 !! p /\ L1' !! p = L1 !! p)
  /\ length L0' = length L0 /\ length L1' = length L1.
Proof.
  unfold gather_put. intros H0 H1.
  destruct (take min i) as [vmin|] eqn:Tmin; [|discriminate].
  destruct (take max i) as [vmax|] eqn:Tmax; [|discriminate].
  rewrite bind_Some in H0, H1.
  pose proof (take_length _ _ _ Tmin) as Lmin.
  pose proof (take_length _ _ _ Tmax) as Lmax.
  destruct (put_Some_in_range _ _ _ _ H0) as [R0 Len0].
  destruct (put_Some_in_range _ _ _ _ H1) as [R1 Len1].
  rewrite in_range_spec in R0, R1.
  split; [|split; [|split; assumption]].
  - intros p Hp.
    destruct (put_source _ _ _ _ p H0 (R0 p Hp)) as [E0 B0].
    destruct (put_source _ _ _ _ p H1 (R1 p Hp)) as [E1 B1].
    rewrite Lmin in E0, B0. rewrite Lmax in E1, B1.
    destruct (source jj (length i) p) as [t|] eqn:Hs.
    + specialize (B0 t eq_refl). specialize (B1 t eq_refl).
      destruct (lookup_lt_is_Some_2 vmin t ltac:(lia)) as [v Hv].
      destruct (lookup_lt_is_Some_2 vmax t ltac:(lia)) as [w Hw].
      destruct (take_lookup _ _ _ _ _ Tmin Hv) as (x & Hx & Hxv).
      destruct (take_lookup _ _ _ _ _ Tmax Hw) as (x' & Hx' & Hxw).
      assert (x' = x) by congruence. subst x'.
      exists x, v, w. repeat split; try assumption; try congruence.
      now apply list_elem_of_lookup_2 in Hx.
    + exfalso. unfold source in Hs.
      destruct (last_pos p jj) eqn:Hl; [discriminate|].
      now apply last_pos_None in Hl.
  - intros p Hp.
    assert (Hnone : forall n, source jj n p = None).
    { intros n. unfold source. apply last_pos_None in Hp. now rewrite Hp. }
    destruct (decide (p < length L0)%nat) as [Hlt|Hge].
    + destruct (put_source _ _ _ _ p H0 Hlt) as [E0 _].
      rewrite Hnone in E0. split; [exact E0|].
      destruct (decide (p < length L1)%nat) as [Hlt1|Hge1].
      * destruct (put_source _ _ _ _ p H1 Hlt1) as [E1 _].
        now rewrite Hnone in E1.
      * rewrite !lookup_ge_None_2 by lia. reflexivity.
    + split.
      * rewrite !lookup_ge_None_2 by lia. reflexivity.
      * destruct (decide (p < length L1)%nat) as [Hlt1|Hge1].
        -- destruct (put_source _ _ _ _ p H1 Hlt1) as [E1 _].
           now rewrite Hnone in E1.
        -- rewrite !lookup_ge_None_2 by lia. reflexivity.
Qed.

(** ** The merged-record resolver *)

(** [(v, w)] are the wavelength bounds of a row of the table with key
    [code]. *)
Definition row_of {V} (AP : list string) (LMIN0 LMAX0 : list V) (code : string)
           (v w : V) : Prop :=
  exists x, AP !! x = Some code /\ LMIN0 !! x = Some v /\ LMAX0 !! x = Some w.

(** Every position of [jj] holds, in the two output arrays, the bounds of
    a row of the table with key [code]. *)
Definition written_from {V} (AP : list string) (LMIN0 LMAX0 : list V) (code : string)
           (jj : list nat) (all_LMIN0 all_LMAX0 : list V) : Prop :=
  forall p, p ∈ jj ->
    exists v w, row_of AP LMIN0 LMAX0 code v w
                /\ all_LMIN0 !! p = Some v /\ all_LMAX0 !! p = Some w.

Lemma code_rows_spec (AP : list string) (code : string) (x : nat) :
  x ∈ index_where (length AP) (fun x => (code =? item AP x)%string) <-> AP !! x = Some code.
Proof.
  rewrite elem_of_index_where. split.
  - intros [Hx Heq]. apply String.eqb_eq in Heq. rewrite Heq.
    now apply lookup_nth.
  - intros Hx. split; [now apply lookup_lt_Some in Hx|].
    rewrite (item_lookup _ _ _ Hx). apply String.eqb_refl.
Qed.

Lemma code_rows_nonempty (AP : list string) (code : string) :
  (0 <? length (index_where (length AP) (fun x => (code =? item AP x)%string)))%nat = true
  <-> code ∈ AP.
Proof.
  rewrite Nat.ltb_lt. split.
  - intros H. destruct (index_where _ _) as [|x l] eqn:E; [simpl in H; lia|].
    assert (Hx : x ∈ index_where (length AP) (fun x => (code =? item AP x)%string))
      by (rewrite E; left).
    apply code_rows_spec in Hx. now apply list_elem_of_lookup_2 in Hx.
  - intros [x Hx]%list_elem_of_lookup_1. apply code_rows_spec in Hx.
    destruct (index_where _ _); [inversion Hx|simpl; lia].
Qed.

Lemma merged_targets_spec (all_AP : list string) (mmt : string) (p : nat) :
  p ∈ merged_targets all_AP mmt
  <-> exists k, all_AP !! p = Some k /\ slice 0 5 k = mmt.
Proof.
  unfold merged_targets. rewrite elem_of_index_where. split.
  - intros [Hp Heq]. apply String.eqb_eq in Heq.
    exists (item all_AP p). split; [now apply lookup_nth|congruence].
  - intros (k & Hk & Heq). split; [now apply lookup_lt_Some in Hk|].
    rewrite (item_lookup _ _ _ Hk), Heq. apply String.eqb_refl.
Qed.

Lemma resolve_side_spec {V} (code : string) (jj : list nat)
      (L0 L1 : list V) (AP1 : list string) (min1 max1 : list V)
      (AP2 : list string) (min2 max2 : list V) (L0' L1' : list V) :
  resolve_side code jj L0 L1 AP1 min1 max1 AP2 min2 max2 = Some (L0', L1') ->
  (code ∈ AP1 -> written_from AP1 min1 max1 code jj L0' L1')
  /\ (code ∉ AP1 -> code ∈ AP2 -> written_from AP2 min2 max2 code jj L0' L1')
  /\ (code ∉ AP1 -> code ∉ AP2 -> L0' = L0 /\ L1' = L1)
  /\ (forall p, p ∉ jj -> L0' !! p = L0 !! p /\ L1' !! p = L1 !! p).
Proof.
  unfold resolve_side. cbv zeta. intros H.
  pose proof (code_rows_nonempty AP1 code) as N1.
  pose proof (code_rows_nonempty AP2 code) as N2.
  destruct (0 <? length (index_where (length AP1) _))%nat.
  - destruct (gather_put L0 jj min1 _) as [a|] eqn:G0; [|discriminate].
    rewrite bind_Some in H.
    destruct (gather_put L1 jj max1 _) as [b|] eqn:G1; [|discriminate].
    rewrite bind_Some in H. injection H as <- <-.
    destruct (gather_put_pair _ _ _ _ _ _ _ _ G0 G1) as (Hw & Hn & _).
    repeat split.
    + intros _ p Hp. destruct (Hw p Hp) as (x & v & w & Hx & ?).
      exists v, w. split; [|tauto]. exists x. apply code_rows_spec in Hx. tauto.
    + intros Hno. exfalso. apply Hno, N1. reflexivity.
    + exfalso. apply H, N1. reflexivity.
    + exfalso. apply H, N1. reflexivity.
    + apply Hn, H.
    + apply Hn, H.
  - assert (Hnot1 : code ∉ AP1) by (intros Hin; apply N1 in Hin; discriminate).
    destruct (0 <? length (index_where (length AP2) _))%nat.
    + destruct (gather_put L0 jj min2 _) as [a|] eqn:G0; [|discriminate].
      rewrite bind_Some in H.
      destruct (gather_put L1 jj max2 _) as [b|] eqn:G1; [|discriminate].
      rewrite bind_Some in H. injection H as <- <-.
      destruct (gather_put_pair _ _ _ _ _ _ _ _ G0 G1) as (Hw & Hn & _).
      repeat split.
      * intros Hin. contradiction.
      * intros _ _ p Hp. destruct (Hw p Hp) as (x & v & w & Hx & ?).
        exists v, w. split; [|tauto]. exists x. apply code_rows_spec in Hx. tauto.
      * exfalso. apply H0, N2. reflexivity.
      * exfalso. apply H0, N2. reflexivity.
      * apply Hn, H.
      * apply Hn, H.
    + injection H as <- <-. repeat split; try reflexivity.
      * intros Hin. contradiction.
      * intros _ Hin. apply N2 in Hin. discriminate.
Qed.







(** ** A run of the driver *)

(** Tables for the master list of the examples. *)
Definition demo_MMTall : line_fit Z :=
  table ["S.123"; "A.001"] [1; 2]%Z [3; 4]%Z [21; 22]%Z [31; 32]%Z.
Definition demo_MMTsingle : line_fit Z := table ["S.555"] [5]%Z [6]%Z [23]%Z [33]%Z.
Definition demo_DEIMOS : line_fit Z := table ["12.345"] [7]%Z [8]%Z [24]%Z [34]%Z.
Definition demo_DEIMOS00 : line_fit Z :=
  table ["12.999"; "13.000"] [9; 10]%Z [11; 12]%Z [25; 26]%Z [35; 36]%Z.
Definition demo_merged : merged_fit Z := merged_table ["S.555,12.999"] [27]%Z [37]%Z.

(** The eleven targets after the first six are in no table. *)
Definition demo_result : ordered Z :=
  {| o_AP := demo_AP;
     o_MMT_LMIN0 := ([1; 7; 5; -99; 5; 10] ++ replicate 11 (-99))%Z%list;
     o_MMT_LMAX0 := ([3; 8; 6; -99; 6; 12] ++ replicate 11 (-99))%Z%list;
     o_KECK_LMIN0 := ([1; 7; 9; -99; 9; 10] ++ replicate 11 (-99))%Z%list;
     o_KECK_LMAX0 := ([3; 8; 11; -99; 11; 12] ++ replicate 11 (-99))%Z%list;
     o_NIIA_SNR := ([21; 24; 27; -99; 23; 26] ++ replicate 11 (-99))%Z%list;
     o_NIIB_SNR := ([21; 24; 27; -99; 23; 26] ++ replicate 11 (-99))%Z%list;
     o_HA_SNR := ([21; 24; 27; -99; 23; 26] ++ replicate 11 (-99))%Z%list;
     o_HB_SNR := ([21; 24; 27; -99; 23; 26] ++ replicate 11 (-99))%Z%list;
     o_HG_SNR := ([21; 24; 27; -99; 23; 26] ++ replicate 11 (-99))%Z%list;
     o_NIIA_FLUX := ([31; 34; 37; -99; 33; 36] ++ replicate 11 (-99))%Z%list;
     o_NIIB_FLUX := ([31; 34; 37; -99; 33; 36] ++ replicate 11 (-99))%Z%list;
     o_HA_FLUX := ([31; 34; 37; -99; 33; 36] ++ replicate 11 (-99))%Z%list;
     o_HB_FLUX := ([31; 34; 37; -99; 33; 36] ++ replicate 11 (-99))%Z%list;
     o_HG_FLUX := ([31; 34; 37; -99; 33; 36] ++ replicate 11 (-99))%Z%list |}.

(** The key ["S.555"] of slot 4 is not a merged key; its KECK bounds
    come from the DEIMOS row of the merged key of slot 2. *)
Lemma demo_run :
  create_ordered_AP_arrays (-99)%Z demo_MMTall demo_MMTsingle demo_DEIMOS
                           demo_DEIMOS00 demo_merged demo_slit_str0 demo_inst_str0
                           false
  = Some (full_dict demo_result).
Proof. reflexivity. Defined.

(** The same master list with the MMT detection ["S.123"] at a second
    slot and a second matched row in its table stops in the first
    join; so does a master list without a target flagged as merged,
    before any join. *)
Example create_ordered_AP_arrays_stops :
  ordered_AP (demo_slit_str0 ++ ["S.123,08.345,"; "A.001,"])%list
  = Some (demo_AP ++ ["S.123"; "A.001"])%list
  /\ create_ordered_AP_arrays (-99)%Z demo_MMTall no_rows no_rows no_rows
       no_merged_rows
       (demo_slit_str0 ++ ["S.123,08.345,"; "A.001,"])%list
       (demo_inst_str0 ++ ["MMT,Keck,"; "MMT,"])%list false
     = None
  /\ create_ordered_AP_arrays (-99)%Z demo_MMTall no_rows no_rows no_rows
       no_merged_rows demo_slit_str0 (replicate 17 "MMT,") true
     = None.
Proof. repeat split. Qed.

(** ** When the joins and the resolver return *)

(** The rows of a table whose key is [code]. *)
Definition rows_for (AP : list string) (code : string) : list nat :=
  index_where (length AP) (fun x => (code =? item AP x)%string).

Lemma put_one_returns {A} (a : list A) (idx : list nat) (v : A) :
  in_range a idx = true -> is_Some (put a idx [v]).
Proof.
  intros H. unfold put. rewrite H.
  destruct (length [v] =? length idx)%nat; eexists; reflexivity.
Qed.

Lemma gather_put_one_returns {V} (all_X det : list V) (jj i : list nat) :
  in_range all_X jj = true -> in_range det i = true -> length i = 1%nat ->
  is_Some (gather_put all_X jj det i).
Proof.
  intros Hjj Hi Hlen. unfold gather_put.
  destruct (take det i) as [vals|] eqn:Ht.
  - rewrite bind_Some. pose proof (take_length _ _ _ Ht) as Hv.
    destruct vals as [|v [|? ?]]; simpl in Hv; try lia.
    now apply put_one_returns.
  - destruct i as [|x [|? ?]]; simpl in Hlen; try lia.
    destruct det as [|d0 det']; [simpl in Hi; discriminate|].
    rewrite (take_in_range d0) in Ht by exact Hi. discriminate.
Qed.

Lemma resolve_side_returns {V} (code : string) (jj : list nat)
      (L0 L1 : list V) (AP1 : list string) (min1 max1 : list V)
      (AP2 : list string) (min2 max2 : list V) :
  in_range L0 jj = true -> in_range L1 jj = true ->
  length min1 = length AP1 -> length max1 = length AP1 ->
  length min2 = length AP2 -> length max2 = length AP2 ->
  (length (rows_for AP1 code) <= 1)%nat ->
  (length (rows_for AP2 code) <= 1)%nat ->
  is_Some (resolve_side code jj L0 L1 AP1 min1 max1 AP2 min2 max2).
Proof.
  intros R0 R1 Hmin1 Hmax1 Hmin2 Hmax2 U1 U2.
  unfold resolve_side. cbv zeta. fold (rows_for AP1 code). fold (rows_for AP2 code).
  assert (Hr : forall (AP : list string) (col : list V),
             length col = length AP -> in_range col (rows_for AP code) = true).
  { intros AP col Hc. apply in_range_index_where. lia. }
  destruct (0 <? length (rows_for AP1 code))%nat eqn:N1.
  - apply Nat.ltb_lt in N1.
    destruct (gather_put_one_returns L0 min1 jj (rows_for AP1 code))
      as [a ->]; [auto|auto|lia|].
    rewrite bind_Some.
    destruct (gather_put_one_returns L1 max1 jj (rows_for AP1 code))
      as [b ->]; [auto|auto|lia|].
    rewrite bind_Some. eexists; reflexivity.
  - destruct (0 <? length (rows_for AP2 code))%nat eqn:N2.
    + apply Nat.ltb_lt in N2.
      destruct (gather_put_one_returns L0 min2 jj (rows_for AP2 code))
        as [a ->]; [auto|auto|lia|].
      rewrite bind_Some.
      destruct (gather_put_one_returns L1 max2 jj (rows_for AP2 code))
        as [b ->]; [auto|auto|lia|].
      rewrite bind_Some. eexists; reflexivity.
    + eexists; reflexivity.
Qed.

Lemma resolve_side_length {V} (code : string) (jj : list nat)
      (L0 L1 : list V) (AP1 : list string) (min1 max1 : list V)
      (AP2 : list string) (min2 max2 : list V) (L0' L1' : list V) :
  resolve_side code jj L0 L1 AP1 min1 max1 AP2 min2 max2 = Some (L0', L1') ->
  length L0' = length L0 /\ length L1' = length L1.
Proof.
  unfold resolve_side. cbv zeta. intros H.
  destruct (0 <? _)%nat.
  - destruct (gather_put L0 jj min1 _) as [a|] eqn:G0; [|discriminate].
    rewrite bind_Some in H.
    destruct (gather_put L1 jj max1 _) as [b|] eqn:G1; [|discriminate].
    rewrite bind_Some in H. injection H as <- <-.
    now destruct (gather_put_pair _ _ _ _ _ _ _ _ G0 G1) as (_ & _ & ? & ?).
  - destruct (0 <? _)%nat.
    + destruct (gather_put L0 jj min2 _) as [a|] eqn:G0; [|discriminate].
      rewrite bind_Some in H.
      destruct (gather_put L1 jj max2 _) as [b|] eqn:G1; [|discriminate].
      rewrite bind_Some in H. injection H as <- <-.
      now destruct (gather_put_pair _ _ _ _ _ _ _ _ G0 G1) as (_ & _ & ? & ?).
    + now injection H as <- <-.
Qed.

(** The loop body returns for a key with a delimiter when the output
    arrays are as long as the master list, the columns of each table as
    long as its key column, and no table has two rows for a code. *)
Lemma merged_step_returns {V} (all_AP : list string)
      (MMTallAP : list string) (MMTallLMIN0 MMTallLMAX0 : list V)
      (MMTsingleAP : list string) (MMTsingleLMIN0 MMTsingleLMAX0 : list V)
      (DEIMOSAP : list string) (DEIMOSLMIN0 DEIMOSLMAX0 : list V)
      (DEIMOS00AP : list string) (DEIMOS00LMIN0 DEIMOS00LMAX0 : list V)
      (m0 m1 k0 k1 : list V) (bothap mmt keck : string) (rest : list string) :
  split "," bothap = mmt :: keck :: rest ->
  Forall (fun c => length c = length all_AP) [m0; m1; k0; k1] ->
  Forall (fun c => length c = length MMTallAP) [MMTallLMIN0; MMTallLMAX0] ->
  Forall (fun c => length c = length MMTsingleAP) [MMTsingleLMIN0; MMTsingleLMAX0] ->
  Forall (fun c => length c = length DEIMOSAP) [DEIMOSLMIN0; DEIMOSLMAX0] ->
  Forall (fun c => length c = length DEIMOS00AP) [DEIMOS00LMIN0; DEIMOS00LMAX0] ->
  (length (rows_for MMTallAP mmt) <= 1)%nat ->
  (length (rows_for MMTsingleAP mmt) <= 1)%nat ->
  (length (rows_for DEIMOSAP keck) <= 1)%nat ->
  (length (rows_for DEIMOS00AP keck) <= 1)%nat ->
  is_Some (merged_step all_AP MMTallAP MMTallLMIN0 MMTallLMAX0
                       MMTsingleAP MMTsingleLMIN0 MMTsingleLMAX0
                       DEIMOSAP DEIMOSLMIN0 DEIMOSLMAX0
                       DEIMOS00AP DEIMOS00LMIN0 DEIMOS00LMAX0
                       (m0, m1, k0, k1) bothap).
Proof.
  intros Hsplit Hall H1 H2 H3 H4 U1 U2 U3 U4.
  repeat match goal with
         | H : Forall _ (_ :: _) |- _ =>
             apply Forall_cons in H; let E := fresh "E" in destruct H as [E H]
         end.
  unfold merged_step. rewrite Hsplit. cbn [lookup list_lookup].
  rewrite !bind_Some. cbv zeta.
  assert (Hjj : forall L : list V, length L = length all_AP ->
                  in_range L (merged_targets all_AP mmt) = true).
  { intros L HL. apply in_range_index_where. lia. }
  destruct (resolve_side_returns mmt (merged_targets all_AP mmt) m0 m1
              MMTallAP MMTallLMIN0 MMTallLMAX0
              MMTsingleAP MMTsingleLMIN0 MMTsingleLMAX0)
    as [[a b] ->]; auto.
  rewrite bind_Some.
  destruct (resolve_side_returns keck (merged_targets all_AP mmt) k0 k1
              DEIMOSAP DEIMOSLMIN0 DEIMOSLMAX0
              DEIMOS00AP DEIMOS00LMIN0 DEIMOS00LMAX0)
    as [[c d] ->]; auto.
Qed.

Lemma get_LMIN0_LMAX0_unique {V} (all_AP detect_AP : list string)
      (a1 d1 a2 d2 a3 d3 a4 d4 : list V) :
  Forall (fun c => length c = length all_AP) [a1; a2; a3; a4] ->
  Forall (fun c => length c = length detect_AP) [d1; d2; d3; d4] ->
  (forall k, k ∈ detect_AP -> (length (np_where_eq all_AP k) <= 1)%nat) ->
  get_LMIN0_LMAX0 all_AP detect_AP a1 d1 a2 d2 a3 d3 a4 d4
  = Some (spec_join all_AP (zip detect_AP d1) a1,
          spec_join all_AP (zip detect_AP d2) a2,
          spec_join all_AP (zip detect_AP d3) a3,
          spec_join all_AP (zip detect_AP d4) a4).
Proof.
  intros Ha Hd Hu.
  repeat match goal with
         | H : Forall _ (_ :: _) |- _ =>
             apply Forall_cons in H; let E := fresh "E" in destruct H as [E H]
         end.
  unfold get_LMIN0_LMAX0. cbv zeta.
  rewrite (gather_put_unique all_AP detect_AP a1 d1), bind_Some by assumption.
  rewrite (gather_put_unique all_AP detect_AP a2 d2), bind_Some by assumption.
  rewrite (gather_put_unique all_AP detect_AP a3 d3), bind_Some by assumption.
  rewrite (gather_put_unique all_AP detect_AP a4 d4), bind_Some by assumption.
  reflexivity.
Qed.

(** A table whose wavelength columns are as long as its key column and
    none of whose keys occurs twice in the master list. *)
Definition joinable {V} (AP : list string) (c : line_fit V) : Prop :=
  length (cat_LMIN0 c) = length (cat_AP c)
  /\ length (cat_LMAX0 c) = length (cat_AP c)
  /\ forall k, k ∈ cat_AP c -> (length (np_where_eq AP k) <= 1)%nat.

(** The four single-source wavelength joins return for such tables. *)
Lemma single_LMIN0_LMAX0_returns {V} (sentinel : V)
      (MMTall MMTsingle DEIMOS DEIMOS00 : line_fit V) (AP : list string) :
  joinable AP MMTall -> joinable AP MMTsingle ->
  joinable AP DEIMOS -> joinable AP DEIMOS00 ->
  is_Some (single_LMIN0_LMAX0 sentinel MMTall MMTsingle DEIMOS DEIMOS00 AP).
Proof.
  intros (A1 & A2 & A3) (B1 & B2 & B3) (C1 & C2 & C3) (D1 & D2 & D3).
  unfold single_LMIN0_LMAX0. cbv zeta.
  rewrite get_LMIN0_LMAX0_unique, bind_Some
    by (first [assumption
              | repeat constructor; rewrite ?spec_join_length;
                first [apply length_replicate | assumption]]).
  rewrite get_LMIN0_LMAX0_unique, bind_Some
    by (first [assumption
              | repeat constructor; rewrite ?spec_join_length;
                first [apply length_replicate | assumption]]).
  rewrite get_LMIN0_LMAX0_unique, bind_Some
    by (first [assumption
              | repeat constructor; rewrite ?spec_join_length;
                first [apply length_replicate | assumption]]).
  rewrite get_LMIN0_LMAX0_unique
    by (first [assumption
              | repeat constructor; rewrite ?spec_join_length;
                first [apply length_replicate | assumption]]).
  eexists; reflexivity.
Qed.

(** * Further properties of the key builder *)

Lemma length_substring_le_length (n m : nat) (s : string) :
  (String.length (substring n m s) <= String.length s)%nat.
Proof.
  revert n m. induction s as [|c s IH]; intros n m.
  - destruct n, m; simpl; lia.
  - destruct n as [|n].
    + destruct m as [|m]; simpl; [lia|]. specialize (IH 0%nat m). lia.
    + simpl. specialize (IH n m). lia.
Qed.

Lemma np_S_length_le (w : nat) (s : string) :
  (String.length (np_S w s) <= String.length s)%nat.
Proof.
  unfold np_S. etransitivity; [apply rstrip_nul_length|].
  apply length_substring_le_length.
Qed.

Lemma stored_slice_length (a b : nat) (x : string) :
  (String.length (np_S 20 (slice a b x)) <= b - a)%nat.
Proof.
  etransitivity; [apply np_S_length_le|apply length_slice_le].
Qed.

(** The longest key is ["INVALID_KECK"]. *)
Lemma decode_length (raw : string) : (String.length (decode raw) <= 12)%nat.
Proof.
  assert (H1 : (String.length (decode_MMT raw) <= 12)%nat).
  { unfold decode_MMT. destruct (raw =? "N/A"); [simpl; lia|].
    destruct (MMT_pattern raw); [|simpl; lia].
    pose proof (np_S_length 5 raw). lia. }
  assert (H2 : forall x, (String.length x <= 12)%nat ->
                         (String.length (decode_DEIMOS raw x) <= 12)%nat).
  { intros x Hx. unfold decode_DEIMOS.
    destruct (is_Keck raw), (is_Keck_invalid raw), (is_KeckKeck_invalid raw),
      (is_KeckKeck_second raw);
      first [ exact Hx
            | etransitivity; [apply stored_slice_length|lia]
            | vm_compute; lia ]. }
  assert (H3 : forall x, (String.length x <= 12)%nat ->
                         (String.length (decode_merged raw x) <= 12)%nat).
  { intros x Hx. unfold decode_merged.
    destruct (is_merged raw), (is_MMT_Keck_invalid raw), (is_merged_FOCAS raw);
      first [ exact Hx
            | etransitivity; [apply stored_slice_length|lia] ]. }
  assert (H4 : forall x, (String.length x <= 12)%nat ->
                         (String.length (decode_FOCAS raw x) <= 12)%nat).
  { intros x Hx. unfold decode_FOCAS.
    destruct (is_FOCAS raw), (is_FOCAS3 raw), (is_FOCAS2 raw), (is_MMT_FOCAS raw),
      (is_Keck_FOCAS raw), (is_KeckKeck_FOCAS raw), (is_Keck_FOCAS2 raw);
      first [ exact Hx
            | etransitivity; [apply stored_slice_length|lia]
            | vm_compute; lia ]. }
  unfold decode. auto.
Qed.

(** X1. The key builder returns exactly when no raw string is empty
    and every index array that the stages build without [dtype] selects
    something, that is, when the master list holds a raw string of each
    of the fourteen shapes these arrays look for. An empty raw string
    stops the first guard of stage 4, which reads the first character
    before it looks at the length; an empty untyped index array is
    refused as an index. When the builder raises, so does the driver,
    whatever its other arguments are. *)
Theorem ordered_AP_returns_iff (slit_str0 : list string) :
  (ordered_AP slit_str0 = None
   <-> EmptyString ∈ slit_str0 \/ populated slit_str0 = false)
  /\ (ordered_AP slit_str0 = None ->
      forall (V : Type) (sentinel : V)
             (MMTall MMTsingle DEIMOS DEIMOS00 : line_fit V) (merged : merged_fit V)
             (inst_str0 : list string) (AP_only : bool),
        create_ordered_AP_arrays sentinel MMTall MMTsingle DEIMOS DEIMOS00 merged
                                 slit_str0 inst_str0 AP_only = None).
Proof.
  split; [split|].
  - intros H. destruct (decide (EmptyString ∈ slit_str0)) as [Hin|Hnin]; [now left|].
    right. rewrite ordered_AP_run in H.
    + now destruct (populated slit_str0).
    + apply Forall_forall. intros raw Hraw ->. contradiction.
  - intros [Hin|Hpop]; [now apply ordered_AP_raises|].
    destruct (ordered_AP slit_str0) as [AP|] eqn:E; [|reflexivity].
    apply ordered_AP_populated in E. congruence.
  - intros H V sentinel MMTall MMTsingle DEIMOS DEIMOS00 merged inst AP_only.
    unfold create_ordered_AP_arrays. now rewrite H.
Qed.

(** X2. The key of a slot depends on the raw string of that slot only:
    two arrays that agree at a slot get the same key there. *)
Theorem ordered_AP_slotwise (slit_str0 slit_str0' AP AP' : list string) (i : nat) :
  ordered_AP slit_str0 = Some AP ->
  ordered_AP slit_str0' = Some AP' ->
  slit_str0 !! i = slit_str0' !! i ->
  AP !! i = AP' !! i.
Proof.
  intros [_ ->]%ordered_AP_Some [_ ->]%ordered_AP_Some Heq.
  now rewrite !list_lookup_map, Heq.
Qed.

Lemma ordered_AP_slotwise_witness :
  demo_AP !! 0%nat = (demo_AP ++ ["S.999"])%list !! 0%nat.
Proof.
  exact (ordered_AP_slotwise demo_slit_str0 (demo_slit_str0 ++ ["S.999,"])%list
           demo_AP (demo_AP ++ ["S.999"])%list 0%nat
           demo_keys eq_refl eq_refl).
Defined.

(** X3. Every key that the builder returns has at most twelve
    characters (the length of ["INVALID_KECK"]), and the returned array
    is as long as the master list. *)
Theorem ordered_AP_key_length (slit_str0 AP : list string) :
  ordered_AP slit_str0 = Some AP ->
  length AP = length slit_str0
  /\ Forall (fun k => (String.length k <= 12)%nat) AP.
Proof.
  intros [_ ->]%ordered_AP_Some. split; [apply length_map|].
  apply Forall_forall. intros k Hk.
  apply list_elem_of_In, in_map_iff in Hk as (raw & <- & _).
  apply decode_length.
Qed.

Lemma ordered_AP_key_length_witness :
  length demo_AP = length demo_slit_str0
  /\ Forall (fun k => (String.length k <= 12)%nat) demo_AP.
Proof. exact (ordered_AP_key_length demo_slit_str0 demo_AP demo_keys). Defined.

(** ** Keys through all four stages *)

Lemma char_is_true (c : ascii) (k : nat) (s : string) :
  char_is c k s = true -> String.get k s = Some c.
Proof.
  unfold char_is. destruct (String.get k s) as [d|]; [|discriminate].
  intros H. apply Ascii.eqb_eq in H. now subst.
Qed.

Lemma get_str_in (c : ascii) (k : nat) (s : string) :
  String.get k s = Some c -> str_in (String c EmptyString) s = true.
Proof.
  revert k. induction s as [|d s IH]; intros k Hget; [destruct k; discriminate|].
  destruct k as [|k]; simpl in Hget.
  - injection Hget as ->. simpl.
    destruct (ascii_dec c c); [|contradiction]. now rewrite prefix_empty.
  - cbn [str_in]. rewrite (IH k Hget). apply orb_true_r.
Qed.

Lemma no_char_anywhere (c : ascii) (k : nat) (s : string) :
  str_in (String c EmptyString) s = false -> char_is c k s = false.
Proof.
  intros Hno. destruct (char_is c k s) eqn:H; [|reflexivity].
  apply char_is_true, get_str_in in H. congruence.
Qed.

Lemma not_NA_by_length (raw : string) :
  String.length raw <> 3%nat -> (raw =? "N/A") = false.
Proof. intros H. apply String.eqb_neq. intros ->. now apply H. Qed.

Ltac norm :=
  cbn [Nat.eqb Nat.ltb Nat.leb andb negb orb];
  rewrite ?andb_false_r, ?andb_true_r; cbn [andb negb orb].

(** The facts that a raw string without ["f"] gives about the guards. *)
Ltac no_marker Hf raw :=
  pose proof (no_char_anywhere "f" 0 raw Hf) as F0;
  pose proof (no_char_anywhere "f" 6 raw Hf) as F6;
  pose proof (no_char_anywhere "f" 7 raw Hf) as F7;
  pose proof (no_char_anywhere "f" 13 raw Hf) as F13;
  pose proof (no_char_anywhere "f" 14 raw Hf) as F14.

(** The facts that ["f"] as first character gives about the guards. *)
Ltac marker_first H0 raw :=
  pose proof (get_str_in _ _ _ (char_is_true _ _ _ H0)) as Fall;
  pose proof (get_str_in_prefix _ 0 6 raw (char_is_true _ _ _ H0) ltac:(lia)) as Fs6;
  pose proof (get_str_in_prefix _ 0 13 raw (char_is_true _ _ _ H0) ltac:(lia)) as Fs13.

Ltac open_decode :=
  unfold decode, decode_MMT, MMT_pattern; guards.

Lemma decode_MMT_shape (raw : string) :
  nul_free raw = true -> MMT_pattern raw = true -> decode raw = slice 0 5 raw.
Proof.
  intros Hn Hp. pose proof Hp as Hp'.
  unfold MMT_pattern in Hp'. apply andb_prop in Hp' as [Hl _].
  apply Nat.eqb_eq in Hl.
  unfold decode, decode_MMT. rewrite Hp, not_NA_by_length by lia.
  guards. rewrite Hl. norm. now apply np_S_nul_free.
Qed.

Lemma decode_Keck_shape (raw : string) :
  nul_free raw = true -> is_Keck raw = true -> decode raw = slice 0 6 raw.
Proof.
  intros Hn H. unfold is_Keck in H.
  apply andb_prop in H as [[Hl Hf]%andb_prop H0].
  apply Nat.eqb_eq in Hl. apply negb_true_iff in Hf, H0.
  no_marker Hf raw. open_decode.
  rewrite Hl, Hf, H0, F0, not_NA_by_length by lia. norm.
  now rewrite stored_slice by (first [assumption|lia]).
Qed.

Lemma decode_Keck_invalid_shape (raw : string) :
  is_Keck_invalid raw = true -> decode raw = "INVALID_KECK".
Proof.
  intros H. unfold is_Keck_invalid in H.
  apply andb_prop in H as [[Hl Hf]%andb_prop H0].
  apply Nat.eqb_eq in Hl. apply negb_true_iff in Hf.
  no_marker Hf raw. open_decode.
  rewrite Hl, Hf, H0, F0, not_NA_by_length by lia. norm. reflexivity.
Qed.

Lemma decode_KeckKeck_invalid_shape (raw : string) :
  is_KeckKeck_invalid raw = true -> decode raw = "INVALID_KECK".
Proof.
  intros H. unfold is_KeckKeck_invalid in H.
  apply andb_prop in H as [[[Hl Hf]%andb_prop H7]%andb_prop H0].
  apply Nat.eqb_eq in Hl. apply negb_true_iff in Hf.
  no_marker Hf raw. open_decode.
  rewrite Hl, Hf, H0, H7, F0, F7, F13, not_NA_by_length by lia. norm. reflexivity.
Qed.

Lemma decode_KeckKeck_second_shape (raw : string) :
  nul_free raw = true -> is_KeckKeck_second raw = true ->
  decode raw = slice 7 13 raw.
Proof.
  intros Hn H. unfold is_KeckKeck_second in H.
  apply andb_prop in H as [[[Hl Hf]%andb_prop H0]%andb_prop H7].
  apply Nat.eqb_eq in Hl. apply negb_true_iff in Hf, H7.
  no_marker Hf raw. open_decode.
  rewrite Hl, Hf, H0, H7, F0, F7, F13, not_NA_by_length by lia. norm.
  now rewrite stored_slice by (first [assumption|lia]).
Qed.

Lemma decode_FOCAS_shape (raw : string) :
  is_FOCAS raw = true -> decode raw = "FOCAS".
Proof.
  intros H. unfold is_FOCAS in H. apply andb_prop in H as [H0 Hl].
  apply Nat.eqb_eq in Hl. marker_first H0 raw. open_decode.
  rewrite Hl, H0, Fall, not_NA_by_length by lia. norm. reflexivity.
Qed.

Lemma decode_FOCAS2_shape (raw : string) :
  is_FOCAS2 raw = true -> decode raw = "FOCAS".
Proof.
  intros H. unfold is_FOCAS2 in H.
  apply andb_prop in H as [[Hl H0]%andb_prop H7].
  apply Nat.eqb_eq in Hl. marker_first H0 raw. open_decode.
  rewrite Hl, H0, H7, Fall, Fs6, not_NA_by_length by lia. norm. reflexivity.
Qed.

Lemma decode_FOCAS3_shape (raw : string) :
  is_FOCAS3 raw = true -> decode raw = "FOCAS".
Proof.
  intros H. unfold is_FOCAS3 in H.
  apply andb_prop in H as [[[Hl H0]%andb_prop H7]%andb_prop H14].
  apply Nat.eqb_eq in Hl. marker_first H0 raw. open_decode.
  rewrite Hl, H0, H7, H14, Fall, Fs6, Fs13, not_NA_by_length by lia.
  norm. reflexivity.
Qed.

Lemma decode_merged_shape (raw : string) :
  nul_free raw = true -> is_merged raw = true -> decode raw = slice 0 12 raw.
Proof.
  intros Hn H. unfold is_merged in H.
  apply andb_prop in H as [[[Hl Hc]%andb_prop Hf]%andb_prop H6].
  apply Nat.eqb_eq in Hl. apply negb_true_iff in Hf, H6.
  no_marker Hf raw. open_decode.
  rewrite Hl, Hc, Hf, H6, F6, not_NA_by_length by lia. norm.
  now rewrite stored_slice by (first [assumption|lia]).
Qed.

Lemma decode_MMT_Keck_invalid_shape (raw : string) :
  nul_free raw = true -> is_MMT_Keck_invalid raw = true ->
  decode raw = slice 0 5 raw.
Proof.
  intros Hn H. unfold is_MMT_Keck_invalid in H.
  apply andb_prop in H as [[[Hl Hc]%andb_prop Hf]%andb_prop H6].
  apply Nat.eqb_eq in Hl. apply negb_true_iff in Hf.
  no_marker Hf raw. open_decode.
  rewrite Hl, Hc, Hf, H6, F6, not_NA_by_length by lia. norm.
  now rewrite stored_slice by (first [assumption|lia]).
Qed.

Lemma decode_merged_FOCAS_shape (raw : string) :
  nul_free raw = true -> is_merged_FOCAS raw = true ->
  String.length raw <> 14%nat -> String.length raw <> 21%nat ->
  decode raw = slice 0 12 raw.
Proof.
  intros Hn H H14 H21. unfold is_merged_FOCAS in H.
  apply andb_prop in H as [[Hl Hc]%andb_prop H08].
  pose proof Hl as Hlt. apply Nat.ltb_lt in Hlt.
  assert (E6 : (String.length raw =? 6)%nat = false) by (apply Nat.eqb_neq; lia).
  assert (E7 : (String.length raw =? 7)%nat = false) by (apply Nat.eqb_neq; lia).
  assert (E13 : (String.length raw =? 13)%nat = false) by (apply Nat.eqb_neq; lia).
  assert (E14 : (String.length raw =? 14)%nat = false) by (apply Nat.eqb_neq; lia).
  assert (E21 : (String.length raw =? 21)%nat = false) by (apply Nat.eqb_neq; lia).
  apply negb_true_iff in H08. open_decode.
  rewrite E6, E7, E13, E14, E21, Hl, Hc, H08, not_NA_by_length by lia. norm.
  now rewrite stored_slice by (first [assumption|lia]).
Qed.

(** X4. Through all four stages: ["N/A"] stays ["N/A"]; a six-character
    MMT string gives its first five characters; a Keck string (seven
    characters, no ["f"]) gives its first six characters, or
    ["INVALID_KECK"] when it starts with ["08."]; a double Keck string
    gives ["INVALID_KECK"] or its second code; one, two or three FOCAS
    detections give ["FOCAS"]. No later stage touches what an earlier
    one decided for these shapes. *)
Theorem ordered_AP_single_shapes (slit_str0 AP : list string) (i : nat) (raw : string) :
  ordered_AP slit_str0 = Some AP ->
  slit_str0 !! i = Some raw ->
  nul_free raw = true ->
  (raw = "N/A" -> AP !! i = Some "N/A")
  /\ (MMT_pattern raw = true -> AP !! i = Some (slice 0 5 raw))
  /\ (is_Keck raw = true -> AP !! i = Some (slice 0 6 raw))
  /\ (is_Keck_invalid raw = true -> AP !! i = Some "INVALID_KECK")
  /\ (is_KeckKeck_invalid raw = true -> AP !! i = Some "INVALID_KECK")
  /\ (is_KeckKeck_second raw = true -> AP !! i = Some (slice 7 13 raw))
  /\ (is_FOCAS raw || is_FOCAS2 raw || is_FOCAS3 raw = true ->
      AP !! i = Some "FOCAS").
Proof.
  intros [_ ->]%ordered_AP_Some Hraw Hn.
  rewrite list_lookup_map, Hraw. cbn [fmap option_fmap option_map].
  repeat split; intros H; f_equal.
  - now subst raw.
  - now apply decode_MMT_shape.
  - now apply decode_Keck_shape.
  - now apply decode_Keck_invalid_shape.
  - now apply decode_KeckKeck_invalid_shape.
  - now apply decode_KeckKeck_second_shape.
  - apply orb_prop in H as [[H|H]%orb_prop|H].
    + now apply decode_FOCAS_shape.
    + now apply decode_FOCAS2_shape.
    + now apply decode_FOCAS3_shape.
Qed.

Lemma ordered_AP_single_shapes_witness :
  demo_AP !! 0%nat = Some (slice 0 5 "S.123,")
  /\ demo_AP !! 1%nat = Some (slice 0 6 "12.345,")
  /\ demo_AP !! 11%nat = Some "FOCAS".
Proof.
  pose proof (fun i raw =>
    ordered_AP_single_shapes demo_slit_str0 demo_AP i raw demo_keys) as H.
  destruct (H 0%nat "S.123," eq_refl eq_refl) as (_ & H0 & _).
  destruct (H 1%nat "12.345," eq_refl eq_refl) as (_ & _ & H1 & _).
  destruct (H 11%nat "f12345,f11111," eq_refl eq_refl)
    as (_ & _ & _ & _ & _ & _ & H2).
  split; [exact (H0 eq_refl)|]. split; [exact (H1 eq_refl)|exact (H2 eq_refl)].
Defined.

(** X5. Through all four stages, the merged shapes of stage 3 keep
    their keys: the twelve characters of both codes, the five of the MMT
    code when the Keck code starts with ["08."], and the twelve
    characters of a merged detection followed by FOCAS ones, as long as
    that string has neither 14 nor 21 characters (the lengths that
    stage 4 looks at). *)
Theorem ordered_AP_merged_shapes (slit_str0 AP : list string) (i : nat) (raw : string) :
  ordered_AP slit_str0 = Some AP ->
  slit_str0 !! i = Some raw ->
  nul_free raw = true ->
  (is_merged raw = true -> AP !! i = Some (slice 0 12 raw))
  /\ (is_MMT_Keck_invalid raw = true -> AP !! i = Some (slice 0 5 raw))
  /\ (is_merged_FOCAS raw = true ->
      String.length raw <> 14%nat -> String.length raw <> 21%nat ->
      AP !! i = Some (slice 0 12 raw)).
Proof.
  intros [_ ->]%ordered_AP_Some Hraw Hn.
  rewrite list_lookup_map, Hraw. cbn [fmap option_fmap option_map].
  repeat split; intros; f_equal.
  - now apply decode_merged_shape.
  - now apply decode_MMT_Keck_invalid_shape.
  - now apply decode_merged_FOCAS_shape.
Qed.

Lemma ordered_AP_merged_shapes_witness :
  demo_AP !! 2%nat = Some (slice 0 12 "S.555,12.999,")
  /\ demo_AP !! 9%nat = Some (slice 0 5 "A.777,08.345,")
  /\ (demo_AP ++ ["S.123,12.345"])%list !! 17%nat
     = Some (slice 0 12 "S.123,12.345,f12345,").
Proof.
  pose proof (fun i raw =>
    ordered_AP_merged_shapes demo_slit_str0 demo_AP i raw demo_keys) as H.
  destruct (H 2%nat "S.555,12.999," eq_refl eq_refl) as (H0 & _).
  destruct (H 9%nat "A.777,08.345," eq_refl eq_refl) as (_ & H1 & _).
  destruct (ordered_AP_merged_shapes
              (demo_slit_str0 ++ ["S.123,12.345,f12345,"])%list
              (demo_AP ++ ["S.123,12.345"])%list 17%nat "S.123,12.345,f12345,"
              eq_refl eq_refl eq_refl) as (_ & _ & H2).
  split; [exact (H0 eq_refl)|]. split; [exact (H1 eq_refl)|].
  apply H2; [reflexivity|simpl; lia|simpl; lia].
Defined.

(** ** The guards of one stage *)

Definition count_true (l : list bool) : nat := length (List.filter (fun b => b) l).

Definition any_DEIMOS (raw : string) : bool :=
  is_Keck raw || is_Keck_invalid raw || is_KeckKeck_invalid raw
  || is_KeckKeck_second raw.

Definition any_merged (raw : string) : bool :=
  is_merged raw || is_MMT_Keck_invalid raw || is_merged_FOCAS raw.

Definition any_FOCAS (raw : string) : bool :=
  is_FOCAS raw || is_FOCAS3 raw || is_FOCAS2 raw || is_MMT_FOCAS raw
  || is_Keck_FOCAS raw || is_KeckKeck_FOCAS raw || is_Keck_FOCAS2 raw.

(** The guards of each stage, in the order of the source. *)
Definition stage1_guards (raw : string) : list bool :=
  [raw =? "N/A";
   ("S." =? slice 0 2 raw) && (String.length raw =? 6)%nat;
   ("A." =? slice 0 2 raw) && (String.length raw =? 6)%nat;
   ("D." =? slice 0 2 raw) && (String.length raw =? 6)%nat;
   ("1." =? slice 0 2 raw) && (String.length raw =? 6)%nat;
   ("2." =? slice 0 2 raw) && (String.length raw =? 6)%nat;
   ("3." =? slice 0 2 raw) && (String.length raw =? 6)%nat;
   ("4." =? slice 0 2 raw) && (String.length raw =? 6)%nat].

Definition stage2_guards (raw : string) : list bool :=
  [is_Keck raw; is_Keck_invalid raw; is_KeckKeck_invalid raw; is_KeckKeck_second raw].

Definition stage3_guards (raw : string) : list bool :=
  [is_merged raw; is_MMT_Keck_invalid raw; is_merged_FOCAS raw].

Definition stage4_guards (raw : string) : list bool :=
  [is_FOCAS raw; is_FOCAS3 raw; is_FOCAS2 raw; is_MMT_FOCAS raw;
   is_Keck_FOCAS raw; is_KeckKeck_FOCAS raw; is_Keck_FOCAS2 raw].

(** X6. Within each stage the guards exclude each other: no raw string
    satisfies two comprehensions of the same stage, so the order of the
    assignments inside a stage does not matter. *)
Theorem stage_guards_exclusive (raw : string) :
  (count_true (stage1_guards raw) <= 1)%nat
  /\ (count_true (stage2_guards raw) <= 1)%nat
  /\ (count_true (stage3_guards raw) <= 1)%nat
  /\ (count_true (stage4_guards raw) <= 1)%nat.
Proof.
  unfold stage1_guards, stage2_guards, stage3_guards, stage4_guards.
  split; [|split; [|split]].
  - destruct (String.eqb_spec raw "N/A") as [->|_]; [vm_compute; lia|].
    destruct (String.length raw =? 6)%nat; rewrite ?andb_false_r, ?andb_true_r;
      [|vm_compute; lia].
    destruct (String.eqb_spec "S." (slice 0 2 raw)),
      (String.eqb_spec "A." (slice 0 2 raw)),
      (String.eqb_spec "D." (slice 0 2 raw)),
      (String.eqb_spec "1." (slice 0 2 raw)),
      (String.eqb_spec "2." (slice 0 2 raw)),
      (String.eqb_spec "3." (slice 0 2 raw)),
      (String.eqb_spec "4." (slice 0 2 raw));
      try (exfalso; congruence); vm_compute; lia.
  - guards.
    destruct (Nat.eqb_spec (String.length raw) 7),
      (Nat.eqb_spec (String.length raw) 14); try lia;
      destruct (str_in "f" raw), ("08." =? slice 0 3 raw), ("08." =? slice 7 10 raw);
      vm_compute; lia.
  - guards.
    destruct (Nat.eqb_spec (String.length raw) 13) as [E|E].
    + rewrite E. cbn [Nat.ltb Nat.leb andb].
      destruct (char_is "," 5 raw), (str_in "f" raw), ("08." =? slice 6 9 raw);
        vm_compute; lia.
    + cbn [andb]. destruct (_ && _ && _); vm_compute; lia.
  - pose proof (fun H => get_str_in_prefix "f" 0 6 raw (char_is_true _ _ _ H)
                           ltac:(lia)) as R06.
    pose proof (fun H => get_str_in_prefix "f" 0 13 raw (char_is_true _ _ _ H)
                           ltac:(lia)) as R013.
    pose proof (fun H => get_str_in_prefix "f" 7 13 raw (char_is_true _ _ _ H)
                           ltac:(lia)) as R713.
    guards.
    destruct (Nat.eqb_spec (String.length raw) 7),
      (Nat.eqb_spec (String.length raw) 21),
      (Nat.eqb_spec (String.length raw) 14),
      (Nat.eqb_spec (String.length raw) 13); try lia;
      destruct (char_is "f" 0 raw), (char_is "f" 7 raw), (char_is "f" 14 raw),
        (char_is "f" 6 raw), (str_in "f" (slice 0 6 raw)),
        (str_in "f" (slice 0 13 raw)), ("08." =? slice 0 3 raw);
      try (specialize (R06 eq_refl); discriminate);
      try (specialize (R013 eq_refl); discriminate);
      try (specialize (R713 eq_refl); discriminate);
      vm_compute; lia.
Qed.

Lemma decode_DEIMOS_frame (raw x : string) :
  any_DEIMOS raw = false -> decode_DEIMOS raw x = x.
Proof.
  unfold any_DEIMOS. intros H. repeat (apply orb_false_elim in H as [H ?]).
  unfold decode_DEIMOS.
  repeat match goal with E : _ = false |- _ => rewrite E; clear E end.
  reflexivity.
Qed.

Lemma decode_merged_frame (raw x : string) :
  any_merged raw = false -> decode_merged raw x = x.
Proof.
  unfold any_merged. intros H. repeat (apply orb_false_elim in H as [H ?]).
  unfold decode_merged.
  repeat match goal with E : _ = false |- _ => rewrite E; clear E end.
  reflexivity.
Qed.

Lemma decode_FOCAS_frame (raw x : string) :
  any_FOCAS raw = false -> decode_FOCAS raw x = x.
Proof.
  unfold any_FOCAS. intros H. repeat (apply orb_false_elim in H as [H ?]).
  unfold decode_FOCAS.
  repeat match goal with E : _ = false |- _ => rewrite E; clear E end.
  reflexivity.
Qed.

Lemma decode_DEIMOS_from_raw (raw x y : string) :
  any_DEIMOS raw = true -> decode_DEIMOS raw x = decode_DEIMOS raw y.
Proof.
  unfold any_DEIMOS, decode_DEIMOS.
  destruct (is_Keck raw), (is_Keck_invalid raw), (is_KeckKeck_invalid raw),
    (is_KeckKeck_second raw); cbn [orb]; intros H;
    first [reflexivity|discriminate].
Qed.

Lemma decode_merged_from_raw (raw x y : string) :
  any_merged raw = true -> decode_merged raw x = decode_merged raw y.
Proof.
  unfold any_merged, decode_merged.
  destruct (is_merged raw), (is_MMT_Keck_invalid raw), (is_merged_FOCAS raw);
    cbn [orb]; intros H; first [reflexivity|discriminate].
Qed.

Lemma decode_FOCAS_from_raw (raw x y : string) :
  any_FOCAS raw = true -> decode_FOCAS raw x = decode_FOCAS raw y.
Proof.
  unfold any_FOCAS, decode_FOCAS.
  destruct (is_FOCAS raw), (is_FOCAS3 raw), (is_FOCAS2 raw), (is_MMT_FOCAS raw),
    (is_Keck_FOCAS raw), (is_KeckKeck_FOCAS raw), (is_Keck_FOCAS2 raw);
    cbn [orb]; intros H; first [reflexivity|discriminate].
Qed.

(** X7. A stage changes a slot only where one of its guards accepts the
    raw string: every other slot holds after the stage what it held
    before. *)
Theorem stages_keep_unmatched_slots (AP slit_str0 AP' : list string)
        (i : nat) (raw : string) :
  length AP = length slit_str0 ->
  slit_str0 !! i = Some raw ->
  (make_AP_arr_DEIMOS AP slit_str0 = Some AP' -> any_DEIMOS raw = false ->
   AP' !! i = AP !! i)
  /\ (make_AP_arr_merged AP slit_str0 = Some AP' -> any_merged raw = false ->
      AP' !! i = AP !! i)
  /\ (make_AP_arr_FOCAS AP slit_str0 = Some AP' -> any_FOCAS raw = false ->
      AP' !! i = AP !! i).
Proof.
  intros Hlen Hraw.
  destruct (lookup_lt_is_Some_2 AP i) as [x Hx];
    [apply lookup_lt_Some in Hraw; lia|].
  repeat split; intros H Hno.
  - apply make_AP_arr_DEIMOS_Some in H as [_ ->]; [|exact Hlen].
    rewrite list_lookup_imap, Hx. cbn [fmap option_fmap option_map].
    now rewrite (item_lookup _ _ _ Hraw), decode_DEIMOS_frame.
  - apply make_AP_arr_merged_Some in H as [_ ->]; [|exact Hlen].
    rewrite list_lookup_imap, Hx. cbn [fmap option_fmap option_map].
    now rewrite (item_lookup _ _ _ Hraw), decode_merged_frame.
  - apply make_AP_arr_FOCAS_Some in H as (_ & _ & ->); [|exact Hlen].
    rewrite list_lookup_imap, Hx. cbn [fmap option_fmap option_map].
    now rewrite (item_lookup _ _ _ Hraw), decode_FOCAS_frame.
Qed.

Lemma stages_keep_unmatched_slots_witness :
  ["N/A"; "12.345"; "INVALID_KECK"; "INVALID_KECK"; "12.111"] !! 0%nat
  = ["N/A"; "not_MMT"; "not_MMT"; "not_MMT"; "not_MMT"] !! 0%nat.
Proof.
  destruct (stages_keep_unmatched_slots
              ["N/A"; "not_MMT"; "not_MMT"; "not_MMT"; "not_MMT"]
              ["N/A"; "12.345,"; "08.345,"; "08.345,08.111,"; "08.345,12.111,"]
              ["N/A"; "12.345"; "INVALID_KECK"; "INVALID_KECK"; "12.111"]
              0%nat "N/A" eq_refl eq_refl) as (H & _).
  exact (H eq_refl eq_refl).
Defined.

(** X8. Where a guard of a stage accepts the raw string, what the stage
    writes is decided by the raw string alone: whatever the earlier
    stages left in the slot is overwritten. *)
Theorem stages_write_from_raw (AP1 AP2 slit_str0 R1 R2 : list string)
        (i : nat) (raw : string) :
  length AP1 = length slit_str0 ->
  length AP2 = length slit_str0 ->
  slit_str0 !! i = Some raw ->
  (make_AP_arr_DEIMOS AP1 slit_str0 = Some R1 ->
   make_AP_arr_DEIMOS AP2 slit_str0 = Some R2 ->
   any_DEIMOS raw = true -> R1 !! i = R2 !! i)
  /\ (make_AP_arr_merged AP1 slit_str0 = Some R1 ->
      make_AP_arr_merged AP2 slit_str0 = Some R2 ->
      any_merged raw = true -> R1 !! i = R2 !! i)
  /\ (make_AP_arr_FOCAS AP1 slit_str0 = Some R1 ->
      make_AP_arr_FOCAS AP2 slit_str0 = Some R2 ->
      any_FOCAS raw = true -> R1 !! i = R2 !! i).
Proof.
  intros Hlen1 Hlen2 Hraw.
  destruct (lookup_lt_is_Some_2 AP1 i) as [x Hx];
    [apply lookup_lt_Some in Hraw; lia|].
  destruct (lookup_lt_is_Some_2 AP2 i) as [y Hy];
    [apply lookup_lt_Some in Hraw; lia|].
  repeat split; intros H1 H2 Hany.
  - apply make_AP_arr_DEIMOS_Some in H1 as [_ ->]; [|assumption].
    apply make_AP_arr_DEIMOS_Some in H2 as [_ ->]; [|assumption].
    rewrite !list_lookup_imap, Hx, Hy. cbn [fmap option_fmap option_map].
    rewrite (item_lookup _ _ _ Hraw). f_equal. now apply decode_DEIMOS_from_raw.
  - apply make_AP_arr_merged_Some in H1 as [_ ->]; [|assumption].
    apply make_AP_arr_merged_Some in H2 as [_ ->]; [|assumption].
    rewrite !list_lookup_imap, Hx, Hy. cbn [fmap option_fmap option_map].
    rewrite (item_lookup _ _ _ Hraw). f_equal. now apply decode_merged_from_raw.
  - apply make_AP_arr_FOCAS_Some in H1 as (_ & _ & ->); [|assumption].
    apply make_AP_arr_FOCAS_Some in H2 as (_ & _ & ->); [|assumption].
    rewrite !list_lookup_imap, Hx, Hy. cbn [fmap option_fmap option_map].
    rewrite (item_lookup _ _ _ Hraw). f_equal. now apply decode_FOCAS_from_raw.
Qed.

Lemma stages_write_from_raw_witness :
  ["12.345"; "INVALID_KECK"; "INVALID_KECK"; "12.111"] !! 0%nat
  = ["12.345"; "INVALID_KECK"; "INVALID_KECK"; "12.111"] !! 0%nat.
Proof.
  destruct (stages_write_from_raw
              ["not_MMT"; "not_MMT"; "not_MMT"; "not_MMT"]
              ["S.123"; "N/A"; "x"; "y"]
              ["12.345,"; "08.345,"; "08.345,08.111,"; "08.345,12.111,"]
              ["12.345"; "INVALID_KECK"; "INVALID_KECK"; "12.111"]
              ["12.345"; "INVALID_KECK"; "INVALID_KECK"; "12.111"]
              0%nat "12.345," eq_refl eq_refl eq_refl)
    as (H & _).
  exact (H eq_refl eq_refl eq_refl).
Defined.

(** * Further properties of the joins *)

Lemma gather_put_Some_length {V} (a d r : list V) (i2 i1 : list nat) :
  gather_put a i2 d i1 = Some r -> length r = length a.
Proof.
  unfold gather_put. destruct (take d i1) as [vals|]; [|discriminate].
  rewrite bind_Some. now intros [_ H]%put_Some_in_range.
Qed.

Lemma gather_put_frame {V} (a d r : list V) (i2 i1 : list nat) (p : nat) :
  gather_put a i2 d i1 = Some r -> p ∉ i2 -> r !! p = a !! p.
Proof.
  intros H Hp. destruct (gather_put_pair a a d d r r i2 i1 H H) as (_ & F & _).
  now destruct (F p Hp).
Qed.

Lemma gather_put_values {V} (a d r : list V) (i2 i1 : list nat) (v : V) :
  gather_put a i2 d i1 = Some r -> v ∈ r -> v ∈ a \/ v ∈ d.
Proof.
  intros H [p Hp]%list_elem_of_lookup_1.
  destruct (gather_put_pair a a d d r r i2 i1 H H) as (W & F & _).
  destruct (decide (p ∈ i2)) as [Hin|Hnin].
  - destruct (W p Hin) as (x & v' & _ & _ & Hd & _ & Hr & _).
    right. rewrite Hp in Hr. injection Hr as ->.
    now apply list_elem_of_lookup_2 in Hd.
  - destruct (F p Hnin) as [Hr _]. left. rewrite Hp in Hr.
    symmetry in Hr. now apply list_elem_of_lookup_2 in Hr.
Qed.

Lemma join_index2_spec (all_AP detect_AP : list string) (p : nat) :
  p ∈ join_index2 all_AP detect_AP
  <-> exists k, k ∈ detect_AP /\ all_AP !! p = Some k.
Proof.
  rewrite join_index2_rows, list_elem_of_In, in_flat_map. split.
  - intros (k & Hk & Hp). exists k. split; [now apply list_elem_of_In|].
    now apply np_where_eq_spec, list_elem_of_In.
  - intros (k & Hk & Hp). exists k. split; [now apply list_elem_of_In|].
    now apply list_elem_of_In, np_where_eq_spec.
Qed.

Lemma join_without_match (all_AP detect_AP : list string) :
  (forall k, k ∈ detect_AP -> k ∉ all_AP) ->
  join_index1 all_AP detect_AP = [] /\ join_index2 all_AP detect_AP = [].
Proof.
  intros Hno. split.
  - unfold join_index1, index_where. apply filter_none. intros x Hx.
    apply in_seq in Hx. destruct (np_contains all_AP (item detect_AP x)) eqn:E;
      [|reflexivity].
    apply np_contains_spec in E. exfalso. apply (Hno (item detect_AP x)); [|exact E].
    destruct (lookup_lt_is_Some_2 detect_AP x) as [k Hk]; [lia|].
    rewrite (item_lookup _ _ _ Hk). now apply list_elem_of_lookup_2 in Hk.
  - rewrite join_index2_rows. induction detect_AP as [|k l IH]; [reflexivity|].
    cbn [flat_map]. rewrite np_where_eq_nil, IH; [reflexivity| |].
    + intros k' Hk'. apply Hno. now right.
    + destruct (np_contains all_AP k) eqn:E; [|reflexivity].
      apply np_contains_spec in E. exfalso. apply (Hno k); [left|exact E].
Qed.

Lemma gather_put_nothing {V} (a d : list V) : gather_put a [] d [] = Some a.
Proof. reflexivity. Qed.

(** X9. A catalog none of whose keys occurs in the master list (an empty
    catalog, or an empty master list, among others) joins to nothing:
    both joins return, whatever the lengths of the columns, and give
    back every array as it was. *)
Theorem join_without_match_is_identity {V} (all_AP detect_AP : list string)
        (a1 a2 d1 d2 a3 d3 a4 d4 a5 d5 : list V) :
  (forall k, k ∈ detect_AP -> k ∉ all_AP) ->
  get_SNRs_FLUXs all_AP detect_AP a1 a2 d1 d2 a3 d3 a4 d4 a5 d5
  = Some (a1, a2, a3, a4, a5)
  /\ get_LMIN0_LMAX0 all_AP detect_AP a1 d1 a2 d2 a3 d3 a4 d4
     = Some (a1, a2, a3, a4).
Proof.
  intros Hno. destruct (join_without_match all_AP detect_AP Hno) as [E1 E2].
  unfold get_SNRs_FLUXs, get_LMIN0_LMAX0. cbv zeta. rewrite E1, E2.
  rewrite !gather_put_nothing. split; reflexivity.
Qed.

Lemma join_without_match_is_identity_witness :
  get_SNRs_FLUXs ["S.123"; "N/A"] ["A.001"; "A.002"; "A.003"]
    [0; 0]%Z [0; 0]%Z [1]%Z [] [0; 0]%Z [1; 2]%Z [0; 0]%Z [] [0; 0]%Z [1; 2; 3; 4]%Z
  = Some ([0; 0], [0; 0], [0; 0], [0; 0], [0; 0])%Z.
Proof.
  refine (proj1 (join_without_match_is_identity ["S.123"; "N/A"]
                   ["A.001"; "A.002"; "A.003"] _ _ _ _ _ _ _ _ _ _ _)).
  intros k Hk Hin.
  repeat (apply elem_of_cons in Hk as [->|Hk];
          [repeat (apply elem_of_cons in Hin as [Hin|Hin]; [discriminate|]);
           inversion Hin|]).
  inversion Hk.
Defined.

Lemma gather_put_returns_iff {V} (all_AP detect_AP : list string)
      (all_X detect_X : list V) :
  length all_X = length all_AP ->
  length detect_X = length detect_AP ->
  is_Some (gather_put all_X (join_index2 all_AP detect_AP)
                      detect_X (join_index1 all_AP detect_AP))
  <-> (forall k, k ∈ detect_AP -> (length (np_where_eq all_AP k) <= 1)%nat)
      \/ length (join_index1 all_AP detect_AP) = 1%nat.
Proof.
  intros HX Hdet. split.
  - intros [r H]. unfold gather_put in H.
    pose proof (join_index1_take all_AP detect_AP detect_X Hdet) as Ht.
    pose proof (take_length _ _ _ Ht) as Hl1.
    rewrite Ht, bind_Some in H. unfold put in H.
    destruct (in_range _ _); [|discriminate].
    destruct (Nat.eqb_spec
                (length (map snd (List.filter (matched_row all_AP)
                                              (zip detect_AP detect_X))))
                (length (join_index2 all_AP detect_AP))) as [E|E].
    + left. intros k Hk.
      rewrite (join_index2_where all_AP detect_AP detect_X Hdet) in E.
      rewrite length_map in E. symmetry in E.
      apply same_count_unique in E. rewrite Forall_forall in E.
      destruct (list_elem_of_lookup_1 _ _ Hk) as [x Hx].
      destruct (lookup_lt_is_Some_2 detect_X x) as [v Hv];
        [apply lookup_lt_Some in Hx; lia|].
      apply (E (k, v)).
      apply (list_elem_of_lookup_2 _ x). apply lookup_zip_with_Some.
      now exists k, v.
    + right. rewrite <- Hl1.
      destruct (map snd _) as [|v [|? ?]]; first [discriminate|reflexivity].
  - intros [Hu|H1].
    + rewrite gather_put_unique by assumption. now eexists.
    + apply gather_put_one_returns; [| |exact H1].
      * now apply join_index2_in_range.
      * apply in_range_index_where. lia.
Qed.

(** X10. With columns as long as their key arrays, a join returns
    exactly in two cases: no catalog key is held by two positions of the
    master list, or exactly one catalog row has its key in the master
    list (its value is then broadcast). In every other case the index
    assignment raises. *)
Theorem join_returns_iff {V} (all_AP detect_AP : list string)
        (a1 a2 d1 d2 a3 d3 a4 d4 a5 d5 : list V) :
  Forall (fun c => length c = length all_AP) [a1; a2; a3; a4; a5] ->
  Forall (fun c => length c = length detect_AP) [d1; d2; d3; d4; d5] ->
  (is_Some (get_SNRs_FLUXs all_AP detect_AP a1 a2 d1 d2 a3 d3 a4 d4 a5 d5)
   <-> (forall k, k ∈ detect_AP -> (length (np_where_eq all_AP k) <= 1)%nat)
       \/ length (join_index1 all_AP detect_AP) = 1%nat)
  /\ (is_Some (get_LMIN0_LMAX0 all_AP detect_AP a1 d1 a2 d2 a3 d3 a4 d4)
      <-> (forall k, k ∈ detect_AP -> (length (np_where_eq all_AP k) <= 1)%nat)
          \/ length (join_index1 all_AP detect_AP) = 1%nat).
Proof.
  intros Ha Hd.
  apply Forall_cons in Ha as [A1 Ha]. apply Forall_cons in Ha as [A2 Ha].
  apply Forall_cons in Ha as [A3 Ha]. apply Forall_cons in Ha as [A4 Ha].
  apply Forall_cons in Ha as [A5 _].
  apply Forall_cons in Hd as [D1 Hd]. apply Forall_cons in Hd as [D2 Hd].
  apply Forall_cons in Hd as [D3 Hd]. apply Forall_cons in Hd as [D4 Hd].
  apply Forall_cons in Hd as [D5 _].
  split; split.
  - intros [[[[[r1 r2] r3] r4] r5] H].
    apply get_SNRs_FLUXs_Some in H as (H & _).
    apply (gather_put_returns_iff all_AP detect_AP a1 d1 A1 D1). now exists r1.
  - intros H. unfold get_SNRs_FLUXs. cbv zeta.
    destruct (proj2 (gather_put_returns_iff all_AP detect_AP a1 d1 A1 D1) H) as [r1 ->].
    destruct (proj2 (gather_put_returns_iff all_AP detect_AP a2 d2 A2 D2) H) as [r2 ->].
    destruct (proj2 (gather_put_returns_iff all_AP detect_AP a3 d3 A3 D3) H) as [r3 ->].
    destruct (proj2 (gather_put_returns_iff all_AP detect_AP a4 d4 A4 D4) H) as [r4 ->].
    destruct (proj2 (gather_put_returns_iff all_AP detect_AP a5 d5 A5 D5) H) as [r5 ->].
    now eexists.
  - intros [[[[r1 r2] r3] r4] H].
    apply get_LMIN0_LMAX0_Some in H as (H & _).
    apply (gather_put_returns_iff all_AP detect_AP a1 d1 A1 D1). now exists r1.
  - intros H. unfold get_LMIN0_LMAX0. cbv zeta.
    destruct (proj2 (gather_put_returns_iff all_AP detect_AP a1 d1 A1 D1) H) as [r1 ->].
    destruct (proj2 (gather_put_returns_iff all_AP detect_AP a2 d2 A2 D2) H) as [r2 ->].
    destruct (proj2 (gather_put_returns_iff all_AP detect_AP a3 d3 A3 D3) H) as [r3 ->].
    destruct (proj2 (gather_put_returns_iff all_AP detect_AP a4 d4 A4 D4) H) as [r4 ->].
    now eexists.
Qed.

Lemma join_returns_iff_witness :
  is_Some (get_SNRs_FLUXs ["S.123"; "S.123"; "A.001"] ["S.123"; "A.002"]
             [0; 0; 0]%Z [0; 0; 0]%Z [1; 2]%Z [1; 2]%Z [0; 0; 0]%Z [1; 2]%Z
             [0; 0; 0]%Z [1; 2]%Z [0; 0; 0]%Z [1; 2]%Z).
Proof.
  destruct (join_returns_iff ["S.123"; "S.123"; "A.001"] ["S.123"; "A.002"]
              [0; 0; 0]%Z [0; 0; 0]%Z [1; 2]%Z [1; 2]%Z [0; 0; 0]%Z [1; 2]%Z
              [0; 0; 0]%Z [1; 2]%Z [0; 0; 0]%Z [1; 2]%Z)
    as [[_ H] _].
  - repeat constructor.
  - repeat constructor.
  - apply H. right. reflexivity.
Defined.

Lemma last_row_key {V} (k : string) (keys : list string) (vals : list V) (v : V) :
  last_row k (zip keys vals) = Some v -> k ∈ keys.
Proof.
  intros H. destruct (decide (k ∈ keys)) as [Hin|Hnin]; [exact Hin|].
  rewrite last_row_None in H by exact Hnin. discriminate.
Qed.

Lemma spec_join_commute {V} (all_AP keysA keysB : list string)
      (A B x : list V) :
  length x = length all_AP ->
  (forall k, k ∈ keysA -> k ∉ keysB) ->
  spec_join all_AP (zip keysB B) (spec_join all_AP (zip keysA A) x)
  = spec_join all_AP (zip keysA A) (spec_join all_AP (zip keysB B) x).
Proof.
  intros Hx Hdis. apply list_eq. intros p.
  destruct (all_AP !! p) as [k|] eqn:Hk.
  - rewrite !(spec_join_lookup all_AP _ _ p k Hk).
    destruct (last_row k (zip keysB B)) as [vb|] eqn:EB;
      destruct (last_row k (zip keysA A)) as [va|] eqn:EA;
      rewrite ?EA, ?EB; try reflexivity.
    exfalso. apply (Hdis k); [eapply last_row_key, EA|eapply last_row_key, EB].
  - apply lookup_ge_None_1 in Hk.
    rewrite !lookup_ge_None_2; [reflexivity| |]; rewrite !spec_join_length; lia.
Qed.

Lemma gather_put_commute {V} (all_AP keysA keysB : list string)
      (s A B a r : list V) :
  length s = length all_AP ->
  length A = length keysA ->
  length B = length keysB ->
  (forall k, k ∈ keysA -> k ∉ keysB) ->
  gather_put s (join_index2 all_AP keysA) A (join_index1 all_AP keysA) = Some a ->
  gather_put a (join_index2 all_AP keysB) B (join_index1 all_AP keysB) = Some r ->
  exists b,
    gather_put s (join_index2 all_AP keysB) B (join_index1 all_AP keysB) = Some b
    /\ gather_put b (join_index2 all_AP keysA) A (join_index1 all_AP keysA) = Some r.
Proof.
  intros Hs HA HB Hdis Ha Hr.
  pose proof (gather_put_Some_length _ _ _ _ _ Ha) as La.
  assert (CA : is_Some (gather_put s (join_index2 all_AP keysA) A
                                   (join_index1 all_AP keysA))) by now exists a.
  assert (CB : is_Some (gather_put a (join_index2 all_AP keysB) B
                                   (join_index1 all_AP keysB))) by now exists r.
  apply gather_put_returns_iff in CA; [|assumption..].
  apply gather_put_returns_iff in CB; [|lia|assumption].
  destruct (proj2 (gather_put_returns_iff all_AP keysB s B Hs HB) CB) as [b Hb].
  exists b. split; [exact Hb|].
  pose proof (gather_put_Some_length _ _ _ _ _ Hb) as Lb.
  destruct (proj2 (gather_put_returns_iff all_AP keysA b A ltac:(lia) HA) CA)
    as [r' Hr'].
  rewrite Hr'. f_equal.
  apply gather_put_refines in Ha; [|assumption..].
  apply gather_put_refines in Hr; [|lia|assumption].
  apply gather_put_refines in Hb; [|assumption..].
  apply gather_put_refines in Hr'; [|lia|assumption].
  subst. symmetry. now apply spec_join_commute.
Qed.

(** X11. Two catalogs with no key in common can be joined in either
    order: when joining A and then B returns, joining B and then A
    returns too, with the same five arrays. *)
Theorem joins_commute_on_disjoint_keys {V} (all_AP keysA keysB : list string)
        (s1 s2 s3 s4 s5 A1 A2 A3 A4 A5 B1 B2 B3 B4 B5 : list V)
        (a1 a2 a3 a4 a5 r1 r2 r3 r4 r5 : list V) :
  Forall (fun c => length c = length all_AP) [s1; s2; s3; s4; s5] ->
  Forall (fun c => length c = length keysA) [A1; A2; A3; A4; A5] ->
  Forall (fun c => length c = length keysB) [B1; B2; B3; B4; B5] ->
  (forall k, k ∈ keysA -> k ∉ keysB) ->
  get_SNRs_FLUXs all_AP keysA s1 s2 A1 A2 s3 A3 s4 A4 s5 A5
  = Some (a1, a2, a3, a4, a5) ->
  get_SNRs_FLUXs all_AP keysB a1 a2 B1 B2 a3 B3 a4 B4 a5 B5
  = Some (r1, r2, r3, r4, r5) ->
  exists b1 b2 b3 b4 b5,
    get_SNRs_FLUXs all_AP keysB s1 s2 B1 B2 s3 B3 s4 B4 s5 B5
    = Some (b1, b2, b3, b4, b5)
    /\ get_SNRs_FLUXs all_AP keysA b1 b2 A1 A2 b3 A3 b4 A4 b5 A5
       = Some (r1, r2, r3, r4, r5).
Proof.
  intros Hs HA HB Hdis Ha Hr.
  apply Forall_cons in Hs as [S1 Hs]. apply Forall_cons in Hs as [S2 Hs].
  apply Forall_cons in Hs as [S3 Hs]. apply Forall_cons in Hs as [S4 Hs].
  apply Forall_cons in Hs as [S5 _].
  apply Forall_cons in HA as [LA1 HA]. apply Forall_cons in HA as [LA2 HA].
  apply Forall_cons in HA as [LA3 HA]. apply Forall_cons in HA as [LA4 HA].
  apply Forall_cons in HA as [LA5 _].
  apply Forall_cons in HB as [LB1 HB]. apply Forall_cons in HB as [LB2 HB].
  apply Forall_cons in HB as [LB3 HB]. apply Forall_cons in HB as [LB4 HB].
  apply Forall_cons in HB as [LB5 _].
  apply get_SNRs_FLUXs_Some in Ha as (Ha1 & Ha2 & Ha3 & Ha4 & Ha5).
  apply get_SNRs_FLUXs_Some in Hr as (Hr1 & Hr2 & Hr3 & Hr4 & Hr5).
  destruct (gather_put_commute all_AP keysA keysB s1 A1 B1 a1 r1
              S1 LA1 LB1 Hdis Ha1 Hr1) as (b1 & Hb1 & Hq1).
  destruct (gather_put_commute all_AP keysA keysB s2 A2 B2 a2 r2
              S2 LA2 LB2 Hdis Ha2 Hr2) as (b2 & Hb2 & Hq2).
  destruct (gather_put_commute all_AP keysA keysB s3 A3 B3 a3 r3
              S3 LA3 LB3 Hdis Ha3 Hr3) as (b3 & Hb3 & Hq3).
  destruct (gather_put_commute all_AP keysA keysB s4 A4 B4 a4 r4
              S4 LA4 LB4 Hdis Ha4 Hr4) as (b4 & Hb4 & Hq4).
  destruct (gather_put_commute all_AP keysA keysB s5 A5 B5 a5 r5
              S5 LA5 LB5 Hdis Ha5 Hr5) as (b5 & Hb5 & Hq5).
  exists b1, b2, b3, b4, b5. unfold get_SNRs_FLUXs. cbv zeta.
  rewrite Hb1, Hb2, Hb3, Hb4, Hb5, Hq1, Hq2, Hq3, Hq4, Hq5. split; reflexivity.
Qed.

Lemma joins_commute_on_disjoint_keys_witness :
  exists b1 b2 b3 b4 b5,
    get_SNRs_FLUXs ["S.123"; "12.345"; "N/A"] ["12.345"]
      [0; 0; 0]%Z [0; 0; 0]%Z [7]%Z [7]%Z [0; 0; 0]%Z [7]%Z
      [0; 0; 0]%Z [7]%Z [0; 0; 0]%Z [7]%Z
    = Some (b1, b2, b3, b4, b5)
    /\ get_SNRs_FLUXs ["S.123"; "12.345"; "N/A"] ["S.123"; "A.001"]
         b1 b2 [1; 2]%Z [1; 2]%Z b3 [1; 2]%Z b4 [1; 2]%Z b5 [1; 2]%Z
       = Some ([1; 7; 0], [1; 7; 0], [1; 7; 0], [1; 7; 0], [1; 7; 0])%Z.
Proof.
  apply (joins_commute_on_disjoint_keys
           ["S.123"; "12.345"; "N/A"] ["S.123"; "A.001"] ["12.345"]
           [0; 0; 0]%Z [0; 0; 0]%Z [0; 0; 0]%Z [0; 0; 0]%Z [0; 0; 0]%Z
           [1; 2]%Z [1; 2]%Z [1; 2]%Z [1; 2]%Z [1; 2]%Z
           [7]%Z [7]%Z [7]%Z [7]%Z [7]%Z
           [1; 0; 0]%Z [1; 0; 0]%Z [1; 0; 0]%Z [1; 0; 0]%Z [1; 0; 0]%Z).
  - repeat constructor.
  - repeat constructor.
  - repeat constructor.
  - intros k Hk Hin.
    apply elem_of_cons in Hin as [->|Hin]; [|inversion Hin].
    repeat (apply elem_of_cons in Hk as [Hk|Hk]; [discriminate|]). inversion Hk.
  - reflexivity.
  - reflexivity.
Defined.

(** * Further properties of the driver *)

(** One output column through a sequence of joins: the view of
    [single_LMIN0_LMAX0], [ordered_SNR] and [ordered_FLUX] that follows
    a single array. *)
Fixpoint join_chain {V} (AP : list string) (all_X : list V)
         (cats : list (list string * list V)) : option (list V) :=
  match cats with
  | [] => Some all_X
  | c :: cats' =>
      all_X' ← gather_put all_X (join_index2 AP c.1) c.2 (join_index1 AP c.1);
      join_chain AP all_X' cats'
  end.

(** The same-named column of the four line-fit tables and of the merged
    table, in the order of the joins. *)
Definition columns4 {V} (f : line_fit V -> list V)
           (MMTall MMTsingle DEIMOS DEIMOS00 : line_fit V)
  : list (list string * list V) :=
  [(cat_AP MMTall, f MMTall); (cat_AP MMTsingle, f MMTsingle);
   (cat_AP DEIMOS, f DEIMOS); (cat_AP DEIMOS00, f DEIMOS00)].

Definition columns5 {V} (f : line_fit V -> list V) (g : merged_fit V -> list V)
           (MMTall MMTsingle DEIMOS DEIMOS00 : line_fit V) (merged : merged_fit V)
  : list (list string * list V) :=
  (columns4 f MMTall MMTsingle DEIMOS DEIMOS00 ++ [(mer_AP merged, g merged)])%list.

Ltac open_Forall :=
  repeat match goal with
         | H : Forall _ (_ :: _) |- _ =>
             apply Forall_cons in H; let E := fresh "E" in destruct H as [E H]
         end.

Ltac join_lengths :=
  first [assumption
        | repeat constructor; rewrite ?spec_join_length;
          first [apply length_replicate | assumption]].

Ltac open_join H :=
  match type of H with
  | (match ?j with _ => _ end) = Some _ =>
      let E := fresh "J" in
      destruct j as [[[[[? ?] ?] ?] ?]|] eqn:E; [|discriminate H];
      apply get_SNRs_FLUXs_Some in E; cbv zeta in E;
      destruct E as (? & ? & ? & ? & ?)
  | (?j ≫= _) = Some _ =>
      let E := fresh "J" in
      destruct j as [[[[[? ?] ?] ?] ?]|] eqn:E; [|discriminate H];
      apply get_SNRs_FLUXs_Some in E; cbv zeta in E;
      destruct E as (? & ? & ? & ? & ?); rewrite bind_Some in H
  end.

Ltac chain :=
  cbn [join_chain columns5 columns4 app fst snd];
  repeat match goal with
         | E : gather_put ?a _ _ _ = Some _ |- context [gather_put ?a _ _ _] =>
             rewrite E, bind_Some
         end;
  reflexivity.

Lemma ordered_SNR_columns {V} (sentinel : V)
      (MMTall MMTsingle DEIMOS DEIMOS00 : line_fit V) (merged : merged_fit V)
      (AP : list string) (r1 r2 r3 r4 r5 : list V) :
  ordered_SNR sentinel MMTall MMTsingle DEIMOS DEIMOS00 merged AP
  = Some (r1, r2, r3, r4, r5) ->
  let run f g :=
    join_chain AP (replicate (length AP) sentinel)
               (columns5 f g MMTall MMTsingle DEIMOS DEIMOS00 merged) in
  run cat_NIIA_SNR mer_NIIA_SNR = Some r1
  /\ run cat_NIIB_SNR mer_NIIB_SNR = Some r2
  /\ run cat_HA_SNR mer_HA_SNR = Some r3
  /\ run cat_HB_SNR mer_HB_SNR = Some r4
  /\ run cat_HG_SNR mer_HG_SNR = Some r5.
Proof.
  unfold ordered_SNR. cbv zeta. intros H.
  do 4 open_join H. apply get_SNRs_FLUXs_Some in H. cbv zeta in H.
  destruct H as (? & ? & ? & ? & ?).
  repeat split; chain.
Qed.

Lemma ordered_FLUX_columns {V} (sentinel : V)
      (MMTall MMTsingle DEIMOS DEIMOS00 : line_fit V) (merged : merged_fit V)
      (AP : list string) (r1 r2 r3 r4 r5 : list V) :
  ordered_FLUX sentinel MMTall MMTsingle DEIMOS DEIMOS00 merged AP
  = Some (r1, r2, r3, r4, r5) ->
  let run f g :=
    join_chain AP (replicate (length AP) sentinel)
               (columns5 f g MMTall MMTsingle DEIMOS DEIMOS00 merged) in
  run cat_NIIA_FLUX mer_NIIA_FLUX = Some r1
  /\ run cat_NIIB_FLUX mer_NIIB_FLUX = Some r2
  /\ run cat_HA_FLUX mer_HA_FLUX = Some r3
  /\ run cat_HB_FLUX mer_HB_FLUX = Some r4
  /\ run cat_HG_FLUX mer_HG_FLUX = Some r5.
Proof.
  unfold ordered_FLUX. cbv zeta. intros H.
  do 4 open_join H. apply get_SNRs_FLUXs_Some in H. cbv zeta in H.
  destruct H as (? & ? & ? & ? & ?).
  repeat split; chain.
Qed.

Ltac open_join4 H :=
  match type of H with
  | (?j ≫= _) = Some _ =>
      let E := fresh "J" in
      destruct j as [[[[? ?] ?] ?]|] eqn:E; [|discriminate H];
      apply get_LMIN0_LMAX0_Some in E; cbv zeta in E;
      destruct E as (? & ? & ? & ?); rewrite bind_Some in H
  end.

Lemma single_LMIN0_LMAX0_columns {V} (sentinel : V)
      (MMTall MMTsingle DEIMOS DEIMOS00 : line_fit V)
      (AP : list string) (r1 r2 r3 r4 : list V) :
  single_LMIN0_LMAX0 sentinel MMTall MMTsingle DEIMOS DEIMOS00 AP
  = Some (r1, r2, r3, r4) ->
  let run f :=
    join_chain AP (replicate (length AP) sentinel)
               (columns4 f MMTall MMTsingle DEIMOS DEIMOS00) in
  run cat_LMIN0 = Some r1 /\ run cat_LMAX0 = Some r2
  /\ run cat_LMIN0 = Some r3 /\ run cat_LMAX0 = Some r4.
Proof.
  unfold single_LMIN0_LMAX0. cbv zeta. intros H.
  do 3 open_join4 H. apply get_LMIN0_LMAX0_Some in H. cbv zeta in H.
  destruct H as (? & ? & ? & ?).
  repeat match goal with
         | E1 : ?g = Some ?a, E2 : ?g = Some ?b |- _ =>
             tryif constr_eq a b then fail
             else (assert (a = b) by congruence; subst b; clear E2)
         end.
  repeat split; chain.
Qed.

(** What the full run computes, step by step. *)
Lemma create_ordered_AP_arrays_full {V} (sentinel : V)
      (MMTall MMTsingle DEIMOS DEIMOS00 : line_fit V) (merged : merged_fit V)
      (slit_str0 inst_str0 : list string) (AP_only : bool) (o : ordered V) :
  create_ordered_AP_arrays sentinel MMTall MMTsingle DEIMOS DEIMOS00 merged
                           slit_str0 inst_str0 AP_only = Some (full_dict o) ->
  AP_only = false
  /\ ordered_AP slit_str0 = Some (o_AP o)
  /\ exists AP_merged m0 m1 k0 k1,
      take (o_AP o) (index_where (length inst_str0)
                       (fun x => str_in "merged" (item inst_str0 x)))
      = Some AP_merged
      /\ single_LMIN0_LMAX0 sentinel MMTall MMTsingle DEIMOS DEIMOS00 (o_AP o)
         = Some (m0, m1, k0, k1)
      /\ get_LMIN0_LMAX0_merged (o_AP o) AP_merged m0 m1 k0 k1
           (cat_AP MMTall) (cat_LMIN0 MMTall) (cat_LMAX0 MMTall)
           (cat_AP MMTsingle) (cat_LMIN0 MMTsingle) (cat_LMAX0 MMTsingle)
           (cat_AP DEIMOS) (cat_LMIN0 DEIMOS) (cat_LMAX0 DEIMOS)
           (cat_AP DEIMOS00) (cat_LMIN0 DEIMOS00) (cat_LMAX0 DEIMOS00)
         = Some (o_MMT_LMIN0 o, o_MMT_LMAX0 o, o_KECK_LMIN0 o, o_KECK_LMAX0 o)
      /\ ordered_SNR sentinel MMTall MMTsingle DEIMOS DEIMOS00 merged (o_AP o)
         = Some (o_NIIA_SNR o, o_NIIB_SNR o, o_HA_SNR o, o_HB_SNR o, o_HG_SNR o)
      /\ ordered_FLUX sentinel MMTall MMTsingle DEIMOS DEIMOS00 merged (o_AP o)
         = Some (o_NIIA_FLUX o, o_NIIB_FLUX o, o_HA_FLUX o, o_HB_FLUX o,
                 o_HG_FLUX o).
Proof.
  unfold create_ordered_AP_arrays. intros H.
  destruct (ordered_AP slit_str0) as [AP|]; [|discriminate].
  rewrite bind_Some in H.
  destruct (untyped_index_where _ _) as [merged_iis|] eqn:Hm; [|discriminate].
  rewrite bind_Some in H.
  apply untyped_index_where_Some in Hm as [-> _].
  destruct (take AP _) as [AP_merged|] eqn:Ht; [|discriminate].
  rewrite bind_Some in H.
  destruct AP_only; [discriminate|].
  destruct (single_LMIN0_LMAX0 _ _ _ _ _ _) as [[[[m0 m1] k0] k1]|] eqn:H1;
    [|discriminate].
  rewrite bind_Some in H.
  destruct (get_LMIN0_LMAX0_merged _ _ _ _ _ _ _ _ _ _ _ _ _ _ _ _ _ _)
    as [[[[? ?] ?] ?]|] eqn:H2; [|discriminate].
  rewrite bind_Some in H.
  destruct (ordered_SNR _ _ _ _ _ _ _) as [[[[[? ?] ?] ?] ?]|] eqn:H3; [|discriminate].
  rewrite bind_Some in H.
  destruct (ordered_FLUX _ _ _ _ _ _ _) as [[[[[? ?] ?] ?] ?]|] eqn:H4; [|discriminate].
  rewrite bind_Some in H.
  injection H as <-. cbn [o_AP o_MMT_LMIN0 o_MMT_LMAX0 o_KECK_LMIN0 o_KECK_LMAX0
    o_NIIA_SNR o_NIIB_SNR o_HA_SNR o_HB_SNR o_HG_SNR
    o_NIIA_FLUX o_NIIB_FLUX o_HA_FLUX o_HB_FLUX o_HG_FLUX].
  split; [reflexivity|]. split; [reflexivity|].
  exists AP_merged, m0, m1, k0, k1. auto.
Qed.

Lemma join_chain_length {V} (AP : list string) (cats : list (list string * list V))
      (s r : list V) :
  join_chain AP s cats = Some r -> length r = length s.
Proof.
  revert s. induction cats as [|c cats IH]; intros s H; cbn [join_chain] in H.
  - now injection H as <-.
  - destruct (gather_put s _ _ _) as [s'|] eqn:E; [|discriminate].
    rewrite bind_Some in H. apply IH in H.
    apply gather_put_Some_length in E. lia.
Qed.

Lemma for_each_invariant {S X} (body : S -> X -> option S) (P : S -> Prop)
      (l : list X) (st st' : S) :
  (forall s x s', x ∈ l -> P s -> body s x = Some s' -> P s') ->
  P st -> for_each body st l = Some st' -> P st'.
Proof.
  revert st. induction l as [|x l IH]; intros st Hstep HP H; cbn [for_each] in H.
  - now injection H as <-.
  - destruct (body st x) as [s1|] eqn:E; [|discriminate].
    rewrite bind_Some in H. apply (IH s1); [| |exact H].
    + intros s y s' Hy. apply Hstep. now right.
    + apply (Hstep st x s1); [left|exact HP|exact E].
Qed.

Lemma merged_step_inv {V} (all_AP : list string)
      (MMTallAP : list string) (MMTallLMIN0 MMTallLMAX0 : list V)
      (MMTsingleAP : list string) (MMTsingleLMIN0 MMTsingleLMAX0 : list V)
      (DEIMOSAP : list string) (DEIMOSLMIN0 DEIMOSLMAX0 : list V)
      (DEIMOS00AP : list string) (DEIMOS00LMIN0 DEIMOS00LMAX0 : list V)
      (m0 m1 k0 k1 m0' m1' k0' k1' : list V) (bothap : string) :
  merged_step all_AP MMTallAP MMTallLMIN0 MMTallLMAX0
              MMTsingleAP MMTsingleLMIN0 MMTsingleLMAX0
              DEIMOSAP DEIMOSLMIN0 DEIMOSLMAX0
              DEIMOS00AP DEIMOS00LMIN0 DEIMOS00LMAX0
              (m0, m1, k0, k1) bothap = Some (m0', m1', k0', k1') ->
  exists mmt keck,
    split "," bothap !! 0%nat = Some mmt
    /\ split "," bothap !! 1%nat = Some keck
    /\ resolve_side mmt (merged_targets all_AP mmt) m0 m1
                    MMTallAP MMTallLMIN0 MMTallLMAX0
                    MMTsingleAP MMTsingleLMIN0 MMTsingleLMAX0 = Some (m0', m1')
    /\ resolve_side keck (merged_targets all_AP mmt) k0 k1
                    DEIMOSAP DEIMOSLMIN0 DEIMOSLMAX0
                    DEIMOS00AP DEIMOS00LMIN0 DEIMOS00LMAX0 = Some (k0', k1').
Proof.
  unfold merged_step. intros H.
  destruct (split "," bothap !! 0%nat) as [mmt|]; [|discriminate].
  rewrite bind_Some in H.
  destruct (split "," bothap !! 1%nat) as [keck|]; [|discriminate].
  rewrite bind_Some in H.
  cbv zeta in H.
  destruct (resolve_side mmt _ m0 m1 _ _ _ _ _ _) as [[a b]|] eqn:Em;
    [|discriminate].
  rewrite bind_Some in H.
  destruct (resolve_side keck _ k0 k1 _ _ _ _ _ _) as [[c d]|] eqn:Ek;
    [|discriminate].
  rewrite bind_Some in H. injection H as <- <- <- <-.
  exists mmt, keck. auto.
Qed.

Lemma get_LMIN0_LMAX0_merged_length {V} (all_AP mergedAP : list string)
      (m0 m1 k0 k1 : list V)
      (MMTallAP : list string) (MMTallLMIN0 MMTallLMAX0 : list V)
      (MMTsingleAP : list string) (MMTsingleLMIN0 MMTsingleLMAX0 : list V)
      (DEIMOSAP : list string) (DEIMOSLMIN0 DEIMOSLMAX0 : list V)
      (DEIMOS00AP : list string) (DEIMOS00LMIN0 DEIMOS00LMAX0 : list V)
      (m0' m1' k0' k1' : list V) :
  get_LMIN0_LMAX0_merged all_AP mergedAP m0 m1 k0 k1
    MMTallAP MMTallLMIN0 MMTallLMAX0 MMTsingleAP MMTsingleLMIN0 MMTsingleLMAX0
    DEIMOSAP DEIMOSLMIN0 DEIMOSLMAX0 DEIMOS00AP DEIMOS00LMIN0 DEIMOS00LMAX0
  = Some (m0', m1', k0', k1') ->
  length m0' = length m0 /\ length m1' = length m1
  /\ length k0' = length k0 /\ length k1' = length k1.
Proof.
  unfold get_LMIN0_LMAX0_merged. intros H.
  apply (for_each_invariant _
           (fun st : list V * list V * list V * list V =>
              length st.1.1.1 = length m0 /\ length st.1.1.2 = length m1
              /\ length st.1.2 = length k0 /\ length st.2 = length k1)
           _ _ _) in H; [exact H| |cbn; auto].
  intros [[[a b] c] d] x [[[a' b'] c'] d'] _ (La & Lb & Lc & Ld) Hs.
  cbn [fst snd] in *.
  apply merged_step_inv in Hs as (mmt & keck & _ & _ & Hm & Hk).
  apply resolve_side_length in Hm as [? ?].
  apply resolve_side_length in Hk as [? ?]. lia.
Qed.

(** X12. Every array of a returned dictionary is aligned with the
    target list: the key array and the fourteen value arrays all have
    the length of [slit_str0]. *)
Theorem returned_arrays_have_master_length {V} (sentinel : V)
        (MMTall MMTsingle DEIMOS DEIMOS00 : line_fit V) (merged : merged_fit V)
        (slit_str0 inst_str0 : list string) (AP_only : bool) (o : ordered V) :
  create_ordered_AP_arrays sentinel MMTall MMTsingle DEIMOS DEIMOS00 merged
                           slit_str0 inst_str0 AP_only = Some (full_dict o) ->
  length (o_AP o) = length slit_str0
  /\ Forall (fun c => length c = length slit_str0)
       [o_MMT_LMIN0 o; o_MMT_LMAX0 o; o_KECK_LMIN0 o; o_KECK_LMAX0 o;
        o_NIIA_SNR o; o_NIIB_SNR o; o_HA_SNR o; o_HB_SNR o; o_HG_SNR o;
        o_NIIA_FLUX o; o_NIIB_FLUX o; o_HA_FLUX o; o_HB_FLUX o; o_HG_FLUX o].
Proof.
  intros H.
  apply create_ordered_AP_arrays_full in H
    as (_ & HAP & APm & m0 & m1 & k0 & k1 & _ & H1 & H2 & H3 & H4).
  apply ordered_AP_Some in HAP as [_ HAP].
  assert (L : length (o_AP o) = length slit_str0)
    by (rewrite HAP; apply length_map).
  split; [exact L|].
  apply single_LMIN0_LMAX0_columns in H1 as (A1 & A2 & A3 & A4).
  apply join_chain_length in A1, A2, A3, A4.
  apply get_LMIN0_LMAX0_merged_length in H2 as (B1 & B2 & B3 & B4).
  apply ordered_SNR_columns in H3 as (C1 & C2 & C3 & C4 & C5).
  apply join_chain_length in C1, C2, C3, C4, C5.
  apply ordered_FLUX_columns in H4 as (D1 & D2 & D3 & D4 & D5).
  apply join_chain_length in D1, D2, D3, D4, D5.
  rewrite length_replicate in *.
  repeat constructor; lia.
Qed.

Lemma join_chain_values {V} (AP : list string) (cats : list (list string * list V))
      (s r : list V) (v : V) :
  join_chain AP s cats = Some r -> v ∈ r ->
  v ∈ s \/ exists c, c ∈ cats /\ v ∈ c.2.
Proof.
  revert s. induction cats as [|c cats IH]; intros s H Hv; cbn [join_chain] in H.
  - injection H as <-. now left.
  - destruct (gather_put s _ _ _) as [s'|] eqn:E; [|discriminate].
    rewrite bind_Some in H. destruct (IH s' H Hv) as [Hs'|(c' & Hc' & Hin)].
    + destruct (gather_put_values _ _ _ _ _ v E Hs') as [?|?]; [now left|].
      right. exists c. split; [left|assumption].
    + right. exists c'. split; [now right|assumption].
Qed.

Lemma join_chain_frame {V} (AP : list string) (cats : list (list string * list V))
      (s r : list V) (p : nat) (k : string) :
  join_chain AP s cats = Some r -> AP !! p = Some k ->
  (forall c, c ∈ cats -> k ∉ c.1) -> r !! p = s !! p.
Proof.
  revert s. induction cats as [|c cats IH]; intros s H Hk Hno; cbn [join_chain] in H.
  - now injection H as <-.
  - destruct (gather_put s _ _ _) as [s'|] eqn:E; [|discriminate].
    rewrite bind_Some in H. rewrite (IH s' H Hk).
    + apply (gather_put_frame _ _ _ _ _ p E).
      intros (k' & Hk' & Hp)%join_index2_spec.
      apply (Hno c); [left|congruence].
    + intros c' Hc'. apply Hno. now right.
Qed.

Lemma resolve_side_values {V} (code : string) (jj : list nat)
      (L0 L1 : list V) (AP1 : list string) (min1 max1 : list V)
      (AP2 : list string) (min2 max2 : list V) (L0' L1' : list V) :
  resolve_side code jj L0 L1 AP1 min1 max1 AP2 min2 max2 = Some (L0', L1') ->
  (forall v, v ∈ L0' -> v ∈ L0 \/ v ∈ min1 \/ v ∈ min2)
  /\ (forall v, v ∈ L1' -> v ∈ L1 \/ v ∈ max1 \/ v ∈ max2).
Proof.
  unfold resolve_side. cbv zeta. intros H.
  destruct (0 <? length (index_where (length AP1) _))%nat.
  - destruct (gather_put L0 _ _ _) as [a|] eqn:E0; [|discriminate].
    rewrite bind_Some in H.
    destruct (gather_put L1 _ _ _) as [b|] eqn:E1; [|discriminate].
    rewrite bind_Some in H. injection H as <- <-.
    split; intros v Hv.
    + destruct (gather_put_values _ _ _ _ _ v E0 Hv); auto.
    + destruct (gather_put_values _ _ _ _ _ v E1 Hv); auto.
  - destruct (0 <? length (index_where (length AP2) _))%nat.
    + destruct (gather_put L0 _ _ _) as [a|] eqn:E0; [|discriminate].
      rewrite bind_Some in H.
      destruct (gather_put L1 _ _ _) as [b|] eqn:E1; [|discriminate].
      rewrite bind_Some in H. injection H as <- <-.
      split; intros v Hv.
      * destruct (gather_put_values _ _ _ _ _ v E0 Hv); auto.
      * destruct (gather_put_values _ _ _ _ _ v E1 Hv); auto.
    + injection H as <- <-. auto.
Qed.

Lemma resolve_side_frame {V} (code : string) (jj : list nat)
      (L0 L1 : list V) (AP1 : list string) (min1 max1 : list V)
      (AP2 : list string) (min2 max2 : list V) (L0' L1' : list V) (p : nat) :
  resolve_side code jj L0 L1 AP1 min1 max1 AP2 min2 max2 = Some (L0', L1') ->
  p ∉ jj -> L0' !! p = L0 !! p /\ L1' !! p = L1 !! p.
Proof.
  intros H Hp. apply resolve_side_spec in H as (_ & _ & _ & F). now apply F.
Qed.

Section Resolver.
Context {V : Type}.
Variables all_AP mergedAP : list string.
Variables MMTallAP MMTsingleAP DEIMOSAP DEIMOS00AP : list string.
Variables MMTallLMIN0 MMTallLMAX0 MMTsingleLMIN0 MMTsingleLMAX0 : list V.
Variables DEIMOSLMIN0 DEIMOSLMAX0 DEIMOS00LMIN0 DEIMOS00LMAX0 : list V.
Variables m0 m1 k0 k1 m0' m1' k0' k1' : list V.

Hypothesis loop :
  get_LMIN0_LMAX0_merged all_AP mergedAP m0 m1 k0 k1
    MMTallAP MMTallLMIN0 MMTallLMAX0 MMTsingleAP MMTsingleLMIN0 MMTsingleLMAX0
    DEIMOSAP DEIMOSLMIN0 DEIMOSLMAX0 DEIMOS00AP DEIMOS00LMIN0 DEIMOS00LMAX0
  = Some (m0', m1', k0', k1').

Lemma get_LMIN0_LMAX0_merged_values :
  (forall v, v ∈ m0' -> v ∈ m0 \/ v ∈ MMTallLMIN0 \/ v ∈ MMTsingleLMIN0)
  /\ (forall v, v ∈ m1' -> v ∈ m1 \/ v ∈ MMTallLMAX0 \/ v ∈ MMTsingleLMAX0)
  /\ (forall v, v ∈ k0' -> v ∈ k0 \/ v ∈ DEIMOSLMIN0 \/ v ∈ DEIMOS00LMIN0)
  /\ (forall v, v ∈ k1' -> v ∈ k1 \/ v ∈ DEIMOSLMAX0 \/ v ∈ DEIMOS00LMAX0).
Proof.
  pose proof loop as H. unfold get_LMIN0_LMAX0_merged in H.
  apply (for_each_invariant _
           (fun st : list V * list V * list V * list V =>
              (forall v, v ∈ st.1.1.1 ->
                         v ∈ m0 \/ v ∈ MMTallLMIN0 \/ v ∈ MMTsingleLMIN0)
              /\ (forall v, v ∈ st.1.1.2 ->
                            v ∈ m1 \/ v ∈ MMTallLMAX0 \/ v ∈ MMTsingleLMAX0)
              /\ (forall v, v ∈ st.1.2 ->
                            v ∈ k0 \/ v ∈ DEIMOSLMIN0 \/ v ∈ DEIMOS00LMIN0)
              /\ (forall v, v ∈ st.2 ->
                            v ∈ k1 \/ v ∈ DEIMOSLMAX0 \/ v ∈ DEIMOS00LMAX0))
           _ _ _) in H; [exact H| |cbn; auto].
  intros [[[a b] c] d] x [[[a' b'] c'] d'] _ (Pa & Pb & Pc & Pd) Hs.
  cbn [fst snd] in *.
  apply merged_step_inv in Hs as (mmt & keck & _ & _ & Hm & Hk).
  apply resolve_side_values in Hm as [Qa Qb].
  apply resolve_side_values in Hk as [Qc Qd].
  repeat split; intros v Hv.
  - destruct (Qa v Hv) as [?|?]; auto.
  - destruct (Qb v Hv) as [?|?]; auto.
  - destruct (Qc v Hv) as [?|?]; auto.
  - destruct (Qd v Hv) as [?|?]; auto.
Qed.

Lemma get_LMIN0_LMAX0_merged_frame (p : nat) :
  (forall k b, all_AP !! p = Some k -> b ∈ mergedAP ->
               split "," b !! 0%nat <> Some (slice 0 5 k)) ->
  m0' !! p = m0 !! p /\ m1' !! p = m1 !! p
  /\ k0' !! p = k0 !! p /\ k1' !! p = k1 !! p.
Proof.
  intros Hno. pose proof loop as H. unfold get_LMIN0_LMAX0_merged in H.
  apply (for_each_invariant _
           (fun st : list V * list V * list V * list V =>
              st.1.1.1 !! p = m0 !! p /\ st.1.1.2 !! p = m1 !! p
              /\ st.1.2 !! p = k0 !! p /\ st.2 !! p = k1 !! p)
           _ _ _) in H; [exact H| |cbn; auto].
  intros [[[a b] c] d] x [[[a' b'] c'] d'] Hx (Pa & Pb & Pc & Pd) Hs.
  cbn [fst snd] in *.
  apply merged_step_inv in Hs as (mmt & keck & Hmmt & _ & Hm & Hk).
  assert (Hp : p ∉ merged_targets all_AP mmt).
  { intros (k & Hk' & Heq)%merged_targets_spec.
    apply (Hno k x Hk' Hx). congruence. }
  apply (resolve_side_frame _ _ _ _ _ _ _ _ _ _ _ _ p) in Hm as [? ?]; [|exact Hp].
  apply (resolve_side_frame _ _ _ _ _ _ _ _ _ _ _ _ p) in Hk as [? ?]; [|exact Hp].
  repeat split; congruence.
Qed.

End Resolver.

(** X16. The loop of the resolver, over any number of merged keys,
    writes only where the first five characters of the key of a position
    are the first component of one of the merged keys: every other
    position keeps its four bounds. *)
Theorem resolver_writes_only_at_first_components {V}
        (all_AP mergedAP : list string) (m0 m1 k0 k1 : list V)
        (MMTallAP : list string) (MMTallLMIN0 MMTallLMAX0 : list V)
        (MMTsingleAP : list string) (MMTsingleLMIN0 MMTsingleLMAX0 : list V)
        (DEIMOSAP : list string) (DEIMOSLMIN0 DEIMOSLMAX0 : list V)
        (DEIMOS00AP : list string) (DEIMOS00LMIN0 DEIMOS00LMAX0 : list V)
        (m0' m1' k0' k1' : list V) (p : nat) :
  get_LMIN0_LMAX0_merged all_AP mergedAP m0 m1 k0 k1
    MMTallAP MMTallLMIN0 MMTallLMAX0 MMTsingleAP MMTsingleLMIN0 MMTsingleLMAX0
    DEIMOSAP DEIMOSLMIN0 DEIMOSLMAX0 DEIMOS00AP DEIMOS00LMIN0 DEIMOS00LMAX0
  = Some (m0', m1', k0', k1') ->
  (forall k b, all_AP !! p = Some k -> b ∈ mergedAP ->
               split "," b !! 0%nat <> Some (slice 0 5 k)) ->
  m0' !! p = m0 !! p /\ m1' !! p = m1 !! p
  /\ k0' !! p = k0 !! p /\ k1' !! p = k1 !! p.
Proof.
  intros H Hno. eapply get_LMIN0_LMAX0_merged_frame; eassumption.
Qed.

Lemma resolver_writes_only_at_first_components_witness :
  [1; 0; 1]%Z !! 1%nat = [0; 0; 0]%Z !! 1%nat
  /\ [3; 0; 3]%Z !! 1%nat = [0; 0; 0]%Z !! 1%nat
  /\ [5; 7; 5]%Z !! 1%nat = [7; 7; 7]%Z !! 1%nat
  /\ [6; 8; 6]%Z !! 1%nat = [8; 8; 8]%Z !! 1%nat.
Proof.
  apply (resolver_writes_only_at_first_components
           ["S.123,12.345"; "A.001"; "S.123"] ["S.123,12.345"]
           [0; 0; 0]%Z [0; 0; 0]%Z [7; 7; 7]%Z [8; 8; 8]%Z
           ["S.123"] [1]%Z [3]%Z [] [] [] ["12.345"] [5]%Z [6]%Z [] [] []
           [1; 0; 1]%Z [3; 0; 3]%Z [5; 7; 5]%Z [6; 8; 6]%Z 1%nat eq_refl).
  intros k b [= <-] Hb. apply elem_of_cons in Hb as [->|Hb]; [|inversion Hb].
  discriminate.
Defined.

(** Every value of [arr] is the sentinel or a value of one of [cols]. *)
Definition drawn_from {V} (sentinel : V) (cols : list (list V)) (arr : list V) : Prop :=
  forall v, v ∈ arr -> v = sentinel \/ exists c, c ∈ cols /\ v ∈ c.

Lemma join_chain_drawn {V} (sentinel : V) (AP : list string)
      (cats : list (list string * list V)) (r : list V) :
  join_chain AP (replicate (length AP) sentinel) cats = Some r ->
  drawn_from sentinel (map snd cats) r.
Proof.
  intros H v Hv. destruct (join_chain_values _ _ _ _ v H Hv) as [Hs|(c & Hc & Hin)].
  - left. now apply elem_of_replicate in Hs as [-> _].
  - right. exists c.2. split; [|exact Hin].
    apply list_elem_of_fmap. now exists c.
Qed.

Lemma drawn_from_mono {V} (sentinel : V) (cols cols' : list (list V)) (arr : list V) :
  (forall c, c ∈ cols -> c ∈ cols') ->
  drawn_from sentinel cols arr -> drawn_from sentinel cols' arr.
Proof.
  intros Hsub H v Hv. destruct (H v Hv) as [?|(c & Hc & Hin)]; [now left|].
  right. exists c. auto.
Qed.

Lemma returned_arrays_have_master_length_witness :
  length (o_AP demo_result) = length demo_slit_str0
  /\ Forall (fun c => length c = length demo_slit_str0)
       [o_MMT_LMIN0 demo_result; o_MMT_LMAX0 demo_result;
        o_KECK_LMIN0 demo_result; o_KECK_LMAX0 demo_result;
        o_NIIA_SNR demo_result; o_NIIB_SNR demo_result; o_HA_SNR demo_result;
        o_HB_SNR demo_result; o_HG_SNR demo_result;
        o_NIIA_FLUX demo_result; o_NIIB_FLUX demo_result; o_HA_FLUX demo_result;
        o_HB_FLUX demo_result; o_HG_FLUX demo_result].
Proof.
  exact (returned_arrays_have_master_length (-99)%Z demo_MMTall demo_MMTsingle
           demo_DEIMOS demo_DEIMOS00 demo_merged demo_slit_str0 demo_inst_str0
           false demo_result demo_run).
Defined.

(** X13. No output array mixes columns: every value of a returned
    array is the sentinel or a value of the same-named column of one of
    the tables that are joined into it. The bounds come from the
    [LMIN0] and [LMAX0] columns of the four line-fit tables, the
    signal-to-noise ratios and fluxes from those four and the merged
    table. *)
Theorem values_come_from_own_columns {V} (sentinel : V)
        (MMTall MMTsingle DEIMOS DEIMOS00 : line_fit V) (merged : merged_fit V)
        (slit_str0 inst_str0 : list string) (AP_only : bool) (o : ordered V) :
  create_ordered_AP_arrays sentinel MMTall MMTsingle DEIMOS DEIMOS00 merged
                           slit_str0 inst_str0 AP_only = Some (full_dict o) ->
  let four f := [f MMTall; f MMTsingle; f DEIMOS; f DEIMOS00] in
  let five f g := [f MMTall; f MMTsingle; f DEIMOS; f DEIMOS00; g merged] in
  drawn_from sentinel (four cat_LMIN0) (o_MMT_LMIN0 o)
  /\ drawn_from sentinel (four cat_LMAX0) (o_MMT_LMAX0 o)
  /\ drawn_from sentinel (four cat_LMIN0) (o_KECK_LMIN0 o)
  /\ drawn_from sentinel (four cat_LMAX0) (o_KECK_LMAX0 o)
  /\ drawn_from sentinel (five cat_NIIA_SNR mer_NIIA_SNR) (o_NIIA_SNR o)
  /\ drawn_from sentinel (five cat_NIIB_SNR mer_NIIB_SNR) (o_NIIB_SNR o)
  /\ drawn_from sentinel (five cat_HA_SNR mer_HA_SNR) (o_HA_SNR o)
  /\ drawn_from sentinel (five cat_HB_SNR mer_HB_SNR) (o_HB_SNR o)
  /\ drawn_from sentinel (five cat_HG_SNR mer_HG_SNR) (o_HG_SNR o)
  /\ drawn_from sentinel (five cat_NIIA_FLUX mer_NIIA_FLUX) (o_NIIA_FLUX o)
  /\ drawn_from sentinel (five cat_NIIB_FLUX mer_NIIB_FLUX) (o_NIIB_FLUX o)
  /\ drawn_from sentinel (five cat_HA_FLUX mer_HA_FLUX) (o_HA_FLUX o)
  /\ drawn_from sentinel (five cat_HB_FLUX mer_HB_FLUX) (o_HB_FLUX o)
  /\ drawn_from sentinel (five cat_HG_FLUX mer_HG_FLUX) (o_HG_FLUX o).
Proof.
  intros H four five.
  apply create_ordered_AP_arrays_full in H
    as (_ & _ & APm & m0 & m1 & k0 & k1 & _ & H1 & H2 & H3 & H4).
  apply single_LMIN0_LMAX0_columns in H1 as (A1 & A2 & A3 & A4).
  apply join_chain_drawn in A1, A2, A3, A4.
  apply get_LMIN0_LMAX0_merged_values in H2 as (B1 & B2 & B3 & B4).
  apply ordered_SNR_columns in H3 as (C1 & C2 & C3 & C4 & C5).
  apply join_chain_drawn in C1, C2, C3, C4, C5.
  apply ordered_FLUX_columns in H4 as (D1 & D2 & D3 & D4 & D5).
  apply join_chain_drawn in D1, D2, D3, D4, D5.
  assert (R : forall (cols : list (list V)) (x x' c1 c2 : list V),
             drawn_from sentinel cols x -> c1 ∈ cols -> c2 ∈ cols ->
             (forall v, v ∈ x' -> v ∈ x \/ v ∈ c1 \/ v ∈ c2) ->
             drawn_from sentinel cols x').
  { intros cols x x' c1 c2 Hx H1 H2 Hx' v Hv.
    destruct (Hx' v Hv) as [?|[?|?]]; [now apply Hx|right..].
    - now exists c1.
    - now exists c2. }
  repeat split; try assumption.
  - apply (R _ m0 _ (cat_LMIN0 MMTall) (cat_LMIN0 MMTsingle)); try assumption.
    + left.
    + right; left.
  - apply (R _ m1 _ (cat_LMAX0 MMTall) (cat_LMAX0 MMTsingle)); try assumption.
    + left.
    + right; left.
  - apply (R _ k0 _ (cat_LMIN0 DEIMOS) (cat_LMIN0 DEIMOS00)); try assumption.
    + right; right; left.
    + right; right; right; left.
  - apply (R _ k1 _ (cat_LMAX0 DEIMOS) (cat_LMAX0 DEIMOS00)); try assumption.
    + right; right; left.
    + right; right; right; left.
Qed.

Lemma values_come_from_own_columns_witness :
  drawn_from (-99)%Z
    [cat_HA_SNR demo_MMTall; cat_HA_SNR demo_MMTsingle; cat_HA_SNR demo_DEIMOS;
     cat_HA_SNR demo_DEIMOS00; mer_HA_SNR demo_merged]
    (o_HA_SNR demo_result).
Proof.
  destruct (values_come_from_own_columns (-99)%Z demo_MMTall demo_MMTsingle
              demo_DEIMOS demo_DEIMOS00 demo_merged demo_slit_str0 demo_inst_str0
              false demo_result demo_run)
    as (_ & _ & _ & _ & _ & _ & H & _).
  exact H.
Defined.

Lemma take_elem {A} (a vals : list A) (idx : list nat) (x : nat) (v : A) :
  take a idx = Some vals -> x ∈ idx -> a !! x = Some v -> v ∈ vals.
Proof.
  unfold take. intros H [t Ht]%list_elem_of_lookup_1 Hv.
  apply mapM_Some in H.
  destruct (Forall2_lookup_l _ _ _ _ _ H Ht) as (w & Hw & Hx).
  apply (list_elem_of_lookup_2 _ t). congruence.
Qed.

Lemma take_elem_inv {A} (a vals : list A) (idx : list nat) (v : A) :
  take a idx = Some vals -> v ∈ vals -> exists x, x ∈ idx /\ a !! x = Some v.
Proof.
  intros H [t Ht]%list_elem_of_lookup_1.
  destruct (take_lookup _ _ _ _ _ H Ht) as (x & Hx & Hv).
  exists x. split; [now apply list_elem_of_lookup_2 in Hx|exact Hv].
Qed.

(** X14. Where nothing matches, the sentinel stays. At a position
    whose key is in none of the four line-fit tables: the ten
    signal-to-noise and flux arrays hold the sentinel when the key is
    not in the merged table either; the four bound arrays hold it when
    no target flagged as merged has a key whose first component is the
    first five characters of this key. *)
Theorem unmatched_key_keeps_sentinel {V} (sentinel : V)
        (MMTall MMTsingle DEIMOS DEIMOS00 : line_fit V) (merged : merged_fit V)
        (slit_str0 inst_str0 : list string) (AP_only : bool) (o : ordered V)
        (p : nat) (k : string) :
  create_ordered_AP_arrays sentinel MMTall MMTsingle DEIMOS DEIMOS00 merged
                           slit_str0 inst_str0 AP_only = Some (full_dict o) ->
  o_AP o !! p = Some k ->
  k ∉ cat_AP MMTall -> k ∉ cat_AP MMTsingle ->
  k ∉ cat_AP DEIMOS -> k ∉ cat_AP DEIMOS00 ->
  (k ∉ mer_AP merged ->
   Forall (fun c => c !! p = Some sentinel)
     [o_NIIA_SNR o; o_NIIB_SNR o; o_HA_SNR o; o_HB_SNR o; o_HG_SNR o;
      o_NIIA_FLUX o; o_NIIB_FLUX o; o_HA_FLUX o; o_HB_FLUX o; o_HG_FLUX o])
  /\ ((forall x inst b,
         inst_str0 !! x = Some inst -> str_in "merged" inst = true ->
         o_AP o !! x = Some b -> split "," b !! 0%nat <> Some (slice 0 5 k)) ->
      Forall (fun c => c !! p = Some sentinel)
        [o_MMT_LMIN0 o; o_MMT_LMAX0 o; o_KECK_LMIN0 o; o_KECK_LMAX0 o]).
Proof.
  intros H Hk N1 N2 N3 N4.
  apply create_ordered_AP_arrays_full in H
    as (_ & _ & APm & m0 & m1 & k0 & k1 & Ht & H1 & H2 & H3 & H4).
  assert (Hs : replicate (length (o_AP o)) sentinel !! p = Some sentinel)
    by (apply lookup_replicate_2; now apply lookup_lt_Some in Hk).
  assert (F4 : forall f c, c ∈ columns4 f MMTall MMTsingle DEIMOS DEIMOS00 ->
                           k ∉ c.1).
  { intros f c Hc. unfold columns4 in Hc.
    repeat (apply elem_of_cons in Hc as [->|Hc]; [assumption|]). inversion Hc. }
  split.
  - intros N5.
    assert (F5 : forall f g c,
               c ∈ columns5 f g MMTall MMTsingle DEIMOS DEIMOS00 merged ->
               k ∉ c.1).
    { intros f g c Hc. unfold columns5 in Hc.
      apply elem_of_app in Hc as [Hc|Hc]; [now apply (F4 f)|].
      apply elem_of_cons in Hc as [->|Hc]; [assumption|inversion Hc]. }
    apply ordered_SNR_columns in H3 as (C1 & C2 & C3 & C4 & C5).
    apply ordered_FLUX_columns in H4 as (D1 & D2 & D3 & D4 & D5).
    repeat constructor;
      match goal with
      | E : join_chain _ _ (columns5 ?f ?g _ _ _ _ _) = Some ?r |- ?r !! _ = _ =>
          rewrite (join_chain_frame _ _ _ _ p k E Hk (F5 f g)); exact Hs
      end.
  - intros Hno.
    apply single_LMIN0_LMAX0_columns in H1 as (A1 & A2 & A3 & A4).
    destruct (get_LMIN0_LMAX0_merged_frame _ _ _ _ _ _ _ _ _ _ _ _ _ _ _ _ _ _ _ _ _ _
                H2 p) as (B1 & B2 & B3 & B4).
    { intros k' b Hk' Hb. assert (k' = k) by congruence. subst k'.
      destruct (take_elem_inv _ _ _ _ Ht Hb) as (x & Hx & Hxb).
      apply elem_of_index_where in Hx as [Hlt Hm].
      destruct (lookup_lt_is_Some_2 inst_str0 x Hlt) as [inst Hinst].
      apply (Hno x inst b Hinst); [|exact Hxb].
      now rewrite (item_lookup _ _ _ Hinst) in Hm. }
    rewrite (join_chain_frame _ _ _ _ p k A1 Hk (F4 _)) in B1.
    rewrite (join_chain_frame _ _ _ _ p k A2 Hk (F4 _)) in B2.
    rewrite (join_chain_frame _ _ _ _ p k A3 Hk (F4 _)) in B3.
    rewrite (join_chain_frame _ _ _ _ p k A4 Hk (F4 _)) in B4.
    repeat constructor; congruence.
Qed.

Lemma unmatched_key_keeps_sentinel_witness :
  Forall (fun c => c !! 3%nat = Some (-99)%Z)
    [o_MMT_LMIN0 demo_result; o_MMT_LMAX0 demo_result;
     o_KECK_LMIN0 demo_result; o_KECK_LMAX0 demo_result].
Proof.
  destruct (unmatched_key_keeps_sentinel (-99)%Z demo_MMTall demo_MMTsingle
              demo_DEIMOS demo_DEIMOS00 demo_merged demo_slit_str0 demo_inst_str0
              false demo_result 3%nat "N/A" demo_run eq_refl) as [_ H].
  - intros Hin. repeat (apply elem_of_cons in Hin as [Hin|Hin]; [discriminate|]).
    inversion Hin.
  - intros Hin. repeat (apply elem_of_cons in Hin as [Hin|Hin]; [discriminate|]).
    inversion Hin.
  - intros Hin. repeat (apply elem_of_cons in Hin as [Hin|Hin]; [discriminate|]).
    inversion Hin.
  - intros Hin. repeat (apply elem_of_cons in Hin as [Hin|Hin]; [discriminate|]).
    inversion Hin.
  - apply H. intros x inst b Hinst Hm Hb.
    assert (x = 2%nat) as ->.
    { do 17 (destruct x as [|x];
             [cbn in Hinst; injection Hinst as <-;
              first [reflexivity | vm_compute in Hm; discriminate Hm]|]).
      discriminate Hinst. }
    cbn in Hb. injection Hb as <-. discriminate.
Defined.

Lemma split_no_sep (sep : ascii) (s : string) :
  str_in (String sep EmptyString) s = false -> split sep s = [s].
Proof.
  induction s as [|c s IH]; [reflexivity|].
  cbn [str_in String.prefix]. intros H.
  apply orb_false_elim in H as [Hp Hs].
  cbn [split]. destruct (Ascii.eqb_spec c sep) as [->|Hne].
  - destruct (ascii_dec sep sep) as [_|Hn]; [|contradiction].
    now rewrite prefix_empty in Hp.
  - now rewrite (IH Hs).
Qed.

Lemma for_each_raises {S X} (body : S -> X -> option S) (l : list X) (x : X) (st : S) :
  x ∈ l -> (forall s, body s x = None) -> for_each body st l = None.
Proof.
  intros Hx Hnone. revert st.
  induction l as [|y l IH]; intros st; [inversion Hx|].
  cbn [for_each]. apply elem_of_cons in Hx as [<-|Hx].
  - now rewrite Hnone.
  - destruct (body st y) as [s1|]; [|reflexivity].
    rewrite bind_Some. now apply IH.
Qed.

Lemma get_LMIN0_LMAX0_merged_raises {V} (all_AP mergedAP : list string)
      (m0 m1 k0 k1 : list V)
      (MMTallAP : list string) (MMTallLMIN0 MMTallLMAX0 : list V)
      (MMTsingleAP : list string) (MMTsingleLMIN0 MMTsingleLMAX0 : list V)
      (DEIMOSAP : list string) (DEIMOSLMIN0 DEIMOSLMAX0 : list V)
      (DEIMOS00AP : list string) (DEIMOS00LMIN0 DEIMOS00LMAX0 : list V)
      (b : string) :
  b ∈ mergedAP -> str_in "," b = false ->
  get_LMIN0_LMAX0_merged all_AP mergedAP m0 m1 k0 k1
    MMTallAP MMTallLMIN0 MMTallLMAX0 MMTsingleAP MMTsingleLMIN0 MMTsingleLMAX0
    DEIMOSAP DEIMOSLMIN0 DEIMOSLMAX0 DEIMOS00AP DEIMOS00LMIN0 DEIMOS00LMAX0
  = None.
Proof.
  intros Hb Hno. unfold get_LMIN0_LMAX0_merged.
  apply (for_each_raises _ _ b); [exact Hb|].
  intros [[[a b'] c] d]. unfold merged_step.
  now rewrite (split_no_sep "," b Hno).
Qed.

(** X15. A merged key without a comma stops the resolver: the loop
    reads the second component of every key of [mergedAP] and raises
    when there is none. So the full run raises whenever a target whose
    [inst_str0] contains ["merged"] has a key without a comma, as the
    keys ["N/A"], ["FOCAS"] and the five-character keys are. *)
Theorem merged_key_without_comma_raises {V} :
  (forall (all_AP mergedAP : list string) (m0 m1 k0 k1 : list V)
          (MMTallAP : list string) (MMTallLMIN0 MMTallLMAX0 : list V)
          (MMTsingleAP : list string) (MMTsingleLMIN0 MMTsingleLMAX0 : list V)
          (DEIMOSAP : list string) (DEIMOSLMIN0 DEIMOSLMAX0 : list V)
          (DEIMOS00AP : list string) (DEIMOS00LMIN0 DEIMOS00LMAX0 : list V)
          (b : string),
      b ∈ mergedAP -> str_in "," b = false ->
      get_LMIN0_LMAX0_merged all_AP mergedAP m0 m1 k0 k1
        MMTallAP MMTallLMIN0 MMTallLMAX0 MMTsingleAP MMTsingleLMIN0 MMTsingleLMAX0
        DEIMOSAP DEIMOSLMIN0 DEIMOSLMAX0 DEIMOS00AP DEIMOS00LMIN0 DEIMOS00LMAX0
      = None)
  /\ (forall (sentinel : V) (MMTall MMTsingle DEIMOS DEIMOS00 : line_fit V)
             (merged : merged_fit V) (slit_str0 inst_str0 : list string)
             (x : nat) (raw inst : string),
        slit_str0 !! x = Some raw -> inst_str0 !! x = Some inst ->
        str_in "merged" inst = true -> str_in "," (decode raw) = false ->
        create_ordered_AP_arrays sentinel MMTall MMTsingle DEIMOS DEIMOS00 merged
                                 slit_str0 inst_str0 false = None).
Proof.
  split; [intros; eapply get_LMIN0_LMAX0_merged_raises; eassumption|].
  intros sentinel MMTall MMTsingle DEIMOS DEIMOS00 merged slit_str0 inst_str0
         x raw inst Hraw Hinst Hm Hno.
  unfold create_ordered_AP_arrays.
  destruct (ordered_AP slit_str0) as [AP|] eqn:HAP; [|reflexivity].
  rewrite bind_Some. apply ordered_AP_Some in HAP as [_ ->].
  destruct (untyped_index_where _ _) as [merged_iis|] eqn:Hu; [|reflexivity].
  rewrite bind_Some. apply untyped_index_where_Some in Hu as [-> _].
  destruct (take _ _) as [AP_merged|] eqn:Ht; [|reflexivity].
  rewrite bind_Some.
  destruct (single_LMIN0_LMAX0 _ _ _ _ _ _) as [[[[m0 m1] k0] k1]|]; [|reflexivity].
  rewrite bind_Some.
  rewrite (get_LMIN0_LMAX0_merged_raises _ _ _ _ _ _ _ _ _ _ _ _ _ _ _ _ _ _
             (decode raw)); [reflexivity| |exact Hno].
  apply (take_elem _ _ _ x _ Ht).
  - apply elem_of_index_where. split; [now apply lookup_lt_Some in Hinst|].
    now rewrite (item_lookup _ _ _ Hinst).
  - now rewrite list_lookup_map, Hraw.
Qed.

(** X17. The keys do not depend on the tables. Whenever a run returns,
    with or without the value arrays, the run that asks for the keys
    only returns too, on any tables, with the same key array. *)
Theorem keys_only_run_agrees {V} (sentinel : V)
        (MMTall MMTsingle DEIMOS DEIMOS00 : line_fit V) (merged : merged_fit V)
        (slit_str0 inst_str0 : list string) (AP_only : bool) (r : result V) :
  create_ordered_AP_arrays sentinel MMTall MMTsingle DEIMOS DEIMOS00 merged
                           slit_str0 inst_str0 AP_only = Some r ->
  forall (V' : Type) (sentinel' : V')
         (MMTall' MMTsingle' DEIMOS' DEIMOS00' : line_fit V')
         (merged' : merged_fit V'),
    create_ordered_AP_arrays sentinel' MMTall' MMTsingle' DEIMOS' DEIMOS00' merged'
                             slit_str0 inst_str0 true
    = Some (AP_dict (result_AP r)).
Proof.
  intros H V' sentinel' MMTall' MMTsingle' DEIMOS' DEIMOS00' merged'.
  pose proof (create_ordered_AP_arrays_AP _ _ _ _ _ _ _ _ _ _ H) as HAP.
  assert (Ht : exists merged_iis AP_merged,
             untyped_index_where (length inst_str0)
               (fun x => str_in "merged" (item inst_str0 x)) = Some merged_iis
             /\ take (result_AP r) merged_iis = Some AP_merged).
  { unfold create_ordered_AP_arrays in H. rewrite HAP, bind_Some in H.
    destruct (untyped_index_where _ _) as [merged_iis|]; [|discriminate].
    rewrite bind_Some in H.
    destruct (take _ _) as [AP_merged|] eqn:Ht; [|discriminate].
    now exists merged_iis, AP_merged. }
  destruct Ht as (merged_iis & AP_merged & Hu & Ht). unfold create_ordered_AP_arrays.
  now rewrite HAP, bind_Some, Hu, bind_Some, Ht.
Qed.

Lemma keys_only_run_agrees_witness :
  create_ordered_AP_arrays 0%nat no_rows no_rows no_rows no_rows no_merged_rows
                           demo_slit_str0 demo_inst_str0 true
  = Some (AP_dict (result_AP (full_dict demo_result))).
Proof.
  exact (keys_only_run_agrees (-99)%Z demo_MMTall demo_MMTsingle demo_DEIMOS
           demo_DEIMOS00 demo_merged demo_slit_str0 demo_inst_str0 false
           (full_dict demo_result) demo_run nat 0%nat no_rows no_rows no_rows
           no_rows no_merged_rows).
Defined.

(** X18. [inst_str0] may be shorter than [slit_str0], not longer where
    it counts: an entry containing ["merged"] at an index that
    [slit_str0] does not have makes [AP[merged_iis]] raise, in the
    keys-only run as well. *)
Theorem merged_flag_beyond_targets_raises {V} (sentinel : V)
        (MMTall MMTsingle DEIMOS DEIMOS00 : line_fit V) (merged : merged_fit V)
        (slit_str0 inst_str0 : list string) (AP_only : bool)
        (x : nat) (inst : string) :
  inst_str0 !! x = Some inst -> str_in "merged" inst = true ->
  (length slit_str0 <= x)%nat ->
  create_ordered_AP_arrays sentinel MMTall MMTsingle DEIMOS DEIMOS00 merged
                           slit_str0 inst_str0 AP_only = None.
Proof.
  intros Hinst Hm Hx. unfold create_ordered_AP_arrays.
  destruct (ordered_AP slit_str0) as [AP|] eqn:HAP; [|reflexivity].
  rewrite bind_Some. apply ordered_AP_Some in HAP as [_ ->].
  destruct (untyped_index_where _ _) as [merged_iis|] eqn:Hu; [|reflexivity].
  rewrite bind_Some. apply untyped_index_where_Some in Hu as [-> _].
  destruct (take _ _) as [AP_merged|] eqn:Ht; [|reflexivity].
  exfalso. apply take_Some_in_range in Ht.
  rewrite in_range_spec in Ht. specialize (Ht x). rewrite length_map in Ht.
  enough (x < length slit_str0)%nat by lia. apply Ht.
  apply elem_of_index_where. split; [now apply lookup_lt_Some in Hinst|].
  now rewrite (item_lookup _ _ _ Hinst).
Qed.

Lemma merged_flag_beyond_targets_raises_witness :
  create_ordered_AP_arrays (-99)%Z no_rows no_rows no_rows no_rows no_merged_rows
                           demo_slit_str0 (demo_inst_str0 ++ ["merged,"])%list true
  = None.
Proof.
  apply (merged_flag_beyond_targets_raises (-99)%Z no_rows no_rows no_rows no_rows
           no_merged_rows demo_slit_str0 (demo_inst_str0 ++ ["merged,"])%list true
           17%nat "merged," eq_refl eq_refl).
  simpl. lia.
Defined.

(** ** When the full run returns *)

Lemma split_sep (sep : ascii) (s : string) :
  str_in (String sep EmptyString) s = true ->
  exists a b rest, split sep s = a :: b :: rest.
Proof.
  assert (Hne : forall t, exists a rest, split sep t = a :: rest).
  { induction t as [|c t [a [rest IH]]]; [now exists EmptyString, []|].
    cbn [split]. destruct (Ascii.eqb c sep); [now eexists _, _|].
    rewrite IH. now eexists _, _. }
  induction s as [|c s IH]; [discriminate|].
  cbn [str_in String.prefix split]. intros H.
  destruct (Ascii.eqb_spec c sep) as [->|Hc].
  - destruct (Hne s) as (a & rest & ->). now exists EmptyString, a, rest.
  - destruct (ascii_dec sep c) as [E|_]; [congruence|].
    cbn [orb] in H. destruct (IH H) as (a & b & rest & ->).
    now exists (String c a), b, rest.
Qed.

Lemma rows_for_NoDup (AP : list string) (code : string) :
  NoDup AP -> (length (rows_for AP code) <= 1)%nat.
Proof.
  intros Hnd.
  assert (Hrows : NoDup (rows_for AP code)).
  { unfold rows_for, index_where. apply NoDup_ListNoDup, List.NoDup_filter, seq_NoDup. }
  destruct (rows_for AP code) as [|x [|y l]] eqn:E; cbn [length]; try lia.
  exfalso.
  assert (Hx : x ∈ rows_for AP code) by (rewrite E; left).
  assert (Hy : y ∈ rows_for AP code) by (rewrite E; right; left).
  apply code_rows_spec in Hx, Hy.
  pose proof (NoDup_lookup _ _ _ _ Hnd Hx Hy) as ->.
  apply NoDup_cons in Hrows as [Hxy _]. apply Hxy. left.
Qed.

Lemma for_each_returns {S X} (body : S -> X -> option S) (P : S -> Prop)
      (l : list X) (st : S) :
  (forall s x, x ∈ l -> P s -> exists s', body s x = Some s' /\ P s') ->
  P st -> exists st', for_each body st l = Some st' /\ P st'.
Proof.
  revert st. induction l as [|x l IH]; intros st Hstep HP; cbn [for_each].
  - now exists st.
  - destruct (Hstep st x) as (s1 & -> & HP1); [left|exact HP|].
    rewrite bind_Some. apply IH; [|exact HP1].
    intros s y Hy. apply Hstep. now right.
Qed.

(** A line-fit table that the run can take: its twelve columns are as
    long as its key column, no key occurs twice in it, and none of its
    keys is the key of two targets. *)
Definition line_fit_ok {V} (AP : list string) (c : line_fit V) : Prop :=
  Forall (fun col => length col = length (cat_AP c))
    [cat_LMIN0 c; cat_LMAX0 c;
     cat_NIIA_SNR c; cat_NIIB_SNR c; cat_HA_SNR c; cat_HB_SNR c; cat_HG_SNR c;
     cat_NIIA_FLUX c; cat_NIIB_FLUX c; cat_HA_FLUX c; cat_HB_FLUX c; cat_HG_FLUX c]
  /\ NoDup (cat_AP c)
  /\ forall k, k ∈ cat_AP c -> (length (np_where_eq AP k) <= 1)%nat.

Definition merged_fit_ok {V} (AP : list string) (c : merged_fit V) : Prop :=
  Forall (fun col => length col = length (mer_AP c))
    [mer_NIIA_SNR c; mer_NIIB_SNR c; mer_HA_SNR c; mer_HB_SNR c; mer_HG_SNR c;
     mer_NIIA_FLUX c; mer_NIIB_FLUX c; mer_HA_FLUX c; mer_HB_FLUX c; mer_HG_FLUX c]
  /\ forall k, k ∈ mer_AP c -> (length (np_where_eq AP k) <= 1)%nat.

Section Returns.
Context {V : Type}.
Variable sentinel : V.
Variables MMTall MMTsingle DEIMOS DEIMOS00 : line_fit V.
Variable merged : merged_fit V.
Variable AP : list string.
Hypothesis ok_MMTall : line_fit_ok AP MMTall.
Hypothesis ok_MMTsingle : line_fit_ok AP MMTsingle.
Hypothesis ok_DEIMOS : line_fit_ok AP DEIMOS.
Hypothesis ok_DEIMOS00 : line_fit_ok AP DEIMOS00.
Hypothesis ok_merged : merged_fit_ok AP merged.

Lemma ordered_SNR_returns :
  is_Some (ordered_SNR sentinel MMTall MMTsingle DEIMOS DEIMOS00 merged AP).
Proof.
  destruct ok_MMTall as (A & _ & A'), ok_MMTsingle as (B & _ & B'),
    ok_DEIMOS as (C & _ & C'), ok_DEIMOS00 as (D & _ & D'), ok_merged as (M & M').
  open_Forall. unfold ordered_SNR. cbv zeta.
  rewrite get_SNRs_FLUXs_unique, bind_Some by join_lengths.
  rewrite get_SNRs_FLUXs_unique, bind_Some by join_lengths.
  rewrite get_SNRs_FLUXs_unique, bind_Some by join_lengths.
  rewrite get_SNRs_FLUXs_unique, bind_Some by join_lengths.
  rewrite get_SNRs_FLUXs_unique by join_lengths.
  eexists; reflexivity.
Qed.

Lemma ordered_FLUX_returns :
  is_Some (ordered_FLUX sentinel MMTall MMTsingle DEIMOS DEIMOS00 merged AP).
Proof.
  destruct ok_MMTall as (A & _ & A'), ok_MMTsingle as (B & _ & B'),
    ok_DEIMOS as (C & _ & C'), ok_DEIMOS00 as (D & _ & D'), ok_merged as (M & M').
  open_Forall. unfold ordered_FLUX. cbv zeta.
  rewrite get_SNRs_FLUXs_unique, bind_Some by join_lengths.
  rewrite get_SNRs_FLUXs_unique, bind_Some by join_lengths.
  rewrite get_SNRs_FLUXs_unique, bind_Some by join_lengths.
  rewrite get_SNRs_FLUXs_unique, bind_Some by join_lengths.
  rewrite get_SNRs_FLUXs_unique by join_lengths.
  eexists; reflexivity.
Qed.

Lemma single_joins_return :
  exists m0 m1 k0 k1,
    single_LMIN0_LMAX0 sentinel MMTall MMTsingle DEIMOS DEIMOS00 AP
    = Some (m0, m1, k0, k1)
    /\ Forall (fun c => length c = length AP) [m0; m1; k0; k1].
Proof.
  destruct ok_MMTall as (A & _ & A'), ok_MMTsingle as (B & _ & B'),
    ok_DEIMOS as (C & _ & C'), ok_DEIMOS00 as (D & _ & D').
  open_Forall.
  destruct (single_LMIN0_LMAX0_returns sentinel MMTall MMTsingle DEIMOS DEIMOS00 AP)
    as [[[[m0 m1] k0] k1] H]; try (repeat split; assumption).
  exists m0, m1, k0, k1. split; [exact H|].
  apply single_LMIN0_LMAX0_columns in H as (H1 & H2 & H3 & H4).
  apply join_chain_length in H1, H2, H3, H4. rewrite length_replicate in *.
  repeat constructor; assumption.
Qed.

Lemma resolver_returns (mergedAP : list string) (m0 m1 k0 k1 : list V) :
  Forall (fun b => str_in "," b = true) mergedAP ->
  Forall (fun c => length c = length AP) [m0; m1; k0; k1] ->
  is_Some (get_LMIN0_LMAX0_merged AP mergedAP m0 m1 k0 k1
             (cat_AP MMTall) (cat_LMIN0 MMTall) (cat_LMAX0 MMTall)
             (cat_AP MMTsingle) (cat_LMIN0 MMTsingle) (cat_LMAX0 MMTsingle)
             (cat_AP DEIMOS) (cat_LMIN0 DEIMOS) (cat_LMAX0 DEIMOS)
             (cat_AP DEIMOS00) (cat_LMIN0 DEIMOS00) (cat_LMAX0 DEIMOS00)).
Proof.
  intros Hcomma Hlen.
  destruct ok_MMTall as (A & NA & _), ok_MMTsingle as (B & NB & _),
    ok_DEIMOS as (C & NC & _), ok_DEIMOS00 as (D & ND & _).
  unfold get_LMIN0_LMAX0_merged.
  destruct (for_each_returns
              (merged_step AP (cat_AP MMTall) (cat_LMIN0 MMTall) (cat_LMAX0 MMTall)
                 (cat_AP MMTsingle) (cat_LMIN0 MMTsingle) (cat_LMAX0 MMTsingle)
                 (cat_AP DEIMOS) (cat_LMIN0 DEIMOS) (cat_LMAX0 DEIMOS)
                 (cat_AP DEIMOS00) (cat_LMIN0 DEIMOS00) (cat_LMAX0 DEIMOS00))
              (fun st : list V * list V * list V * list V =>
                 Forall (fun c => length c = length AP)
                        [st.1.1.1; st.1.1.2; st.1.2; st.2])
              mergedAP (m0, m1, k0, k1)) as (st' & -> & _);
    [|exact Hlen|now eexists].
  intros [[[a b] c] d] x Hx Hst. cbn [fst snd] in Hst.
  rewrite Forall_forall in Hcomma.
  destruct (split_sep "," x (Hcomma x Hx)) as (mmt & keck & rest & Hsplit).
  destruct (merged_step_returns AP
              (cat_AP MMTall) (cat_LMIN0 MMTall) (cat_LMAX0 MMTall)
              (cat_AP MMTsingle) (cat_LMIN0 MMTsingle) (cat_LMAX0 MMTsingle)
              (cat_AP DEIMOS) (cat_LMIN0 DEIMOS) (cat_LMAX0 DEIMOS)
              (cat_AP DEIMOS00) (cat_LMIN0 DEIMOS00) (cat_LMAX0 DEIMOS00)
              a b c d x mmt keck rest Hsplit Hst)
    as [[[[a' b'] c'] d'] Hs];
    try (now apply rows_for_NoDup);
    try (open_Forall; repeat constructor; assumption).
  exists (a', b', c', d'). split; [exact Hs|]. cbn [fst snd].
  apply merged_step_inv in Hs as (? & ? & _ & _ & Hm & Hk).
  apply resolve_side_length in Hm as [? ?].
  apply resolve_side_length in Hk as [? ?].
  open_Forall. repeat constructor; congruence.
Qed.

End Returns.

(** X19. The full run returns on well-formed input: no raw string is
    empty, every index array that the key builder makes without a
    [dtype] selects at least one target ([populated]), some entry of
    [inst_str0] contains ["merged"], [inst_str0] is no longer than
    [slit_str0], every target flagged as merged has a key with a comma,
    the columns of each table are as long as its key column, no
    line-fit table has a key twice, and no key of a table is the key of
    two targets. The dictionary it returns has the decoded keys. *)
Theorem full_run_returns {V} (sentinel : V)
        (MMTall MMTsingle DEIMOS DEIMOS00 : line_fit V) (merged : merged_fit V)
        (slit_str0 inst_str0 : list string) :
  Forall (fun raw => raw <> EmptyString) slit_str0 ->
  populated slit_str0 = true ->
  (exists x inst, inst_str0 !! x = Some inst /\ str_in "merged" inst = true) ->
  (length inst_str0 <= length slit_str0)%nat ->
  (forall x inst raw,
     inst_str0 !! x = Some inst -> str_in "merged" inst = true ->
     slit_str0 !! x = Some raw -> str_in "," (decode raw) = true) ->
  line_fit_ok (map decode slit_str0) MMTall ->
  line_fit_ok (map decode slit_str0) MMTsingle ->
  line_fit_ok (map decode slit_str0) DEIMOS ->
  line_fit_ok (map decode slit_str0) DEIMOS00 ->
  merged_fit_ok (map decode slit_str0) merged ->
  exists o,
    create_ordered_AP_arrays sentinel MMTall MMTsingle DEIMOS DEIMOS00 merged
                             slit_str0 inst_str0 false = Some (full_dict o)
    /\ o_AP o = map decode slit_str0.
Proof.
  intros Hne Hpop (x0 & inst0 & Hx0 & Hm0) Hinst Hcomma O1 O2 O3 O4 O5.
  unfold create_ordered_AP_arrays.
  rewrite ordered_AP_run, Hpop, bind_Some by exact Hne.
  untyped inst_str0 (str_in "merged").
  assert (Hex : existsb (str_in "merged") inst_str0 = true).
  { apply existsb_exists. exists inst0. split; [|exact Hm0].
    apply list_elem_of_In, list_elem_of_lookup. now exists x0. }
  rewrite Hex, bind_Some.
  destruct (take (map decode slit_str0) _) as [AP_merged|] eqn:Ht.
  2: { rewrite (take_in_range EmptyString) in Ht; [discriminate|].
       apply in_range_index_where. now rewrite length_map. }
  rewrite bind_Some.
  destruct (single_joins_return sentinel MMTall MMTsingle DEIMOS DEIMOS00
              (map decode slit_str0) O1 O2 O3 O4)
    as (m0 & m1 & k0 & k1 & -> & Hlen).
  rewrite bind_Some.
  destruct (resolver_returns MMTall MMTsingle DEIMOS DEIMOS00
              (map decode slit_str0) O1 O2 O3 O4 AP_merged m0 m1 k0 k1)
    as [[[[a b] c] d] ->]; [|exact Hlen|].
  { apply Forall_forall. intros b Hb.
    destruct (take_elem_inv _ _ _ _ Ht Hb) as (x & Hx & Hxb).
    apply elem_of_index_where in Hx as [Hlt Hm].
    destruct (lookup_lt_is_Some_2 inst_str0 x Hlt) as [inst Hi].
    rewrite (item_lookup _ _ _ Hi) in Hm.
    rewrite list_lookup_map in Hxb.
    destruct (slit_str0 !! x) as [raw|] eqn:Hraw; [|discriminate].
    injection Hxb as <-. now apply (Hcomma x inst raw). }
  rewrite bind_Some.
  destruct (ordered_SNR_returns sentinel MMTall MMTsingle DEIMOS DEIMOS00 merged
              (map decode slit_str0) O1 O2 O3 O4 O5)
    as [[[[[s1 s2] s3] s4] s5] ->].
  rewrite bind_Some.
  destruct (ordered_FLUX_returns sentinel MMTall MMTsingle DEIMOS DEIMOS00 merged
              (map decode slit_str0) O1 O2 O3 O4 O5)
    as [[[[[f1 f2] f3] f4] f5] ->].
  rewrite bind_Some. eexists. split; reflexivity.
Qed.

Lemma full_run_returns_witness :
  exists o,
    create_ordered_AP_arrays (-99)%Z demo_MMTall demo_MMTsingle demo_DEIMOS
                             demo_DEIMOS00 demo_merged demo_slit_str0
                             demo_inst_str0 false = Some (full_dict o)
    /\ o_AP o = map decode demo_slit_str0.
Proof.
  assert (U : forall keys : list string,
             Forall (fun k => (length (np_where_eq (map decode demo_slit_str0) k)
                               <=? 1)%nat = true) keys ->
             forall k, k ∈ keys ->
                       (length (np_where_eq (map decode demo_slit_str0) k) <= 1)%nat).
  { intros keys Hall k Hk. rewrite Forall_forall in Hall.
    apply Nat.leb_le. now apply Hall. }
  apply (full_run_returns (-99)%Z demo_MMTall demo_MMTsingle demo_DEIMOS
           demo_DEIMOS00 demo_merged demo_slit_str0 demo_inst_str0).
  - repeat constructor; discriminate.
  - reflexivity.
  - exists 2%nat, "merged,". split; reflexivity.
  - simpl. lia.
  - intros x inst raw Hinst Hm Hraw.
    assert (x = 2%nat) as ->.
    { do 17 (destruct x as [|x];
             [cbn in Hinst; injection Hinst as <-;
              first [reflexivity | vm_compute in Hm; discriminate Hm]|]).
      discriminate Hinst. }
    cbn in Hraw. injection Hraw as <-. reflexivity.
  - split; [repeat constructor|split].
    + apply (bool_decide_unpack _). reflexivity.
    + apply U. repeat constructor.
  - split; [repeat constructor|split].
    + apply (bool_decide_unpack _). reflexivity.
    + apply U. repeat constructor.
  - split; [repeat constructor|split].
    + apply (bool_decide_unpack _). reflexivity.
    + apply U. repeat constructor.
  - split; [repeat constructor|split].
    + apply (bool_decide_unpack _). reflexivity.
    + apply U. repeat constructor.
  - split; [repeat constructor|].
    apply U. repeat constructor.
Defined.

(** ** Which table a value comes from *)

(** The value for key [k] from the first of [tables] that has a row for
    it (the last such row of that table), the sentinel when none has. *)
Fixpoint priority_value {V} (k : string) (sentinel : V)
         (tables : list (list string * list V)) : V :=
  match tables with
  | [] => sentinel
  | t :: tables' =>
      match last_row k (zip t.1 t.2) with
      | Some v => v
      | None => priority_value k sentinel tables'
      end
  end.

Lemma priority_value_app {V} (k : string) (x : V) (l : list (list string * list V))
      (c : list string * list V) :
  priority_value k x (l ++ [c])
  = priority_value k (match last_row k (zip c.1 c.2) with
                      | Some v => v
                      | None => x
                      end) l.
Proof.
  induction l as [|t l IH]; cbn [app priority_value]; [reflexivity|].
  now rewrite IH.
Qed.

Lemma join_chain_priority {V} (AP : list string) (cats : list (list string * list V))
      (s r : list V) (p : nat) (k : string) (x : V) :
  Forall (fun c => length c.2 = length c.1) cats ->
  length s = length AP ->
  join_chain AP s cats = Some r ->
  AP !! p = Some k -> s !! p = Some x ->
  r !! p = Some (priority_value k x (rev cats)).
Proof.
  revert s x. induction cats as [|c cats IH]; intros s x Hlen Hs H Hk Hx;
    cbn [join_chain] in H.
  - injection H as <-. exact Hx.
  - apply Forall_cons in Hlen as [Hc Hlen].
    destruct (gather_put s _ _ _) as [s'|] eqn:E; [|discriminate].
    rewrite bind_Some in H. cbn [rev]. rewrite priority_value_app.
    apply (IH s'); try assumption.
    + apply gather_put_Some_length in E. lia.
    + rewrite (gather_put_joined AP c.1 s c.2 s' p k Hs Hc E Hk).
      unfold joined. now destruct (last_row k (zip c.1 c.2)).
Qed.

(** The ten signal-to-noise and flux columns of a line-fit table. *)
Definition line_columns {V} (c : line_fit V) : list (list V) :=
  [cat_NIIA_SNR c; cat_NIIB_SNR c; cat_HA_SNR c; cat_HB_SNR c; cat_HG_SNR c;
   cat_NIIA_FLUX c; cat_NIIB_FLUX c; cat_HA_FLUX c; cat_HB_FLUX c; cat_HG_FLUX c].

Definition merged_columns {V} (c : merged_fit V) : list (list V) :=
  [mer_NIIA_SNR c; mer_NIIB_SNR c; mer_HA_SNR c; mer_HB_SNR c; mer_HG_SNR c;
   mer_NIIA_FLUX c; mer_NIIB_FLUX c; mer_HA_FLUX c; mer_HB_FLUX c; mer_HG_FLUX c].

(** X20. The order of the joins is a priority among the tables. With
    columns as long as their key columns, each signal-to-noise and flux
    array of a returned dictionary holds, at a position with key [k],
    the value of the merged table when that has a row for [k], else of
    [DEIMOS_00_all], else of [DEIMOS_single], else of [MMT_single], else
    of [MMTS_all], and the sentinel when no table has one. *)
Theorem later_table_has_priority {V} (sentinel : V)
        (MMTall MMTsingle DEIMOS DEIMOS00 : line_fit V) (merged : merged_fit V)
        (slit_str0 inst_str0 : list string) (AP_only : bool) (o : ordered V)
        (p : nat) (k : string) :
  Forall (fun c => Forall (fun col => length col = length (cat_AP c))
                          (line_columns c))
         [MMTall; MMTsingle; DEIMOS; DEIMOS00] ->
  Forall (fun col => length col = length (mer_AP merged)) (merged_columns merged) ->
  create_ordered_AP_arrays sentinel MMTall MMTsingle DEIMOS DEIMOS00 merged
                           slit_str0 inst_str0 AP_only = Some (full_dict o) ->
  o_AP o !! p = Some k ->
  let value f g :=
    Some (priority_value k sentinel
            [(mer_AP merged, g merged); (cat_AP DEIMOS00, f DEIMOS00);
             (cat_AP DEIMOS, f DEIMOS); (cat_AP MMTsingle, f MMTsingle);
             (cat_AP MMTall, f MMTall)]) in
  o_NIIA_SNR o !! p = value cat_NIIA_SNR mer_NIIA_SNR
  /\ o_NIIB_SNR o !! p = value cat_NIIB_SNR mer_NIIB_SNR
  /\ o_HA_SNR o !! p = value cat_HA_SNR mer_HA_SNR
  /\ o_HB_SNR o !! p = value cat_HB_SNR mer_HB_SNR
  /\ o_HG_SNR o !! p = value cat_HG_SNR mer_HG_SNR
  /\ o_NIIA_FLUX o !! p = value cat_NIIA_FLUX mer_NIIA_FLUX
  /\ o_NIIB_FLUX o !! p = value cat_NIIB_FLUX mer_NIIB_FLUX
  /\ o_HA_FLUX o !! p = value cat_HA_FLUX mer_HA_FLUX
  /\ o_HB_FLUX o !! p = value cat_HB_FLUX mer_HB_FLUX
  /\ o_HG_FLUX o !! p = value cat_HG_FLUX mer_HG_FLUX.
Proof.
  intros Hl Hm H Hk value.
  apply Forall_cons in Hl as [L1 Hl]. apply Forall_cons in Hl as [L2 Hl].
  apply Forall_cons in Hl as [L3 Hl]. apply Forall_cons in Hl as [L4 _].
  unfold line_columns in L1, L2, L3, L4. unfold merged_columns in Hm.
  open_Forall.
  apply create_ordered_AP_arrays_full in H
    as (_ & _ & APm & m0 & m1 & k0 & k1 & _ & _ & _ & H3 & H4).
  assert (Hs : replicate (length (o_AP o)) sentinel !! p = Some sentinel)
    by (apply lookup_replicate_2; now apply lookup_lt_Some in Hk).
  apply ordered_SNR_columns in H3 as (C1 & C2 & C3 & C4 & C5).
  apply ordered_FLUX_columns in H4 as (D1 & D2 & D3 & D4 & D5).
  repeat split;
    match goal with
    | E : join_chain _ _ (columns5 ?f ?g _ _ _ _ _) = Some ?r
      |- ?r !! _ = value ?f ?g =>
        apply (join_chain_priority _ _ _ _ p k sentinel) in E;
        [exact E
        |repeat constructor; assumption
        |apply length_replicate|exact Hk|exact Hs]
    end.
Qed.

Lemma later_table_has_priority_witness :
  o_HA_SNR demo_result !! 2%nat = Some 27%Z.
Proof.
  destruct (later_table_has_priority (-99)%Z demo_MMTall demo_MMTsingle
              demo_DEIMOS demo_DEIMOS00 demo_merged demo_slit_str0 demo_inst_str0
              false demo_result 2%nat "S.555,12.999"
              ltac:(repeat constructor) ltac:(repeat constructor)
              demo_run eq_refl)
    as (_ & _ & H & _).
  exact H.
Defined.

(** * Sources of one filter: [get_filt_index] of [plot_nbia_mainseq.py]

    [spectra] is an index array as [np.where] returns it (no negative
    index), [filts] the array of filter names. The comprehension
    evaluates [filts[spectra]] for every [x]; it raises [IndexError]
    when [spectra] holds an index that [filts] does not have. *)

Definition get_filt_index (spectra : list nat) (ff : string) (filts : list string)
  : option (list nat) :=
  if str_in "NB7" ff then
    filter_exc (fun x => sel ← take filts spectra; v ← sel !! x;
                         Some (str_in (slice 0 3 ff) v))
               (seq 0 (length spectra))
  else
    filter_exc (fun x => sel ← take filts spectra; v ← sel !! x;
                         Some (ff =? v))
               (seq 0 (length spectra)).

(** The guard of the comprehension, on the filter name of a source. *)
Definition in_filter (ff v : string) : bool :=
  if str_in "NB7" ff then str_in (slice 0 3 ff) v else ff =? v.

Lemma get_filt_index_Some (spectra : list nat) (ff : string) (filts sel : list string) :
  take filts spectra = Some sel ->
  get_filt_index spectra ff filts
  = Some (index_where (length spectra) (fun x => in_filter ff (item sel x))).
Proof.
  intros Ht. pose proof (take_length _ _ _ Ht) as Hl.
  unfold get_filt_index, in_filter, index_where.
  destruct (str_in "NB7" ff); apply filter_exc_total; intros x Hx;
    apply list_elem_of_In, in_seq in Hx; rewrite Ht, bind_Some;
    (destruct (lookup_lt_is_Some_2 sel x) as [v Hv]; [lia|]);
    now rewrite Hv, bind_Some, (item_lookup _ _ _ Hv).
Qed.

Lemma get_filt_index_None (spectra : list nat) (ff : string) (filts : list string) :
  take filts spectra = None -> get_filt_index spectra ff filts = None.
Proof.
  intros Ht. destruct spectra as [|i spectra]; [discriminate|].
  unfold get_filt_index.
  destruct (str_in "NB7" ff); apply (filter_exc_raises _ _ 0%nat);
    try (cbn [length seq]; left); now rewrite Ht.
Qed.

Lemma index_where_increasing (n : nat) (P : nat -> bool) (a b x y : nat) :
  index_where n P !! a = Some x -> index_where n P !! b = Some y ->
  (a < b)%nat -> (x < y)%nat.
Proof.
  unfold index_where. generalize 0%nat as s. revert a b.
  induction n as [|n IH]; intros a b s Ha Hb Hab; cbn [seq List.filter] in *;
    [discriminate|].
  destruct (P s); [|now apply (IH a b (S s))].
  destruct b as [|b]; [lia|]. cbn in Hb. destruct a as [|a].
  - injection Ha as <-.
    apply list_elem_of_lookup_2, list_elem_of_In, filter_In in Hb as [Hb _].
    apply in_seq in Hb. lia.
  - cbn in Ha. apply (IH a b (S s)); [assumption..|lia].
Qed.

(** X21. [get_filt_index] returns exactly when every index of
    [spectra] is an index of [filts]. What it returns is a strictly
    increasing list of positions of [spectra], so it can index any
    array selected by [spectra]. *)
Theorem get_filt_index_returns (spectra : list nat) (ff : string)
        (filts : list string) :
  (is_Some (get_filt_index spectra ff filts)
   <-> forall i, i ∈ spectra -> (i < length filts)%nat)
  /\ forall filt_index,
       get_filt_index spectra ff filts = Some filt_index ->
       Forall (fun x => (x < length spectra)%nat) filt_index
       /\ forall a b x y,
            filt_index !! a = Some x -> filt_index !! b = Some y ->
            (a < b)%nat -> (x < y)%nat.
Proof.
  split; [split|].
  - intros [r Hr]. destruct (take filts spectra) as [sel|] eqn:Ht.
    + apply take_Some_in_range in Ht. now apply in_range_spec.
    + rewrite get_filt_index_None in Hr by exact Ht. discriminate.
  - intros Hin. apply in_range_spec in Hin.
    rewrite (get_filt_index_Some spectra ff filts
               (map (fun i => nth i filts EmptyString) spectra));
      [now eexists|].
    now apply take_in_range.
  - intros r Hr. destruct (take filts spectra) as [sel|] eqn:Ht.
    + rewrite (get_filt_index_Some _ _ _ _ Ht) in Hr. injection Hr as <-.
      split; [|apply index_where_increasing].
      apply Forall_forall. now intros x [Hx _]%elem_of_index_where.
    + rewrite get_filt_index_None in Hr by exact Ht. discriminate.
Qed.

(** The filter names of the survey. *)
Definition survey_filters : list string :=
  ["NB704"; "NB711"; "NB816"; "NB921"; "NB973"].

Lemma filter_lengths_add (l : list nat) (P1 P2 P3 P4 : nat -> bool) :
  (forall x, x ∈ l ->
     (Nat.b2n (P1 x) + Nat.b2n (P2 x) + Nat.b2n (P3 x) + Nat.b2n (P4 x) = 1)%nat) ->
  (length (List.filter P1 l) + length (List.filter P2 l)
   + length (List.filter P3 l) + length (List.filter P4 l) = length l)%nat.
Proof.
  induction l as [|x l IH]; intros H; [reflexivity|].
  assert (IH' : forall y, y ∈ l ->
             (Nat.b2n (P1 y) + Nat.b2n (P2 y) + Nat.b2n (P3 y) + Nat.b2n (P4 y)
              = 1)%nat) by (intros y Hy; apply H; now right).
  specialize (IH IH'). assert (Hx : x ∈ x :: l) by left.
  specialize (H x Hx).
  cbn [List.filter length].
  destruct (P1 x), (P2 x), (P3 x), (P4 x); cbn [Nat.b2n] in H; cbn [length];
    lia.
Qed.

Lemma in_filter_survey (v : string) :
  v ∈ survey_filters ->
  (Nat.b2n (in_filter "NB704,NB711" v) + Nat.b2n (in_filter "NB816" v)
   + Nat.b2n (in_filter "NB921" v) + Nat.b2n (in_filter "NB973" v) = 1)%nat.
Proof.
  unfold survey_filters. intros H.
  repeat (apply elem_of_cons in H as [->|H]; [reflexivity|]). inversion H.
Qed.

(** X22. The four calls of the plotting loops split the sources. When
    every source selected by [spectra] has one of the five filter names
    of the survey, the calls for ['NB704,NB711'], ['NB816'], ['NB921']
    and ['NB973'] all return, every position of [spectra] is in exactly
    one of the four results, and their lengths add up to the length of
    [spectra]: the count that [make_all_graph] asserts. *)
Theorem get_filt_index_partition (spectra : list nat) (filts : list string) :
  (forall i, i ∈ spectra ->
     exists v, filts !! i = Some v /\ v ∈ survey_filters) ->
  exists i1 i2 i3 i4,
    get_filt_index spectra "NB704,NB711" filts = Some i1
    /\ get_filt_index spectra "NB816" filts = Some i2
    /\ get_filt_index spectra "NB921" filts = Some i3
    /\ get_filt_index spectra "NB973" filts = Some i4
    /\ (length i1 + length i2 + length i3 + length i4 = length spectra)%nat
    /\ forall x, (x < length spectra)%nat ->
         (Nat.b2n (bool_decide (x ∈ i1)) + Nat.b2n (bool_decide (x ∈ i2))
          + Nat.b2n (bool_decide (x ∈ i3)) + Nat.b2n (bool_decide (x ∈ i4))
          = 1)%nat.
Proof.
  intros Hnames.
  assert (Ht : take filts spectra
               = Some (map (fun i => nth i filts EmptyString) spectra)).
  { apply take_in_range, in_range_spec. intros i Hi.
    destruct (Hnames i Hi) as (v & Hv & _). now apply lookup_lt_Some in Hv. }
  set (sel := map (fun i => nth i filts EmptyString) spectra) in *.
  assert (Hsel : forall x, (x < length spectra)%nat -> item sel x ∈ survey_filters).
  { intros x Hx. destruct (lookup_lt_is_Some_2 spectra x Hx) as [i Hi].
    destruct (Hnames i (list_elem_of_lookup_2 _ _ _ Hi)) as (v & Hv & Hin).
    assert (Hs : sel !! x = Some v).
    { unfold sel. rewrite list_lookup_map, Hi. cbn [fmap option_fmap option_map].
      f_equal. now apply nth_lookup_Some. }
    now rewrite (item_lookup _ _ _ Hs). }
  eexists _, _, _, _.
  rewrite !(get_filt_index_Some _ _ _ _ Ht).
  repeat (split; [reflexivity|]). split.
  - unfold index_where.
    transitivity (length (seq 0 (length spectra))); [|apply length_seq].
    apply filter_lengths_add. intros x Hx.
    apply list_elem_of_In, in_seq in Hx. apply in_filter_survey, Hsel. lia.
  - intros x Hx. pose proof (in_filter_survey _ (Hsel x Hx)) as H.
    assert (E : forall ff,
               bool_decide (x ∈ index_where (length spectra)
                                  (fun y => in_filter ff (item sel y)))
               = in_filter ff (item sel x)).
    { intros ff. destruct (in_filter ff (item sel x)) eqn:E.
      - apply bool_decide_eq_true, elem_of_index_where. auto.
      - apply bool_decide_eq_false. intros [_ E']%elem_of_index_where. congruence. }
    now rewrite !E.
Qed.

Lemma get_filt_index_partition_witness :
  exists i1 i2 i3 i4,
    get_filt_index [0; 2; 3; 5]%nat "NB704,NB711"
                   ["NB711"; "NB921"; "NB816"; "NB704"; "NB973"; "NB973"] = Some i1
    /\ get_filt_index [0; 2; 3; 5]%nat "NB816"
                      ["NB711"; "NB921"; "NB816"; "NB704"; "NB973"; "NB973"] = Some i2
    /\ get_filt_index [0; 2; 3; 5]%nat "NB921"
                      ["NB711"; "NB921"; "NB816"; "NB704"; "NB973"; "NB973"] = Some i3
    /\ get_filt_index [0; 2; 3; 5]%nat "NB973"
                      ["NB711"; "NB921"; "NB816"; "NB704"; "NB973"; "NB973"] = Some i4
    /\ (length i1 + length i2 + length i3 + length i4 = 4)%nat.
Proof.
  destruct (get_filt_index_partition [0; 2; 3; 5]%nat
              ["NB711"; "NB921"; "NB816"; "NB704"; "NB973"; "NB973"])
    as (i1 & i2 & i3 & i4 & H1 & H2 & H3 & H4 & Hn & _).
  - intros i Hi.
    repeat (apply elem_of_cons in Hi as [->|Hi];
            [eexists; split; [reflexivity|]; unfold survey_filters;
             repeat first [left | right]|]).
    inversion Hi.
  - exists i1, i2, i3, i4. auto.
Defined.

(** X23. The branch for ['NB7'] cannot tell the two NB7 filters apart.
    For a name that contains ['NB7'] the guard looks for its first three
    characters only: every name starting with ['NB7'] gives the result
    of ['NB704,NB711'], which holds the position of every source whose
    filter name contains ['NB7']. Asking for ['NB704'] returns the
    sources of ['NB711'] too. *)
Theorem get_filt_index_NB7_family (spectra : list nat) (ff : string)
        (filts : list string) :
  slice 0 3 ff = "NB7" ->
  get_filt_index spectra ff filts = get_filt_index spectra "NB704,NB711" filts
  /\ forall filt_index x i v,
       get_filt_index spectra ff filts = Some filt_index ->
       spectra !! x = Some i -> filts !! i = Some v ->
       (x ∈ filt_index <-> str_in "NB7" v = true).
Proof.
  intros Hff.
  assert (Hin : str_in "NB7" ff = true).
  { destruct ff as [|a [|b [|c ff]]]; try discriminate.
    cbn in Hff. injection Hff as -> -> ->. cbn [str_in].
    apply orb_true_intro. left. cbn. apply prefix_empty. }
  assert (Hg : forall v, in_filter ff v = str_in "NB7" v)
    by (intros v; unfold in_filter; now rewrite Hin, Hff).
  split.
  - destruct (take filts spectra) as [sel|] eqn:Ht.
    + rewrite !(get_filt_index_Some _ _ _ _ Ht). f_equal.
      unfold index_where. apply filter_ext. intros x. now rewrite Hg.
    + now rewrite !get_filt_index_None.
  - intros r x i v Hr Hx Hi. destruct (take filts spectra) as [sel|] eqn:Ht.
    + rewrite (get_filt_index_Some _ _ _ _ Ht) in Hr. injection Hr as <-.
      rewrite elem_of_index_where, Hg.
      assert (Hs : sel !! x = Some v).
      { unfold take in Ht. apply mapM_Some in Ht.
        destruct (Forall2_lookup_l _ _ _ _ _ Ht Hx) as (w & Hw & Hiw). congruence. }
      rewrite (item_lookup _ _ _ Hs). apply lookup_lt_Some in Hx. tauto.
    + rewrite get_filt_index_None in Hr by exact Ht. discriminate.
Qed.

Lemma get_filt_index_NB7_family_witness :
  get_filt_index [0; 1; 2]%nat "NB704" ["NB711"; "NB921"; "NB704"]
  = get_filt_index [0; 1; 2]%nat "NB704,NB711" ["NB711"; "NB921"; "NB704"]
  /\ (0%nat ∈ [0; 2]%nat <-> str_in "NB7" "NB711" = true).
Proof.
  destruct (get_filt_index_NB7_family [0; 1; 2]%nat "NB704"
              ["NB711"; "NB921"; "NB704"] eq_refl) as [H1 H2].
  split; [exact H1|].
  exact (H2 [0; 2]%nat 0%nat 0%nat "NB711" eq_refl eq_refl eq_refl).
Defined.
